(** * X-Mem: the throughput benchmark's core routine

    A shallow embedding of [ThroughputBenchmark::_run_core]
    (src/ThroughputBenchmark.cpp) and the properties its specification
    states about it.

    The routine is modelled as a function from the benchmark object and
    the answers of its collaborators to the sequence of externally
    visible actions it performs (output, thread and worker management,
    counter reads) together with its result.  Doubles are IEEE-754
    binary64 values with round-to-nearest-even, taken from the standard
    library's [SpecFloat]; unsigned integers are [Z] with the wrap-around
    written out. *)

From Stdlib Require Import ZArith Lia Bool String.
From Stdlib Require Import Floats.SpecFloat.
From stdpp Require Import base list.

Local Open Scope Z_scope.

(** ** Machine integers *)

Module UInt.

Definition wrap (bits : Z) (z : Z) : Z := z mod 2 ^ bits.

(** [uint32_t], [uint64_t] and, on the 64-bit targets the tool is
    built for, [size_t]. *)
Definition u32 (z : Z) : Z := wrap 32 z.
Definition u64 (z : Z) : Z := wrap 64 z.
Definition usize (z : Z) : Z := wrap 64 z.

Definition in_u64 (z : Z) : Prop := 0 <= z < 2 ^ 64.

End UInt.

(** ** Doubles *)

Module Double.

Definition prec : Z := 53.
Definition emax : Z := 1024.

Definition double : Type := spec_float.

Definition mul : double -> double -> double := SFmul prec emax.
Definition div : double -> double -> double := SFdiv prec emax.
Definition add : double -> double -> double := SFadd prec emax.

(** [static_cast<double>(n)] for an integer [n]: the nearest double,
    ties to even. *)
Definition of_int (n : Z) : double := binary_normalize prec emax n 0 false.

Definition zero : double := S754_zero false.

(** The literal [1e9]. *)
Definition lit_1e9 : double := of_int 1000000000.

Definition is_finite (x : double) : bool :=
  match x with
  | S754_zero _ | S754_finite _ _ _ => true
  | S754_infinity _ | S754_nan => false
  end.

(** [x <= y] and [0 <= x] as C++ evaluates them: false on NaN. *)
Definition leb : double -> double -> bool := SFleb.
Definition nonneg (x : double) : bool := leb zero x.

End Double.

Import Double.

(** ** Data model *)

(** Modelled from the spec: the access pattern of common.h, sequential
    or random. *)
Inductive pattern_mode_t := SEQUENTIAL | RANDOM.

(** Modelled from the spec: the read/write mode of common.h. *)
Inductive rw_mode_t := READ | WRITE.

(** Modelled from the spec: the chunk size of common.h, an enumeration
    whose values the spec does not list; kept as the enumerator's integer
    value. *)
Definition chunk_size_t : Type := Z.

(** The kernel function pointer type of benchmark_kernels.h; a pointer is
    kept as its address. *)
Definition SequentialFunction : Type := Z.

(** Modelled from the spec: the constant [MB] of common.h, 1,048,576. *)
Definition MB : Z := 1048576.

(** The fields of the [Benchmark] base object that [_run_core] reads or
    writes, in a build without USE_SIZE_BASED_BENCHMARKS.  [_mem_array]
    is the buffer's address, [_len] a [size_t], the counts and node ids
    are [uint32_t], [_stride_size] an [int64_t], [_metricOnIter] a vector
    of doubles. *)
Record Benchmark := {
  _mem_array : Z;
  _len : Z;
  _iterations : Z;
  _num_worker_threads : Z;
  _mem_node : Z;
  _cpu_node : Z;
  _pattern_mode : pattern_mode_t;
  _rw_mode : rw_mode_t;
  _chunk_size : chunk_size_t;
  _stride_size : Z;
  _name : string;
  _metricOnIter : list double;
  _averageMetric : double;
  _hasRun : bool
}.

(** The object with its result fields replaced. *)
Definition with_results (b : Benchmark)
    (metrics : list double) (average : double) (has_run : bool) : Benchmark :=
  {| _mem_array := _mem_array b; _len := _len b; _iterations := _iterations b;
     _num_worker_threads := _num_worker_threads b; _mem_node := _mem_node b;
     _cpu_node := _cpu_node b; _pattern_mode := _pattern_mode b;
     _rw_mode := _rw_mode b; _chunk_size := _chunk_size b;
     _stride_size := _stride_size b; _name := _name b;
     _metricOnIter := metrics; _averageMetric := average; _hasRun := has_run |}.

Definition set_metricOnIter (b : Benchmark) (i : nat) (x : double) : Benchmark :=
  with_results b (<[i := x]> (_metricOnIter b)) (_averageMetric b) (_hasRun b).

Definition set_averageMetric (b : Benchmark) (x : double) : Benchmark :=
  with_results b (_metricOnIter b) x (_hasRun b).

Definition set_hasRun (b : Benchmark) (x : bool) : Benchmark :=
  with_results b (_metricOnIter b) (_averageMetric b) x.

(** The arguments a [ThroughputBenchmarkWorker] is constructed with. *)
Record ThroughputBenchmarkWorker := {
  w_mem_array : Z;
  w_len : Z;
  w_kernel : SequentialFunction;
  w_kernel_dummy : SequentialFunction;
  w_cpu_id : Z
}.

(** What a worker's getters return once its thread has been joined.  The
    integer getters are kept as [Z]; the routine converts what they
    return to [uint64_t]. *)
Record Counters := {
  getBytesPerPass : Z;
  getPasses : Z;
  getAdjustedTicks : Z;
  getElapsedDummyTicks : Z;
  hadWarning : bool
}.

Inductive getter :=
  BytesPerPass | Passes | AdjustedTicks | ElapsedDummyTicks | HadWarning.

(** The collaborators of [_run_core], none of which is part of the
    routine: the verbosity flag, the kernel table (answering with the
    kernel and its dummy, or with nothing), the power readers (whether
    starting and stopping them succeeds), the NUMA topology (the logical
    CPU id, an [int32_t], of an index in a node), the timer, and the
    worker threads themselves: whether the join of the thread built in
    iteration [i] for index [t] succeeds, and what the counters of its
    worker are when they are read. *)
Record World := {
  g_verbose : bool;
  determineSequentialKernel :
    rw_mode_t -> chunk_size_t -> Z ->
    option (SequentialFunction * SequentialFunction);
  _start_power_threads : bool;
  _stop_power_threads : bool;
  cpu_id_in_numa_node : Z -> Z -> Z;
  get_ns_per_tick : double;
  join : nat -> nat -> bool;
  counters : nat -> nat -> ThroughputBenchmarkWorker -> Counters
}.

(** ** Observable actions *)

Inductive item :=
| Str (s : string)
| Int (z : Z)
| Dbl (d : double)
| Endl.

Inductive event :=
| Cout (l : list item)
| Cerr (l : list item)
| ReportBenchmarkInfo
| StartPowerThreads
| StopPowerThreads
| NewWorker (i t : nat) (w : ThroughputBenchmarkWorker)
| NewThread (i t : nat)
| CreateAndStart (i t : nat)
| Join (i t : nat)
| Get (i t : nat) (g : getter)
| DeleteThread (i t : nat)
| DeleteWorker (i t : nat).

(** ** Computations that log their actions

    A computation yields the actions it performed and a value.  Where it
    comes to an operation whose behaviour C++ leaves undefined (a
    division by zero, an index outside a vector) it yields the actions up
    to that operation and no value: the model does not follow the run
    beyond it, and says nothing about what the built program does from
    there on. *)

Definition Run (A : Type) : Type := list event * option A.

Definition run_ret {A} (a : A) : Run A := ([], Some a).

Definition run_bind {A B} (f : A -> Run B) (m : Run A) : Run B :=
  match m with
  | (tr, None) => (tr, None)
  | (tr, Some a) => let '(tr', r) := f a in (tr ++ tr', r)
  end.

#[export] Instance Run_ret : MRet Run := @run_ret.
#[export] Instance Run_bind : MBind Run := @run_bind.

Definition emit (e : event) : Run unit := ([e], Some tt).
Definition undefined {A} : Run A := ([], None).
Definition when (c : bool) (m : Run unit) : Run unit :=
  if c then m else mret tt.

(** [v[t]] on a vector. *)
Definition at_ {A} (v : list A) (t : nat) : Run A :=
  match v !! t with
  | Some x => mret x
  | None => undefined
  end.

(** [for (uint32_t t = from; t < from + count; t++) body], threading the
    locals the body updates. *)
Fixpoint for_ {L} (count from : nat) (body : nat -> L -> Run L) (l : L) : Run L :=
  match count with
  | O => mret l
  | S k => l' ← body from l; for_ k (S from) body l'
  end.

Definition for_upto {L} (n : Z) (body : nat -> L -> Run L) (l : L) : Run L :=
  for_ (Z.to_nat n) 0 body l.

(** ** The routine *)

Local Open Scope string_scope.
Local Open Scope Z_scope.
Local Open Scope list_scope.

(** Lines 108-115. *)
Definition start_power (w : World) : Run unit :=
  when (g_verbose w) (emit (Cout [Str "Starting power measurement threads..."]));;
  emit StartPowerThreads;;
  if negb (_start_power_threads w) then
    when (g_verbose w) (emit (Cout [Str "FAIL"; Endl]));;
    emit (Cerr [Str "WARNING: Failed to start power measurement threads."; Endl])
  else when (g_verbose w) (emit (Cout [Str "done"; Endl])).

(** Lines 207-214. *)
Definition stop_power (w : World) : Run unit :=
  when (g_verbose w) (emit (Cout [Str "Stopping power measurement threads..."]));;
  emit StopPowerThreads;;
  if negb (_stop_power_threads w) then
    when (g_verbose w) (emit (Cout [Str "FAIL"; Endl]));;
    emit (Cerr [Str "WARNING: Failed to stop power measurement threads."; Endl])
  else when (g_verbose w) (emit (Cout [Str "done"; Endl])).

Section RunCore.

Variable w : World.

(** Pieces of the verbose report that are printed three times over. *)
Definition warning_mark (iter_warning : bool) : Run unit :=
  when iter_warning (emit (Cout [Str " -- WARNING"])).

(** Lines 130-147: build the workers and their threads.  The locals are
    the two vectors [workers] and [worker_threads]; a thread is kept as
    the worker it runs.  A pointer is kept as its 64-bit address: the
    product of line 131 is a [size_t] and the pointer addition is the
    machine's, modulo 2^64. *)
Definition create_workers (b : Benchmark)
    (kernel_fptr kernel_dummy_fptr : SequentialFunction)
    (len_per_thread : Z) (i : nat) :
    Run (list ThroughputBenchmarkWorker * list ThroughputBenchmarkWorker) :=
  for_upto (_num_worker_threads b)
    (fun t '(workers, worker_threads) =>
       let thread_mem_array :=
         UInt.usize (_mem_array b + UInt.usize (Z.of_nat t * len_per_thread)) in
       let cpu_id := cpu_id_in_numa_node w (_cpu_node b) (Z.of_nat t) in
       when (cpu_id <? 0)
         (emit (Cerr [Str "WARNING: Failed to find logical CPU ";
                      Int (Z.of_nat t); Str " in NUMA node ";
                      Int (_cpu_node b); Endl]));;
       let worker :=
         {| w_mem_array := thread_mem_array;
            w_len := len_per_thread;
            w_kernel := kernel_fptr;
            w_kernel_dummy := kernel_dummy_fptr;
            w_cpu_id := cpu_id |} in
       emit (NewWorker i t worker);;
       let workers := workers ++ [worker] in
       target ← at_ workers t;
       emit (NewThread i t);;
       mret (workers, worker_threads ++ [target]))
    ([], []).

(** Lines 150-151. *)
Definition start_workers (b : Benchmark) (i : nat)
    (worker_threads : list ThroughputBenchmarkWorker) : Run unit :=
  for_upto (_num_worker_threads b)
    (fun t _ => _ ← at_ worker_threads t; emit (CreateAndStart i t)) tt.

(** Lines 154-156. *)
Definition join_workers (b : Benchmark) (i : nat)
    (worker_threads : list ThroughputBenchmarkWorker) : Run unit :=
  for_upto (_num_worker_threads b)
    (fun t _ =>
       _ ← at_ worker_threads t;
       emit (Join i t);;
       when (negb (join w i t))
         (emit (Cerr [Str "WARNING: A worker thread failed to complete by the expected time!";
                      Endl])))
    tt.

(** The locals of lines 159-170. *)
Record Totals := {
  total_passes : Z;
  total_adjusted_ticks : Z;
  total_elapsed_dummy_ticks : Z;
  iter_warning : bool
}.

(** Lines 165-170. *)
Definition sum_counters (b : Benchmark) (i : nat)
    (workers : list ThroughputBenchmarkWorker) : Run Totals :=
  for_upto (_num_worker_threads b)
    (fun t acc =>
       worker ← at_ workers t;
       let c := counters w i t worker in
       emit (Get i t Passes);;
       emit (Get i t AdjustedTicks);;
       emit (Get i t ElapsedDummyTicks);;
       emit (Get i t HadWarning);;
       mret {| total_passes := UInt.u64 (total_passes acc + getPasses c);
               total_adjusted_ticks :=
                 UInt.u64 (total_adjusted_ticks acc + getAdjustedTicks c);
               total_elapsed_dummy_ticks :=
                 UInt.u64 (total_elapsed_dummy_ticks acc + getElapsedDummyTicks c);
               iter_warning := iter_warning acc || hadWarning c |})
    {| total_passes := 0; total_adjusted_ticks := 0;
       total_elapsed_dummy_ticks := 0; iter_warning := false |}.

(** Lines 174-190. *)
Definition report_iteration (b : Benchmark) (i : nat)
    (tot : Totals) (bytes_per_pass : Z) : Run unit :=
  let n := _num_worker_threads b in
  let ns (ticks : Z) := mul (of_int ticks) (get_ns_per_tick w) in
  emit (Cout [Str "Iter "; Int (UInt.u32 (Z.of_nat i + 1)); Str " had ";
              Int (total_passes tot); Str " passes in total across ";
              Int n; Str " threads, with "; Int bytes_per_pass;
              Str " bytes touched per pass:"]);;
  warning_mark (iter_warning tot);;
  emit (Cout [Endl]);;
  emit (Cout [Str "...clock ticks in total across "; Int n;
              Str " threads == "; Int (total_adjusted_ticks tot);
              Str " (adjusted by -"; Int (total_elapsed_dummy_ticks tot);
              Str ")"]);;
  warning_mark (iter_warning tot);;
  emit (Cout [Endl]);;
  emit (Cout [Str "...ns in total across "; Int n; Str " threads == ";
              Dbl (ns (total_adjusted_ticks tot));
              Str " (adjusted by -";
              Dbl (ns (total_elapsed_dummy_ticks tot)); Str ")"]);;
  warning_mark (iter_warning tot);;
  emit (Cout [Endl]);;
  emit (Cout [Str "...sec in total across "; Int n; Str " threads == ";
              Dbl (div (ns (total_adjusted_ticks tot)) lit_1e9);
              Str " (adjusted by -";
              Dbl (div (ns (total_elapsed_dummy_ticks tot)) lit_1e9);
              Str ")"]);;
  warning_mark (iter_warning tot);;
  emit (Cout [Endl]).

(** Line 193, the right-hand side. *)
Definition metric (total_passes bytes_per_pass avg_adjusted_ticks : Z) : double :=
  div (div (mul (of_int total_passes) (of_int bytes_per_pass)) (of_int MB))
      (div (mul (of_int avg_adjusted_ticks) (get_ns_per_tick w)) lit_1e9).

(** Lines 198-203. *)
Definition delete_workers (b : Benchmark) (i : nat)
    (workers worker_threads : list ThroughputBenchmarkWorker) : Run unit :=
  for_upto (_num_worker_threads b)
    (fun t _ =>
       _ ← at_ worker_threads t;
       emit (DeleteThread i t);;
       _ ← at_ workers t;
       emit (DeleteWorker i t))
    tt.

(** Lines 127-203, the body of the iteration loop.  Both vectors are
    empty when the loop is entered and are cleared at the end of every
    iteration, so every iteration starts from empty vectors.  The
    [operator[]] of line 193 does not check its index: a store outside
    the metric vector is undefined, and the run is followed up to it. *)
Definition iteration (kernel_fptr kernel_dummy_fptr : SequentialFunction)
    (len_per_thread : Z) (i : nat) (b : Benchmark) : Run Benchmark :=
  '(workers, worker_threads) ←
    create_workers b kernel_fptr kernel_dummy_fptr len_per_thread i;
  start_workers b i worker_threads;;
  join_workers b i worker_threads;;
  worker0 ← at_ workers 0;
  emit (Get i 0 BytesPerPass);;
  let bytes_per_pass := UInt.u64 (getBytesPerPass (counters w i 0 worker0)) in
  tot ← sum_counters b i workers;
  avg_adjusted_ticks ←
    (if _num_worker_threads b =? 0 then undefined
     else mret (total_adjusted_ticks tot / _num_worker_threads b));
  when (g_verbose w) (report_iteration b i tot bytes_per_pass);;
  b ← (if decide (i < length (_metricOnIter b))%nat
       then mret (set_metricOnIter b i
                    (metric (total_passes tot) bytes_per_pass avg_adjusted_ticks))
       else undefined);
  stored ← at_ (_metricOnIter b) i;
  let b := set_averageMetric b (add (_averageMetric b) stored) in
  delete_workers b i workers worker_threads;;
  mret b.

(** Lines 85-221. *)
Definition _run_core (b : Benchmark) : Run (bool * Benchmark) :=
  emit (Cout [Endl]);;
  emit (Cout [Str "-------- Running Benchmark: "; Str (_name b)]);;
  emit (Cout [Str " ----------"; Endl]);;
  emit ReportBenchmarkInfo;;
  match determineSequentialKernel w (_rw_mode b) (_chunk_size b) (_stride_size b) with
  | None =>
      emit (Cerr [Str "WARNING: Failed to find appropriate benchmark kernel."; Endl]);;
      mret (false, b)
  | Some (kernel_fptr, kernel_dummy_fptr) =>
      start_power w;;
      len_per_thread ←
        (if _num_worker_threads b =? 0 then undefined
         else mret (_len b / _num_worker_threads b));
      when (g_verbose w) (emit (Cout [Str "Running benchmark."; Endl; Endl]));;
      b ← for_upto (_iterations b)
            (iteration kernel_fptr kernel_dummy_fptr len_per_thread) b;
      stop_power w;;
      let b := set_averageMetric b
                 (div (_averageMetric b) (of_int (_iterations b))) in
      let b := set_hasRun b true in
      mret (true, b)
  end.

End RunCore.

(** * Machine integers *)

Lemma u64_range z : UInt.in_u64 (UInt.u64 z).
Proof.
  unfold UInt.in_u64, UInt.u64, UInt.wrap. apply Z.mod_pos_bound. lia.
Qed.

Lemma u64_small z : UInt.in_u64 z -> UInt.u64 z = z.
Proof.
  unfold UInt.in_u64, UInt.u64, UInt.wrap. intros H.
  apply Z.mod_small. exact H.
Qed.

Lemma usize_small z : UInt.in_u64 z -> UInt.usize z = z.
Proof. exact (u64_small z). Qed.

(** * Doubles in the normal range

    Bounds on the exponents of conversions, products and quotients, enough
    to tell when the results are finite. *)

(** ** Digits *)

Lemma digits2_pos_bounds (p : positive) :
  2 ^ (Zpos (digits2_pos p) - 1) <= Zpos p < 2 ^ Zpos (digits2_pos p).
Proof.
  induction p as [p IH|p IH|]; cbn [digits2_pos].
  - rewrite Pos2Z.inj_succ.
    replace (Z.succ (Zpos (digits2_pos p)) - 1) with (Z.succ (Zpos (digits2_pos p) - 1)) by lia.
    rewrite !Z.pow_succ_r by lia. lia.
  - rewrite Pos2Z.inj_succ.
    replace (Z.succ (Zpos (digits2_pos p)) - 1) with (Z.succ (Zpos (digits2_pos p) - 1)) by lia.
    rewrite !Z.pow_succ_r by lia. lia.
  - cbn. lia.
Qed.

Lemma digits2_pos_unique (p : positive) (d : Z) :
  2 ^ (d - 1) <= Zpos p < 2 ^ d -> Zpos (digits2_pos p) = d.
Proof.
  intros [Hlo Hhi].
  pose proof (digits2_pos_bounds p) as [Hlo' Hhi'].
  assert (Hd : 0 < d).
  { destruct (Z.lt_trichotomy d 0) as [H|[H|H]]; [| |exact H].
    - rewrite Z.pow_neg_r in Hhi by lia. lia.
    - subst d. cbn in Hhi. lia. }
  destruct (Z.lt_trichotomy (Zpos (digits2_pos p)) d) as [H|[H|H]]; [|exact H|].
  - assert (2 ^ Zpos (digits2_pos p) <= 2 ^ (d - 1))
      by (apply Z.pow_le_mono_r; lia). lia.
  - assert (2 ^ d <= 2 ^ (Zpos (digits2_pos p) - 1))
      by (apply Z.pow_le_mono_r; lia). lia.
Qed.

(** ** Shifting right *)

Lemma shr_1_m (mrs : shr_record) :
  0 <= shr_m mrs -> shr_m (shr_1 mrs) = shr_m mrs / 2.
Proof.
  destruct mrs as [m r s]. cbn [shr_m]. intros Hm.
  destruct m as [|[p|p|]|p]; cbn [shr_1 shr_m]; try lia; try reflexivity.
  - apply (Z.div_unique_pos _ 2 _ 1); lia.
  - apply (Z.div_unique_pos _ 2 _ 0); lia.
Qed.

Lemma shr_iter_m (p : positive) (mrs : shr_record) :
  0 <= shr_m mrs ->
  shr_m (SpecFloat.iter_pos shr_1 p mrs) = shr_m mrs / 2 ^ Zpos p.
Proof.
  revert mrs.
  induction p as [p IH|p IH|]; intros mrs Hm; cbn [SpecFloat.iter_pos].
  - assert (H1 : 0 <= shr_m (shr_1 mrs))
      by (rewrite shr_1_m by exact Hm; apply Z.div_pos; lia).
    assert (H2 : 0 <= shr_m (SpecFloat.iter_pos shr_1 p (shr_1 mrs)))
      by (rewrite IH by exact H1; apply Z.div_pos; lia).
    rewrite IH, IH, shr_1_m by assumption.
    rewrite !Z.div_div by lia. f_equal.
    rewrite Pos2Z.inj_xI.
    replace (2 * Zpos p + 1) with (1 + Zpos p + Zpos p) by lia.
    rewrite !Z.pow_add_r by lia. change (2 ^ 1) with 2. ring.
  - assert (H1 : 0 <= shr_m (SpecFloat.iter_pos shr_1 p mrs))
      by (rewrite IH by exact Hm; apply Z.div_pos; lia).
    rewrite IH, IH by assumption.
    rewrite Z.div_div by lia. f_equal.
    change (Zpos p~0) with (2 * Zpos p).
    replace (2 * Zpos p) with (Zpos p + Zpos p) by lia.
    rewrite Z.pow_add_r by lia. reflexivity.
  - rewrite shr_1_m by exact Hm. reflexivity.
Qed.

Lemma shr_record_of_loc_m (m : Z) (l : location) :
  shr_m (shr_record_of_loc m l) = m.
Proof. destruct l as [|[]]; reflexivity. Qed.

Lemma shr_spec (mrs : shr_record) (e n : Z) :
  0 <= shr_m mrs -> 0 <= n ->
  shr_m (fst (shr mrs e n)) = shr_m mrs / 2 ^ n /\ snd (shr mrs e n) = e + n.
Proof.
  intros Hm Hn. destruct n as [|p|p]; cbn [shr fst snd].
  - rewrite Z.pow_0_r, Z.div_1_r. lia.
  - split; [apply shr_iter_m; exact Hm | reflexivity].
  - lia.
Qed.

Lemma shr_fexp_spec (m e : Z) (l : location) :
  0 <= m -> e <= fexp prec emax (Zdigits2 m + e) ->
  shr_m (fst (shr_fexp prec emax m e l))
  = m / 2 ^ (fexp prec emax (Zdigits2 m + e) - e)
  /\ snd (shr_fexp prec emax m e l) = fexp prec emax (Zdigits2 m + e).
Proof.
  intros Hm He. unfold shr_fexp.
  destruct (shr_spec (shr_record_of_loc m l) e
              (fexp prec emax (Zdigits2 m + e) - e)) as [H1 H2].
  - rewrite shr_record_of_loc_m. exact Hm.
  - lia.
  - rewrite H1, H2, shr_record_of_loc_m. split; [reflexivity | lia].
Qed.

Lemma round_nearest_even_bounds (m : Z) (l : location) :
  m <= round_nearest_even m l <= m + 1.
Proof.
  destruct l as [|[]]; cbn [round_nearest_even]; try lia.
  destruct (Z.even m); lia.
Qed.

Lemma fexp_normal (x : Z) : -1074 <= x - 53 -> fexp prec emax x = x - 53.
Proof. intros H. unfold fexp, emin, prec, emax. lia. Qed.

(** Rounding a mantissa of at least 53 bits whose value lies in the range
    of the normal doubles gives a normal double of the same sign, with the
    exponent its magnitude dictates or, when rounding carries, the next
    one. *)
Lemma binary_round_aux_normal (s : bool) (p : positive) (e : Z) (l : location) :
  let d := Zpos (digits2_pos p) in
  53 <= d -> -1074 <= d + e - 53 -> d + e - 52 <= 971 ->
  exists m' e',
    binary_round_aux prec emax s (Zpos p) e l = S754_finite s m' e'
    /\ Zpos (digits2_pos m') = 53
    /\ d + e - 53 <= e' <= d + e - 52.
Proof.
  intros d Hd Hlo Hhi.
  pose proof (digits2_pos_bounds p) as [Hp1 Hp2]. fold d in Hp1, Hp2.
  unfold binary_round_aux.
  destruct (shr_fexp prec emax (Z.pos p) e l) as [mrs1 e1] eqn:H1.
  destruct (shr_fexp_spec (Z.pos p) e l) as [Hm1 He1].
  { lia. }
  { cbn [Zdigits2]. fold d. rewrite fexp_normal by lia. lia. }
  rewrite H1 in Hm1, He1. cbn [fst snd Zdigits2] in Hm1, He1. fold d in Hm1, He1.
  rewrite fexp_normal in Hm1, He1 by lia.
  replace (d + e - 53 - e) with (d - 53) in Hm1 by lia.
  assert (Hpow : 2 ^ d = 2 ^ (d - 53) * 2 ^ 53)
    by (rewrite <- Z.pow_add_r by lia; f_equal; lia).
  assert (Hpow' : 2 ^ (d - 1) = 2 ^ (d - 53) * 2 ^ 52)
    by (rewrite <- Z.pow_add_r by lia; f_equal; lia).
  assert (Hpos : 0 < 2 ^ (d - 53)) by (apply Z.pow_pos_nonneg; lia).
  assert (Hm1lo : 2 ^ 52 <= shr_m mrs1).
  { rewrite Hm1. apply Z.div_le_lower_bound; lia. }
  assert (Hm1hi : shr_m mrs1 < 2 ^ 53).
  { rewrite Hm1. apply Z.div_lt_upper_bound; lia. }
  pose proof (round_nearest_even_bounds (shr_m mrs1) (loc_of_shr_record mrs1))
    as [Hr1 Hr2].
  set (m2 := round_nearest_even (shr_m mrs1) (loc_of_shr_record mrs1)) in *.
  destruct m2 as [|p2|p2] eqn:Hm2; try lia.
  destruct (shr_fexp prec emax (Z.pos p2) e1 loc_Exact) as [mrs2 e2] eqn:H2.
  destruct (Z.eq_dec (Z.pos p2) (2 ^ 53)) as [Hcarry|Hcarry].
  - assert (Hd2 : Zpos (digits2_pos p2) = 54).
    { apply digits2_pos_unique. rewrite Hcarry. cbn. lia. }
    destruct (shr_fexp_spec (Z.pos p2) e1 loc_Exact) as [Hm2' He2].
    { lia. }
    { cbn [Zdigits2]. rewrite Hd2, fexp_normal by lia. lia. }
    rewrite H2 in Hm2', He2. cbn [fst snd Zdigits2] in Hm2', He2.
    rewrite Hd2, fexp_normal in Hm2', He2 by lia.
    replace (54 + e1 - 53 - e1) with 1 in Hm2' by lia.
    rewrite Hcarry in Hm2'. change (2 ^ 53 / 2 ^ 1) with (Zpos (2 ^ 52)) in Hm2'.
    rewrite Hm2'.
    assert (Hle : (e2 <=? emax - prec) = true)
      by (apply Z.leb_le; unfold emax, prec; lia).
    rewrite Hle. exists (2 ^ 52)%positive, e2.
    split; [reflexivity|]. split; [reflexivity | lia].
  - assert (Hd2 : Zpos (digits2_pos p2) = 53).
    { apply digits2_pos_unique. change (53 - 1) with 52. lia. }
    destruct (shr_fexp_spec (Z.pos p2) e1 loc_Exact) as [Hm2' He2].
    { lia. }
    { cbn [Zdigits2]. rewrite Hd2, fexp_normal by lia. lia. }
    rewrite H2 in Hm2', He2. cbn [fst snd Zdigits2] in Hm2', He2.
    rewrite Hd2, fexp_normal in Hm2', He2 by lia.
    replace (53 + e1 - 53 - e1) with 0 in Hm2' by lia.
    rewrite Z.pow_0_r, Z.div_1_r in Hm2'.
    rewrite Hm2'.
    assert (Hle : (e2 <=? emax - prec) = true)
      by (apply Z.leb_le; unfold emax, prec; lia).
    rewrite Hle. exists p2, e2.
    split; [reflexivity|]. split; [exact Hd2 | lia].
Qed.

(** ** Normal doubles *)

(** A positive normal double whose exponent field lies between [lo] and
    [hi]: a value in the interval from [2^(lo+52)] to [2^(hi+53)]. *)
Definition normal (lo hi : Z) (x : double) : Prop :=
  exists m e,
    x = S754_finite false m e /\ Zpos (digits2_pos m) = 53 /\ lo <= e <= hi.

Lemma normal_weaken lo hi lo' hi' x :
  lo' <= lo -> hi <= hi' -> normal lo hi x -> normal lo' hi' x.
Proof.
  intros Hlo Hhi (m & e & -> & Hd & He). exists m, e.
  split; [reflexivity|]. split; [exact Hd | lia].
Qed.

Lemma iter_xO (p k : positive) : Zpos (Pos.iter xO p k) = Zpos p * 2 ^ Zpos k.
Proof.
  induction k as [|k IH] using Pos.peano_ind.
  - cbn [Pos.iter]. change (Zpos p~0) with (2 * Zpos p). lia.
  - rewrite Pos.iter_succ, Pos2Z.inj_succ, Z.pow_succ_r by lia.
    change (Zpos (Pos.iter xO p k)~0) with (2 * Zpos (Pos.iter xO p k)).
    rewrite IH. ring.
Qed.

Lemma mantissa_bounds (m : positive) :
  Zpos (digits2_pos m) = 53 -> 2 ^ 52 <= Zpos m < 2 ^ 53.
Proof.
  intros Hd. pose proof (digits2_pos_bounds m) as H. rewrite Hd in H. exact H.
Qed.

Lemma digits2_pos_between (p : positive) (a c : Z) :
  0 <= a -> 2 ^ a <= Zpos p < 2 ^ c -> a < Zpos (digits2_pos p) <= c.
Proof.
  intros Ha [Hlo Hhi]. pose proof (digits2_pos_bounds p) as [Hlo' Hhi'].
  split.
  - apply (Z.pow_lt_mono_r_iff 2); lia.
  - assert (Zpos (digits2_pos p) - 1 < c); [|lia].
    apply (Z.pow_lt_mono_r_iff 2); [lia | | lia].
    destruct (Z.le_gt_cases 0 c) as [Hc|Hc]; [exact Hc|].
    rewrite (Z.pow_neg_r 2 c) in Hhi by lia. lia.
Qed.

(** An unsigned 64-bit integer other than zero converts to a normal
    double. *)
Lemma of_int_normal (n : Z) : 1 <= n < 2 ^ 64 -> normal (-52) 12 (of_int n).
Proof.
  intros Hn. destruct n as [|p|p]; try lia.
  unfold of_int, binary_normalize, binary_round.
  pose proof (digits2_pos_bounds p) as [Hp1 Hp2].
  assert (Hd : 0 < Zpos (digits2_pos p) <= 64)
    by (apply digits2_pos_between; lia).
  set (d := Zpos (digits2_pos p)) in *.
  replace (d + 0) with d by lia.
  rewrite fexp_normal by lia.
  unfold shl_align.
  destruct (d - 53 - 0) as [|k|k] eqn:Hk.
  - destruct (binary_round_aux_normal false p 0 loc_Exact)
      as (m' & e' & Heq & Hd' & He'); fold d; try lia.
    rewrite Heq. exists m', e'. repeat split; try assumption; lia.
  - destruct (binary_round_aux_normal false p 0 loc_Exact)
      as (m' & e' & Heq & Hd' & He'); fold d; try lia.
    rewrite Heq. exists m', e'. repeat split; try assumption; lia.
  - assert (Hmz : Zpos (digits2_pos (Pos.iter xO p k)) = 53).
    { apply digits2_pos_unique. rewrite iter_xO.
      assert (Hk' : Zpos k = 53 - d) by lia. rewrite Hk'.
      assert (H52 : 2 ^ (53 - 1) = 2 ^ (d - 1) * 2 ^ (53 - d))
        by (rewrite <- Z.pow_add_r by lia; f_equal; lia).
      assert (H53 : 2 ^ 53 = 2 ^ d * 2 ^ (53 - d))
        by (rewrite <- Z.pow_add_r by lia; f_equal; lia).
      assert (0 < 2 ^ (53 - d)) by (apply Z.pow_pos_nonneg; lia).
      rewrite H52, H53. nia. }
    destruct (binary_round_aux_normal false (Pos.iter xO p k) (d - 53) loc_Exact)
      as (m' & e' & Heq & Hd' & He'); rewrite ?Hmz; try lia.
    rewrite Heq. exists m', e'. rewrite Hmz in He'.
    repeat split; try assumption; lia.
Qed.

(** The product of two normal doubles is normal when its magnitude is in
    range. *)
Lemma mul_normal (a c a' c' : Z) (x y : double) :
  normal a c x -> normal a' c' y ->
  -1074 <= a + a' + 52 -> c + c' + 54 <= 971 ->
  normal (a + a' + 52) (c + c' + 54) (mul x y).
Proof.
  intros (m1 & e1 & -> & Hd1 & He1) (m2 & e2 & -> & Hd2 & He2) Hlo Hhi.
  pose proof (mantissa_bounds m1 Hd1) as Hm1.
  pose proof (mantissa_bounds m2 Hd2) as Hm2.
  unfold mul, SFmul. cbn [xorb].
  assert (Hd : 104 < Zpos (digits2_pos (m1 * m2)) <= 106).
  { apply digits2_pos_between; [lia|]. rewrite Pos2Z.inj_mul.
    change (2 ^ 104) with (2 ^ 52 * 2 ^ 52).
    change (2 ^ 106) with (2 ^ 53 * 2 ^ 53). nia. }
  destruct (binary_round_aux_normal false (m1 * m2) (e1 + e2) loc_Exact)
    as (m' & e' & Heq & Hd' & He'); try lia.
  rewrite Heq. exists m', e'. repeat split; try assumption; lia.
Qed.

Lemma div_core_normal (m1 m2 : positive) (e1 e2 : Z) :
  Zpos (digits2_pos m1) = 53 -> Zpos (digits2_pos m2) = 53 ->
  -1074 <= e1 - e2 - 53 ->
  exists l,
    SFdiv_core_binary prec emax (Zpos m1) e1 (Zpos m2) e2
    = (Zpos m1 * 2 ^ 53 / Zpos m2, e1 - e2 - 53, l).
Proof.
  intros Hd1 Hd2 Hlo. unfold SFdiv_core_binary. cbn [Zdigits2].
  rewrite Hd1, Hd2.
  replace (53 + e1 - (53 + e2)) with (e1 - e2) by lia.
  rewrite fexp_normal by lia.
  rewrite Z.min_l by lia.
  replace (e1 - e2 - (e1 - e2 - 53)) with 53 by lia.
  cbv zeta iota.
  rewrite Z.shiftl_mul_pow2 by lia.
  unfold Z.div.
  destruct (Z.div_eucl (Zpos m1 * 2 ^ 53) (Zpos m2)) as [q r].
  eexists. reflexivity.
Qed.

(** The quotient of two normal doubles is normal when its magnitude is in
    range. *)
Lemma div_normal (a c a' c' : Z) (x y : double) :
  normal a c x -> normal a' c' y ->
  -1074 <= a - c' - 53 -> c - a' - 51 <= 971 ->
  normal (a - c' - 53) (c - a' - 51) (div x y).
Proof.
  intros (m1 & e1 & -> & Hd1 & He1) (m2 & e2 & -> & Hd2 & He2) Hlo Hhi.
  pose proof (mantissa_bounds m1 Hd1) as Hm1.
  pose proof (mantissa_bounds m2 Hd2) as Hm2.
  unfold div, SFdiv. cbn [xorb].
  destruct (div_core_normal m1 m2 e1 e2 Hd1 Hd2 ltac:(lia)) as [l Hcore].
  rewrite Hcore.
  assert (Hq : 2 ^ 52 <= Zpos m1 * 2 ^ 53 / Zpos m2 < 2 ^ 54).
  { split.
    - apply Z.div_le_lower_bound; [lia|]. nia.
    - apply Z.div_lt_upper_bound; [lia|].
      change (2 ^ 54) with (2 * 2 ^ 53). nia. }
  destruct (Zpos m1 * 2 ^ 53 / Zpos m2) as [|q|q] eqn:Hquot; try lia.
  assert (Hd : 52 < Zpos (digits2_pos q) <= 54)
    by (apply digits2_pos_between; lia).
  destruct (binary_round_aux_normal false q (e1 - e2 - 53) l)
    as (m' & e' & Heq & Hd' & He'); try lia.
  rewrite Heq. exists m', e'. repeat split; try assumption; lia.
Qed.

(** * Reasoning about logged computations *)

Lemma bind_defined {A B} (m : Run A) (f : A -> Run B) tr a :
  m = (tr, Some a) -> m ≫= f = (tr ++ fst (f a), snd (f a)).
Proof.
  intros ->. unfold mbind, Run_bind, run_bind.
  destruct (f a); reflexivity.
Qed.

Lemma bind_undefined {A B} (m : Run A) (f : A -> Run B) tr :
  m = (tr, None) -> m ≫= f = (tr, None).
Proof. intros ->. reflexivity. Qed.

Lemma bind_emit {B} (e : event) (f : unit -> Run B) :
  emit e ≫= f = (e :: fst (f tt), snd (f tt)).
Proof. apply (bind_defined (emit e) f [e] tt). reflexivity. Qed.

Lemma bind_ret {A B} (a : A) (f : A -> Run B) : mret a ≫= f = f a.
Proof.
  rewrite (bind_defined (mret a) f [] a) by reflexivity.
  destruct (f a); reflexivity.
Qed.

Lemma bind_value {A B} (m : Run A) (f : A -> Run B) :
  snd (m ≫= f) = match snd m with Some a => snd (f a) | None => None end.
Proof.
  destruct m as [tr [a|]].
  - rewrite (bind_defined _ f tr a) by reflexivity. reflexivity.
  - reflexivity.
Qed.

Lemma bind_trace {A B} (m : Run A) (f : A -> Run B) :
  fst (m ≫= f) = fst m ++ match snd m with Some a => fst (f a) | None => [] end.
Proof.
  destruct m as [tr [a|]].
  - rewrite (bind_defined _ f tr a) by reflexivity. reflexivity.
  - simpl. rewrite app_nil_r. reflexivity.
Qed.

Lemma at_defined {A} (v : list A) (t : nat) (x : A) :
  v !! t = Some x -> at_ v t = mret x.
Proof. unfold at_. intros ->. reflexivity. Qed.

(** Runs through leading [emit]s and [mret]s. *)
Ltac run_steps :=
  repeat first [ rewrite bind_emit | rewrite bind_ret
               | progress cbn [fst snd app] ].

(** A loop whose body, under an invariant [P] of the loop counter and the
    locals, performs the actions [tr t] and updates the locals by
    [step t]. *)
Lemma for_closed {L} (P : nat -> L -> Prop)
    (tr : nat -> list event) (step : nat -> L -> L)
    (body : nat -> L -> Run L) (count from : nat) :
  (forall t l, (from <= t < from + count)%nat -> P t l ->
     body t l = (tr t, Some (step t l)) /\ P (S t) (step t l)) ->
  forall l, P from l ->
    for_ count from body l
    = (flat_map tr (seq from count),
       Some (fold_left (fun l t => step t l) (seq from count) l))
    /\ P (from + count)%nat (fold_left (fun l t => step t l) (seq from count) l).
Proof.
  revert from.
  induction count as [|count IH]; intros from Hbody l HP.
  - simpl. rewrite Nat.add_0_r. split; [reflexivity | exact HP].
  - destruct (Hbody from l ltac:(lia) HP) as [Hrun HP1].
    destruct (IH (S from)) with (l := step from l) as [Heq HP'].
    + intros t l' Ht. apply Hbody. lia.
    + exact HP1.
    + cbn [for_ seq flat_map fold_left].
      rewrite (bind_defined _ _ _ _ Hrun), Heq.
      replace (from + S count)%nat with (S from + count)%nat by lia.
      split; [reflexivity | exact HP'].
Qed.

(** * What the phases of an iteration do *)

Section Phases.

Variable w : World.
Variable b : Benchmark.
Variables kernel_fptr kernel_dummy_fptr : SequentialFunction.
Variable len_per_thread : Z.
Variable i : nat.

Let n : nat := Z.to_nat (_num_worker_threads b).

(** The worker built for index [t]. *)
Definition worker_of (t : nat) : ThroughputBenchmarkWorker :=
  {| w_mem_array :=
       UInt.usize (_mem_array b + UInt.usize (Z.of_nat t * len_per_thread));
     w_len := len_per_thread;
     w_kernel := kernel_fptr;
     w_kernel_dummy := kernel_dummy_fptr;
     w_cpu_id := cpu_id_in_numa_node w (_cpu_node b) (Z.of_nat t) |}.

Definition workers_of : list ThroughputBenchmarkWorker :=
  map worker_of (seq 0 n).

Definition affinity_warning (t : nat) : event :=
  Cerr [Str "WARNING: Failed to find logical CPU "; Int (Z.of_nat t);
        Str " in NUMA node "; Int (_cpu_node b); Endl].

Definition create_actions (t : nat) : list event :=
  (if cpu_id_in_numa_node w (_cpu_node b) (Z.of_nat t) <? 0
   then [affinity_warning t] else [])
  ++ [NewWorker i t (worker_of t); NewThread i t].

Definition join_warning : event :=
  Cerr [Str "WARNING: A worker thread failed to complete by the expected time!";
        Endl].

Definition join_actions (t : nat) : list event :=
  Join i t :: (if join w i t then [] else [join_warning]).

Definition get_actions (t : nat) : list event :=
  [Get i t Passes; Get i t AdjustedTicks; Get i t ElapsedDummyTicks;
   Get i t HadWarning].

(** The counters of the worker built for index [t], as read after the
    joins. *)
Definition counters_of (t : nat) : Counters := counters w i t (worker_of t).

Definition add_counters (t : nat) (acc : Totals) : Totals :=
  {| total_passes := UInt.u64 (total_passes acc + getPasses (counters_of t));
     total_adjusted_ticks :=
       UInt.u64 (total_adjusted_ticks acc + getAdjustedTicks (counters_of t));
     total_elapsed_dummy_ticks :=
       UInt.u64 (total_elapsed_dummy_ticks acc
                 + getElapsedDummyTicks (counters_of t));
     iter_warning := iter_warning acc || hadWarning (counters_of t) |}.

Definition totals_of : Totals :=
  fold_left (fun acc t => add_counters t acc) (seq 0 n)
    {| total_passes := 0; total_adjusted_ticks := 0;
       total_elapsed_dummy_ticks := 0; iter_warning := false |}.

Lemma workers_of_length : length workers_of = n.
Proof. unfold workers_of. rewrite length_map, length_seq. reflexivity. Qed.

Lemma workers_of_lookup t :
  (t < n)%nat -> workers_of !! t = Some (worker_of t).
Proof.
  intros Ht. unfold workers_of.
  rewrite list_lookup_fmap, lookup_seq_lt by exact Ht. reflexivity.
Qed.

Lemma create_workers_closed :
  create_workers w b kernel_fptr kernel_dummy_fptr len_per_thread i
  = (flat_map create_actions (seq 0 n), Some (workers_of, workers_of)).
Proof.
  unfold create_workers, for_upto. fold n.
  set (P := fun (t : nat)
                (l : list ThroughputBenchmarkWorker * list ThroughputBenchmarkWorker) =>
              l = (map worker_of (seq 0 t), map worker_of (seq 0 t))).
  set (step := fun (t : nat)
                   (l : list ThroughputBenchmarkWorker * list ThroughputBenchmarkWorker) =>
                 (fst l ++ [worker_of t], snd l ++ [worker_of t])).
  match goal with
  | |- for_ _ _ ?body _ = _ =>
      destruct (for_closed P create_actions step body n 0) with
        (l := (@nil ThroughputBenchmarkWorker, @nil ThroughputBenchmarkWorker))
        as [Heq HP]
  end.
  - intros t [ws ths] _ HP. unfold P in HP. injection HP as -> ->.
    unfold create_actions, step, P. cbn [fst snd].
    assert (Hat : at_ (map worker_of (seq 0 t) ++ [worker_of t]) t
                  = mret (worker_of t)).
    { apply at_defined, list_lookup_middle.
      rewrite length_map, length_seq. reflexivity. }
    fold (worker_of t). unfold when.
    rewrite seq_S, map_app.
    destruct (cpu_id_in_numa_node w (_cpu_node b) (Z.of_nat t) <? 0);
      run_steps; rewrite Hat; run_steps; split; reflexivity.
  - reflexivity.
  - rewrite Heq. unfold P in HP. rewrite HP. reflexivity.
Qed.

Lemma start_workers_closed :
  start_workers b i workers_of = (map (CreateAndStart i) (seq 0 n), Some tt).
Proof.
  unfold start_workers, for_upto. fold n.
  match goal with
  | |- for_ _ _ ?body _ = _ =>
      destruct (for_closed (fun _ _ => True)
                  (fun t => [CreateAndStart i t]) (fun _ _ => tt) body n 0)
        with (l := tt) as [Heq _]
  end.
  - intros t [] Ht _. split; [|exact I].
    rewrite (at_defined _ _ _ (workers_of_lookup t ltac:(lia))).
    run_steps. reflexivity.
  - exact I.
  - rewrite Heq.
    assert (Hmap : forall l, flat_map (fun t => [CreateAndStart i t]) l
                             = map (CreateAndStart i) l).
    { intros l. induction l; simpl; congruence. }
    rewrite Hmap. destruct (fold_left _ _ _). reflexivity.
Qed.

Lemma join_workers_closed :
  join_workers w b i workers_of = (flat_map join_actions (seq 0 n), Some tt).
Proof.
  unfold join_workers, for_upto. fold n.
  match goal with
  | |- for_ _ _ ?body _ = _ =>
      destruct (for_closed (fun _ _ => True) join_actions (fun _ _ => tt) body n 0)
        with (l := tt) as [Heq _]
  end.
  - intros t [] Ht _. split; [|exact I].
    rewrite (at_defined _ _ _ (workers_of_lookup t ltac:(lia))).
    unfold join_actions, when, join_warning.
    destruct (join w i t); run_steps; reflexivity.
  - exact I.
  - rewrite Heq. do 2 f_equal. destruct (fold_left _ _ _). reflexivity.
Qed.

Lemma sum_counters_closed :
  sum_counters w b i workers_of = (flat_map get_actions (seq 0 n), Some totals_of).
Proof.
  unfold sum_counters, for_upto. fold n.
  match goal with
  | |- for_ _ _ ?body ?l0 = _ =>
      destruct (for_closed (fun _ _ => True) get_actions add_counters body n 0)
        with (l := l0) as [Heq _]
  end.
  - intros t acc Ht _. split; [|exact I].
    rewrite (at_defined _ _ _ (workers_of_lookup t ltac:(lia))).
    run_steps. reflexivity.
  - exact I.
  - rewrite Heq. reflexivity.
Qed.

Definition delete_actions (t : nat) : list event :=
  [DeleteThread i t; DeleteWorker i t].

Lemma delete_workers_closed (b' : Benchmark) :
  _num_worker_threads b' = _num_worker_threads b ->
  delete_workers b' i workers_of workers_of
  = (flat_map delete_actions (seq 0 n), Some tt).
Proof.
  intros Hn. unfold delete_workers, for_upto. rewrite Hn. fold n.
  match goal with
  | |- for_ _ _ ?body _ = _ =>
      destruct (for_closed (fun _ _ => True) delete_actions (fun _ _ => tt) body n 0)
        with (l := tt) as [Heq _]
  end.
  - intros t [] Ht _. split; [|exact I].
    rewrite (at_defined _ _ _ (workers_of_lookup t ltac:(lia))).
    run_steps. reflexivity.
  - exact I.
  - rewrite Heq. do 2 f_equal. destruct (fold_left _ _ _). reflexivity.
Qed.

Definition bytes_per_pass_of : Z :=
  UInt.u64 (getBytesPerPass (counters_of 0)).

Definition avg_adjusted_ticks_of : Z :=
  total_adjusted_ticks totals_of / _num_worker_threads b.

(** The metric of the iteration. *)
Definition metric_of : double :=
  metric w (total_passes totals_of) bytes_per_pass_of avg_adjusted_ticks_of.

Definition report_actions : list event :=
  fst (when (g_verbose w) (report_iteration w b i totals_of bytes_per_pass_of)).

(** The actions of an iteration up to the point where the metric is
    stored. *)
Definition measure_actions : list event :=
  flat_map create_actions (seq 0 n)
  ++ map (CreateAndStart i) (seq 0 n)
  ++ flat_map join_actions (seq 0 n)
  ++ Get i 0 BytesPerPass :: flat_map get_actions (seq 0 n)
  ++ report_actions.

Lemma warning_mark_defined c :
  warning_mark c = (fst (warning_mark c), Some tt).
Proof. destruct c; reflexivity. Qed.

Lemma report_defined tot bpp :
  snd (when (g_verbose w) (report_iteration w b i tot bpp)) = Some tt.
Proof.
  unfold when. destruct (g_verbose w); [|reflexivity].
  unfold report_iteration.
  repeat first
    [ rewrite bind_emit; cbn [fst snd]
    | rewrite (bind_defined _ _ _ _ (warning_mark_defined _)); cbn [fst snd] ].
  reflexivity.
Qed.

Hypothesis some_worker : 0 < _num_worker_threads b.

(** Everything up to the store is defined; whether the store is depends
    on the length of [_metricOnIter]. *)
Lemma iteration_closed :
  iteration w kernel_fptr kernel_dummy_fptr len_per_thread i b
  = if decide (i < length (_metricOnIter b))%nat then
      (measure_actions ++ flat_map delete_actions (seq 0 n),
       Some (with_results b (<[i := metric_of]> (_metricOnIter b))
               (add (_averageMetric b) metric_of) (_hasRun b)))
    else (measure_actions, None).
Proof.
  assert (Hn : (0 < n)%nat) by (unfold n; lia).
  unfold iteration, measure_actions.
  rewrite (bind_defined _ _ _ _ create_workers_closed). cbn [fst snd].
  rewrite (bind_defined _ _ _ _ start_workers_closed). cbn [fst snd].
  rewrite (bind_defined _ _ _ _ join_workers_closed). cbn [fst snd].
  rewrite (at_defined _ _ _ (workers_of_lookup 0 Hn)), bind_ret, bind_emit.
  cbn [fst snd].
  rewrite (bind_defined _ _ _ _ sum_counters_closed). cbn [fst snd].
  destruct (_num_worker_threads b =? 0) eqn:Hz; [lia|].
  rewrite bind_ret.
  fold counters_of bytes_per_pass_of avg_adjusted_ticks_of.
  pose proof (report_defined totals_of bytes_per_pass_of) as Hrep.
  rewrite (bind_defined _ _ report_actions tt)
    by (unfold report_actions; rewrite <- Hrep; apply surjective_pairing).
  cbn [fst snd].
  destruct (decide (i < length (_metricOnIter b))%nat) as [Hi|Hi].
  - rewrite bind_ret.
    rewrite (at_defined _ i metric_of)
      by (apply (list_lookup_insert_eq (_metricOnIter b)); exact Hi).
    rewrite bind_ret.
    rewrite (bind_defined _ _ _ _ (delete_workers_closed _ eq_refl)).
    cbn [fst snd mret Run_ret run_ret].
    rewrite app_nil_r. rewrite <- !app_assoc. cbn [app].
    rewrite <- !app_assoc. reflexivity.
  - cbn [fst snd]. rewrite app_nil_r. reflexivity.
Qed.

End Phases.

(** * What the routine does *)

Section Routine.

Variable w : World.
Variable b : Benchmark.
Variables kernel_fptr kernel_dummy_fptr : SequentialFunction.

Let n : nat := Z.to_nat (_num_worker_threads b).
Let len_per_thread : Z := _len b / _num_worker_threads b.

(** The metric of iteration [i]. *)
Definition metric_at (i : nat) : double :=
  metric_of w b kernel_fptr kernel_dummy_fptr len_per_thread i.

Definition iteration_actions (i : nat) : list event :=
  measure_actions w b kernel_fptr kernel_dummy_fptr len_per_thread i
  ++ flat_map (delete_actions i) (seq 0 n).

(** The metric vector and the running sum after the iterations [iters]. *)
Definition store_metrics (iters : list nat) (metrics : list double) : list double :=
  fold_left (fun l i => <[i := metric_at i]> l) iters metrics.

Definition sum_metrics (iters : list nat) (average : double) : double :=
  fold_left (fun a i => add a (metric_at i)) iters average.

Lemma with_results_id :
  with_results b (_metricOnIter b) (_averageMetric b) (_hasRun b) = b.
Proof. destruct b. reflexivity. Qed.

Definition header : list event :=
  [Cout [Endl];
   Cout [Str "-------- Running Benchmark: "; Str (_name b)];
   Cout [Str " ----------"; Endl];
   ReportBenchmarkInfo].

Definition kernel_warning : event :=
  Cerr [Str "WARNING: Failed to find appropriate benchmark kernel."; Endl].

Definition running_notice : list event :=
  if g_verbose w then [Cout [Str "Running benchmark."; Endl; Endl]] else [].

Lemma start_power_defined : start_power w = (fst (start_power w), Some tt).
Proof.
  unfold start_power, when.
  destruct (g_verbose w), (_start_power_threads w); reflexivity.
Qed.

Lemma stop_power_defined : stop_power w = (fst (stop_power w), Some tt).
Proof.
  unfold stop_power, when.
  destruct (g_verbose w), (_stop_power_threads w); reflexivity.
Qed.

Lemma run_core_no_kernel :
  determineSequentialKernel w (_rw_mode b) (_chunk_size b) (_stride_size b)
  = None ->
  _run_core w b = (header ++ [kernel_warning], Some (false, b)).
Proof. intros Hk. unfold _run_core. rewrite Hk. reflexivity. Qed.

Lemma run_core_no_worker :
  determineSequentialKernel w (_rw_mode b) (_chunk_size b) (_stride_size b)
  = Some (kernel_fptr, kernel_dummy_fptr) ->
  _num_worker_threads b = 0 ->
  _run_core w b = (header ++ fst (start_power w), None).
Proof.
  intros Hk Hn. unfold _run_core. rewrite Hk, Hn.
  run_steps. rewrite (bind_defined _ _ _ _ start_power_defined).
  cbn [fst snd Z.eqb]. rewrite (bind_undefined _ _ []) by reflexivity.
  rewrite app_nil_r. reflexivity.
Qed.

(** With a kernel and a worker count other than zero, the routine runs
    the iteration loop and, if that is defined, finishes. *)
Lemma run_core_loop :
  determineSequentialKernel w (_rw_mode b) (_chunk_size b) (_stride_size b)
  = Some (kernel_fptr, kernel_dummy_fptr) ->
  _num_worker_threads b <> 0 ->
  _run_core w b
  = let loop := for_upto (_iterations b)
                  (iteration w kernel_fptr kernel_dummy_fptr len_per_thread) b in
    match snd loop with
    | Some b' =>
        (header ++ fst (start_power w) ++ running_notice ++ fst loop
         ++ fst (stop_power w),
         Some (true,
               with_results b' (_metricOnIter b')
                 (div (_averageMetric b') (of_int (_iterations b'))) true))
    | None =>
        (header ++ fst (start_power w) ++ running_notice ++ fst loop, None)
    end.
Proof.
  intros Hk Hn. unfold _run_core. rewrite Hk.
  run_steps. rewrite (bind_defined _ _ _ _ start_power_defined).
  destruct (_num_worker_threads b =? 0) eqn:Hz; [lia|].
  rewrite bind_ret. fold len_per_thread.
  cbv zeta.
  assert (Hrun : when (g_verbose w)
                   (emit (Cout [Str "Running benchmark."; Endl; Endl]))
                 = (running_notice, Some tt)).
  { unfold running_notice, when. destruct (g_verbose w); reflexivity. }
  rewrite (bind_defined _ _ _ _ Hrun).
  destruct (for_upto (_iterations b)
              (iteration w kernel_fptr kernel_dummy_fptr len_per_thread) b)
    as [tr [b'|]] eqn:Hloop.
  - rewrite (bind_defined _ _ tr b') by reflexivity.
    rewrite (bind_defined _ _ _ _ stop_power_defined).
    cbn [fst snd mret Run_ret run_ret app].
    rewrite app_nil_r. reflexivity.
  - rewrite (bind_undefined _ _ tr) by reflexivity.
    cbn [fst snd app]. reflexivity.
Qed.

Hypothesis some_worker : 0 < _num_worker_threads b.

Lemma iterations_closed (count from : nat) metrics average has_run :
  (from + count <= length metrics)%nat ->
  for_ count from (iteration w kernel_fptr kernel_dummy_fptr len_per_thread)
    (with_results b metrics average has_run)
  = (flat_map iteration_actions (seq from count),
     Some (with_results b (store_metrics (seq from count) metrics)
             (sum_metrics (seq from count) average) has_run)).
Proof.
  revert from metrics average.
  induction count as [|count IH]; intros from metrics average Hlen.
  - reflexivity.
  - cbn [for_ seq flat_map].
    pose proof (iteration_closed w (with_results b metrics average has_run)
                  kernel_fptr kernel_dummy_fptr len_per_thread from
                  some_worker) as Hit.
    cbn [_metricOnIter with_results] in Hit.
    destruct (decide (from < length metrics)%nat) as [Hi|Hi]; [|lia].
    assert (Hit' :
      iteration w kernel_fptr kernel_dummy_fptr len_per_thread from
        (with_results b metrics average has_run)
      = (iteration_actions from,
         Some (with_results b (<[from := metric_at from]> metrics)
                 (add average (metric_at from)) has_run)))
      by exact Hit.
    rewrite (bind_defined _ _ _ _ Hit').
    rewrite IH by (rewrite length_insert; lia).
    reflexivity.
Qed.

(** The loop stops, undefined, at the first iteration whose index is
    outside the metric vector. *)
Lemma iterations_undefined (count from : nat) metrics average has_run :
  (0 < count)%nat ->
  (length metrics < from + count)%nat ->
  let j := Nat.max from (length metrics) in
  for_ count from (iteration w kernel_fptr kernel_dummy_fptr len_per_thread)
    (with_results b metrics average has_run)
  = (flat_map iteration_actions (seq from (j - from))
     ++ measure_actions w b kernel_fptr kernel_dummy_fptr len_per_thread j,
     None).
Proof.
  revert from metrics average.
  induction count as [|count IH]; intros from metrics average Hpos Hlen j; [lia|].
  cbn [for_].
  pose proof (iteration_closed w (with_results b metrics average has_run)
                kernel_fptr kernel_dummy_fptr len_per_thread from
                some_worker) as Hit.
  cbn [_metricOnIter with_results] in Hit.
  destruct (decide (from < length metrics)%nat) as [Hi|Hi].
  - assert (Hit' :
      iteration w kernel_fptr kernel_dummy_fptr len_per_thread from
        (with_results b metrics average has_run)
      = (iteration_actions from,
         Some (with_results b (<[from := metric_at from]> metrics)
                 (add average (metric_at from)) has_run)))
      by exact Hit.
    rewrite (bind_defined _ _ _ _ Hit').
    rewrite IH by (rewrite ?length_insert; lia).
    rewrite length_insert. cbn [fst snd].
    replace (Nat.max (S from) (length metrics)) with j by lia.
    replace (j - from)%nat with (S (j - S from)) by lia.
    cbn [seq flat_map]. rewrite <- app_assoc. reflexivity.
  - assert (Hit' :
      iteration w kernel_fptr kernel_dummy_fptr len_per_thread from
        (with_results b metrics average has_run)
      = (measure_actions w b kernel_fptr kernel_dummy_fptr len_per_thread from,
         None))
      by exact Hit.
    rewrite (bind_undefined _ _ _ Hit').
    replace j with from by lia.
    rewrite Nat.sub_diag. reflexivity.
Qed.

Definition iterations : nat := Z.to_nat (_iterations b).

Definition final_metrics : list double :=
  store_metrics (seq 0 iterations) (_metricOnIter b).

Definition final_average : double :=
  div (sum_metrics (seq 0 iterations) (_averageMetric b))
      (of_int (_iterations b)).

Hypothesis kernel_found :
  determineSequentialKernel w (_rw_mode b) (_chunk_size b) (_stride_size b)
  = Some (kernel_fptr, kernel_dummy_fptr).

(** The whole run when the metric vector has a slot for every
    iteration. *)
Lemma run_core_defined :
  (iterations <= length (_metricOnIter b))%nat ->
  _run_core w b
  = (header ++ fst (start_power w) ++ running_notice
     ++ flat_map iteration_actions (seq 0 iterations)
     ++ fst (stop_power w),
     Some (true, with_results b final_metrics final_average true)).
Proof.
  intros Hlen.
  rewrite (run_core_loop kernel_found) by lia.
  pose proof (iterations_closed iterations 0 (_metricOnIter b)
                (_averageMetric b) (_hasRun b) Hlen) as Hloop.
  rewrite with_results_id in Hloop.
  unfold for_upto. fold iterations. rewrite Hloop.
  reflexivity.
Qed.

(** The run when it does not. *)
Lemma run_core_undefined :
  (length (_metricOnIter b) < iterations)%nat ->
  _run_core w b
  = (header ++ fst (start_power w) ++ running_notice
     ++ flat_map iteration_actions (seq 0 (length (_metricOnIter b)))
     ++ measure_actions w b kernel_fptr kernel_dummy_fptr len_per_thread
          (length (_metricOnIter b)),
     None).
Proof.
  intros Hlen.
  rewrite (run_core_loop kernel_found) by lia.
  pose proof (iterations_undefined iterations 0 (_metricOnIter b)
                (_averageMetric b) (_hasRun b) ltac:(lia) Hlen) as Hloop.
  rewrite with_results_id in Hloop.
  unfold for_upto. fold iterations. rewrite Hloop.
  cbn [fst snd]. rewrite Nat.max_0_l, Nat.sub_0_r. reflexivity.
Qed.

End Routine.

(** * Sums and the metric vector *)

(** The sum of [f 0], ..., [f (n - 1)]. *)
Definition sum_over (n : nat) (f : nat -> Z) : Z :=
  fold_right Z.add 0 (map f (seq 0 n)).

Lemma sum_over_S n f : sum_over (S n) f = sum_over n f + f n.
Proof.
  unfold sum_over. rewrite seq_S, map_app, fold_right_app.
  cbn [map fold_right Nat.add].
  generalize (map f (seq 0 n)). intros l.
  induction l as [|x l IH]; cbn [fold_right]; lia.
Qed.

Section Sums.

Variable w : World.
Variable b : Benchmark.
Variables kernel_fptr kernel_dummy_fptr : SequentialFunction.
Variable len_per_thread : Z.
Variable i : nat.

Let c (t : nat) : Counters :=
  counters_of w b kernel_fptr kernel_dummy_fptr len_per_thread i t.

Let totals (n : nat) : Totals :=
  fold_left
    (fun acc t =>
       add_counters w b kernel_fptr kernel_dummy_fptr len_per_thread i t acc)
    (seq 0 n)
    {| total_passes := 0; total_adjusted_ticks := 0;
       total_elapsed_dummy_ticks := 0; iter_warning := false |}.

(** Adding up in a 64-bit variable gives the sum modulo 2^64. *)
Lemma totals_sums n :
  total_passes (totals n) = UInt.u64 (sum_over n (fun t => getPasses (c t)))
  /\ total_adjusted_ticks (totals n)
     = UInt.u64 (sum_over n (fun t => getAdjustedTicks (c t)))
  /\ total_elapsed_dummy_ticks (totals n)
     = UInt.u64 (sum_over n (fun t => getElapsedDummyTicks (c t))).
Proof.
  induction n as [|n (IH1 & IH2 & IH3)].
  - repeat split.
  - unfold totals. rewrite seq_S, fold_left_app. fold (totals n).
    cbn [fold_left add_counters total_passes total_adjusted_ticks
         total_elapsed_dummy_ticks].
    rewrite IH1, IH2, IH3, !sum_over_S. fold (c n).
    unfold UInt.u64, UInt.wrap.
    rewrite !Zplus_mod_idemp_l. repeat split.
Qed.

End Sums.

Section Metrics.

Variable w : World.
Variable b : Benchmark.
Variables kernel_fptr kernel_dummy_fptr : SequentialFunction.

Let metric_at' := metric_at w b kernel_fptr kernel_dummy_fptr.
Let store := store_metrics w b kernel_fptr kernel_dummy_fptr.
Let sum := sum_metrics w b kernel_fptr kernel_dummy_fptr.

Lemma store_metrics_S m metrics :
  store (seq 0 (S m)) metrics = <[m := metric_at' m]> (store (seq 0 m) metrics).
Proof.
  unfold store, store_metrics. rewrite seq_S, fold_left_app. reflexivity.
Qed.

Lemma store_metrics_length m metrics :
  length (store (seq 0 m) metrics) = length metrics.
Proof.
  induction m as [|m IH]; [reflexivity|].
  rewrite store_metrics_S, length_insert. exact IH.
Qed.

(** Every iteration's slot holds that iteration's metric; later
    iterations do not touch it. *)
Lemma store_metrics_lookup m metrics j :
  (m <= length metrics)%nat -> (j < m)%nat ->
  store (seq 0 m) metrics !! j = Some (metric_at' j).
Proof.
  induction m as [|m IH]; intros Hlen Hj; [lia|].
  rewrite store_metrics_S.
  destruct (decide (j = m)) as [->|Hne].
  - apply list_lookup_insert_eq. rewrite store_metrics_length. lia.
  - rewrite list_lookup_insert_ne by congruence. apply IH; lia.
Qed.

Lemma store_metrics_take m metrics :
  (m <= length metrics)%nat ->
  take m (store (seq 0 m) metrics) = map metric_at' (seq 0 m).
Proof.
  intros Hlen. apply list_eq. intros j.
  destruct (decide (j < m)%nat) as [Hj|Hj].
  - rewrite lookup_take_lt by exact Hj.
    rewrite store_metrics_lookup by assumption.
    rewrite list_lookup_fmap, lookup_seq_lt by exact Hj. reflexivity.
  - rewrite lookup_take_ge by lia.
    symmetry. apply lookup_ge_None.
    rewrite length_map, length_seq. lia.
Qed.

Lemma sum_metrics_fold iters average :
  sum iters average = fold_left add (map metric_at' iters) average.
Proof.
  unfold sum, sum_metrics. revert average.
  induction iters as [|j iters IH]; intros average; [reflexivity|].
  cbn [fold_left map]. apply IH.
Qed.

End Metrics.

(** * Concrete runs

    The configuration of the specification's example: a buffer of
    1,048,576 bytes, four workers, each completing 100 passes of 64 bytes
    in 1,000,000 adjusted ticks, at one nanosecond per tick. *)

Module Example.

Definition the_counters : Counters :=
  {| getBytesPerPass := 64; getPasses := 100; getAdjustedTicks := 1000000;
     getElapsedDummyTicks := 5; hadWarning := false |}.

Definition world : World :=
  {| g_verbose := false;
     determineSequentialKernel := fun _ _ _ => Some (4198400, 4198912);
     _start_power_threads := true;
     _stop_power_threads := true;
     cpu_id_in_numa_node := fun _ t => t;
     get_ns_per_tick := of_int 1;
     join := fun _ _ => true;
     counters := fun _ _ _ => the_counters |}.

Definition benchmark : Benchmark :=
  {| _mem_array := 65536; _len := 1048576; _iterations := 2;
     _num_worker_threads := 4; _mem_node := 0; _cpu_node := 0;
     _pattern_mode := SEQUENTIAL; _rw_mode := READ; _chunk_size := 64;
     _stride_size := 1; _name := "Test";
     _metricOnIter := [zero; zero]; _averageMetric := zero;
     _hasRun := false |}.

(** A kernel table without an entry for the configuration. *)
Definition world_without_kernel : World :=
  {| g_verbose := true;
     determineSequentialKernel := fun _ _ _ => None;
     _start_power_threads := true;
     _stop_power_threads := true;
     cpu_id_in_numa_node := fun _ t => t;
     get_ns_per_tick := of_int 1;
     join := fun _ _ => true;
     counters := fun _ _ _ => the_counters |}.

(** A topology with two logical CPUs in the node: the lookup answers -1
    for every other index. *)
Definition world_two_cpus : World :=
  {| g_verbose := true;
     determineSequentialKernel := fun _ _ _ => Some (4198400, 4198912);
     _start_power_threads := true;
     _stop_power_threads := true;
     cpu_id_in_numa_node := fun _ t => if t <? 2 then t else -1;
     get_ns_per_tick := of_int 1;
     join := fun _ _ => true;
     counters := fun _ _ _ => the_counters |}.

(** A buffer shorter than the worker count. *)
Definition short_benchmark : Benchmark :=
  {| _mem_array := 65536; _len := 3; _iterations := 1;
     _num_worker_threads := 4; _mem_node := 0; _cpu_node := 0;
     _pattern_mode := SEQUENTIAL; _rw_mode := READ; _chunk_size := 64;
     _stride_size := 1; _name := "Test";
     _metricOnIter := [zero]; _averageMetric := zero;
     _hasRun := false |}.

(** Workers that complete their passes in no measurable time. *)
Definition instant_counters : Counters :=
  {| getBytesPerPass := 64; getPasses := 100; getAdjustedTicks := 0;
     getElapsedDummyTicks := 5; hadWarning := true |}.

Definition world_of_instant_workers : World :=
  {| g_verbose := false;
     determineSequentialKernel := fun _ _ _ => Some (4198400, 4198912);
     _start_power_threads := true;
     _stop_power_threads := true;
     cpu_id_in_numa_node := fun _ t => t;
     get_ns_per_tick := of_int 1;
     join := fun _ _ => true;
     counters := fun _ _ _ => instant_counters |}.

End Example.

(** * The properties *)

(** Actions other than output: calls into the power readers, the workers
    and the threads. *)
Definition is_work (e : event) : bool :=
  match e with
  | Cout _ | Cerr _ | ReportBenchmarkInfo => false
  | _ => true
  end.

(** C3: when no kernel matches the (read/write mode, chunk size, stride)
    triple, [_run_core] returns failure after printing its banner and the
    diagnostic and nothing else: it performs no action on a power reader,
    a worker or a thread, and so no iteration work. *)
Theorem C3_no_kernel_fails_before_any_work (w : World) (b : Benchmark) :
  determineSequentialKernel w (_rw_mode b) (_chunk_size b) (_stride_size b)
  = None ->
  snd (_run_core w b) = Some (false, b)
  /\ fst (_run_core w b) = header b ++ [kernel_warning]
  /\ Forall (fun e => is_work e = false) (fst (_run_core w b)).
Proof.
  intros Hk. rewrite (run_core_no_kernel w b Hk). cbn [fst snd].
  repeat split. repeat constructor.
Qed.

Lemma C3_witness :
  determineSequentialKernel Example.world_without_kernel
    (_rw_mode Example.benchmark) (_chunk_size Example.benchmark)
    (_stride_size Example.benchmark) = None
  /\ snd (_run_core Example.world_without_kernel Example.benchmark)
     = Some (false, Example.benchmark)
  /\ fst (_run_core Example.world_without_kernel Example.benchmark)
     = header Example.benchmark ++ [kernel_warning]
  /\ Forall (fun e => is_work e = false)
       (fst (_run_core Example.world_without_kernel Example.benchmark)).
Proof.
  split; [reflexivity|].
  apply (C3_no_kernel_fails_before_any_work
           Example.world_without_kernel Example.benchmark).
  reflexivity.
Defined.

(** The routine returns failure only when no kernel matches. *)
Lemma run_core_false (w : World) (b b' : Benchmark) :
  snd (_run_core w b) = Some (false, b') ->
  determineSequentialKernel w (_rw_mode b) (_chunk_size b) (_stride_size b)
  = None.
Proof.
  intros Hret.
  destruct (determineSequentialKernel w (_rw_mode b) (_chunk_size b)
              (_stride_size b)) as [[k kd]|] eqn:Hk; [exfalso|reflexivity].
  destruct (Z.eq_dec (_num_worker_threads b) 0) as [Hn|Hn].
  - rewrite (run_core_no_worker w b k kd Hk Hn) in Hret. discriminate.
  - rewrite (run_core_loop w b k kd Hk Hn) in Hret. cbv zeta in Hret.
    destruct (snd (for_upto _ _ _)); cbn [snd] in Hret; discriminate.
Qed.

(** C10: whenever [_run_core] returns failure, the object it returns is
    the object it was given: no slot of the metric vector is written, the
    average accumulator is unchanged and the has-run flag keeps its value
    (false on an object that has not run). *)
Theorem C10_failure_leaves_results (w : World) (b b' : Benchmark) :
  snd (_run_core w b) = Some (false, b') ->
  b' = b
  /\ _metricOnIter b' = _metricOnIter b
  /\ _averageMetric b' = _averageMetric b
  /\ _hasRun b' = _hasRun b.
Proof.
  intros Hret.
  pose proof (run_core_false w b b' Hret) as Hk.
  rewrite (run_core_no_kernel w b Hk) in Hret.
  injection Hret as <-. repeat split.
Qed.

Lemma C10_witness :
  snd (_run_core Example.world_without_kernel Example.benchmark)
  = Some (false, Example.benchmark)
  /\ Example.benchmark = Example.benchmark
  /\ _metricOnIter Example.benchmark = [zero; zero]
  /\ _averageMetric Example.benchmark = zero
  /\ _hasRun Example.benchmark = false.
Proof.
  split; [reflexivity|].
  apply (C10_failure_leaves_results
           Example.world_without_kernel Example.benchmark Example.benchmark).
  reflexivity.
Defined.

(** What a defined run leaves in the slot of iteration [i]. *)
Lemma stored_metric (w : World) (b : Benchmark)
    (kernel_fptr kernel_dummy_fptr : SequentialFunction) (i : nat) :
  determineSequentialKernel w (_rw_mode b) (_chunk_size b) (_stride_size b)
  = Some (kernel_fptr, kernel_dummy_fptr) ->
  0 < _num_worker_threads b ->
  (Z.to_nat (_iterations b) <= length (_metricOnIter b))%nat ->
  (i < Z.to_nat (_iterations b))%nat ->
  let num_workers := _num_worker_threads b in
  let worker t :=
    worker_of w b kernel_fptr kernel_dummy_fptr (_len b / num_workers) t in
  let total_passes :=
    UInt.u64 (sum_over (Z.to_nat num_workers)
                (fun t => getPasses (counters w i t (worker t)))) in
  let bytes_per_pass :=
    UInt.u64 (getBytesPerPass (counters w i 0 (worker 0%nat))) in
  let avg_adjusted_ticks :=
    UInt.u64 (sum_over (Z.to_nat num_workers)
                (fun t => getAdjustedTicks (counters w i t (worker t))))
    / num_workers in
  exists b',
    snd (_run_core w b) = Some (true, b')
    /\ _metricOnIter b' !! i
       = Some (metric w total_passes bytes_per_pass avg_adjusted_ticks).
Proof.
  intros Hk Hn Hlen Hi num_workers worker total_passes bytes_per_pass
    avg_adjusted_ticks.
  rewrite (run_core_defined w b kernel_fptr kernel_dummy_fptr Hn Hk Hlen).
  eexists. split; [reflexivity|].
  cbn [_metricOnIter with_results]. unfold final_metrics.
  rewrite store_metrics_lookup by (unfold iterations; assumption).
  unfold metric_at, metric_of, bytes_per_pass_of,
    avg_adjusted_ticks_of, totals_of.
  destruct (totals_sums w b kernel_fptr kernel_dummy_fptr
              (_len b / _num_worker_threads b) i
              (Z.to_nat (_num_worker_threads b))) as (Hp & Ht & _).
  rewrite Hp, Ht. reflexivity.
Qed.

(** C1: when the run is defined, the slot of iteration [i] holds
    (total_passes * bytes_per_pass / MB)
    / (avg_adjusted_ticks * ns_per_tick / 1e9), evaluated in doubles in
    that order, where total_passes is the sum of the workers' passes and
    avg_adjusted_ticks the sum of their adjusted ticks divided by the
    worker count with integer division, both sums as the 64-bit variables
    hold them, and bytes_per_pass is worker 0's.  With 400 passes in
    total, 64 bytes per pass, 1,000,000 ticks on average and one
    nanosecond per tick the slot holds 6871947673600000 * 2^-48, which is
    24.4140625. *)
Theorem C1_metric_formula (w : World) (b : Benchmark)
    (kernel_fptr kernel_dummy_fptr : SequentialFunction) (i : nat) :
  determineSequentialKernel w (_rw_mode b) (_chunk_size b) (_stride_size b)
  = Some (kernel_fptr, kernel_dummy_fptr) ->
  0 < _num_worker_threads b ->
  (Z.to_nat (_iterations b) <= length (_metricOnIter b))%nat ->
  (i < Z.to_nat (_iterations b))%nat ->
  let num_workers := _num_worker_threads b in
  let worker t :=
    worker_of w b kernel_fptr kernel_dummy_fptr (_len b / num_workers) t in
  let total_passes :=
    UInt.u64 (sum_over (Z.to_nat num_workers)
                (fun t => getPasses (counters w i t (worker t)))) in
  let bytes_per_pass :=
    UInt.u64 (getBytesPerPass (counters w i 0 (worker 0%nat))) in
  let avg_adjusted_ticks :=
    UInt.u64 (sum_over (Z.to_nat num_workers)
                (fun t => getAdjustedTicks (counters w i t (worker t))))
    / num_workers in
  let value :=
    div (div (mul (of_int total_passes) (of_int bytes_per_pass)) (of_int MB))
        (div (mul (of_int avg_adjusted_ticks) (get_ns_per_tick w)) lit_1e9) in
  (exists b', snd (_run_core w b) = Some (true, b')
              /\ _metricOnIter b' !! i = Some value)
  /\ (total_passes = 400 -> bytes_per_pass = 64 ->
      avg_adjusted_ticks = 1000000 -> get_ns_per_tick w = of_int 1 ->
      value = S754_finite false 6871947673600000 (-48)
      /\ leb (div (of_int 2441) (of_int 100)) value = true
      /\ leb value (div (of_int 2442) (of_int 100)) = true).
Proof.
  intros Hk Hn Hlen Hi num_workers worker total_passes bytes_per_pass
    avg_adjusted_ticks value.
  split.
  - exact (stored_metric w b kernel_fptr kernel_dummy_fptr i Hk Hn Hlen Hi).
  - intros Hp Hb Ha Hns. unfold value. rewrite Hp, Hb, Ha, Hns.
    vm_compute. repeat split.
Qed.

Lemma C1_witness :
  exists b',
    snd (_run_core Example.world Example.benchmark) = Some (true, b')
    /\ _metricOnIter b' !! 1%nat
       = Some (S754_finite false 6871947673600000 (-48)).
Proof.
  pose proof (C1_metric_formula Example.world Example.benchmark
                4198400 4198912 1%nat eq_refl eq_refl
                (le_n 2) (le_n 2)) as [Hrun _].
  exact Hrun.
Defined.

(** C6: when [_run_core] completes, the average it stores is the sum of
    the stored per-iteration metrics, accumulated in iteration order onto
    the accumulator's initial value (0 on a fresh object), divided by the
    iteration count: it is computed from the metric sequence as stored.
    The has-run flag is set. *)
Theorem C6_average_is_mean_of_stored (w : World) (b : Benchmark)
    (kernel_fptr kernel_dummy_fptr : SequentialFunction) :
  determineSequentialKernel w (_rw_mode b) (_chunk_size b) (_stride_size b)
  = Some (kernel_fptr, kernel_dummy_fptr) ->
  0 < _num_worker_threads b ->
  (Z.to_nat (_iterations b) <= length (_metricOnIter b))%nat ->
  _averageMetric b = zero ->
  exists b',
    snd (_run_core w b) = Some (true, b')
    /\ _averageMetric b'
       = div (fold_left add (take (Z.to_nat (_iterations b)) (_metricOnIter b'))
                zero)
             (of_int (_iterations b))
    /\ _hasRun b' = true.
Proof.
  intros Hk Hn Hlen Hzero.
  rewrite (run_core_defined w b kernel_fptr kernel_dummy_fptr Hn Hk Hlen).
  eexists. split; [reflexivity|].
  cbn [_averageMetric _metricOnIter _hasRun with_results].
  split; [|reflexivity].
  unfold final_average, final_metrics, iterations.
  rewrite store_metrics_take by exact Hlen.
  rewrite sum_metrics_fold, Hzero. reflexivity.
Qed.

Lemma C6_witness :
  exists b',
    snd (_run_core Example.world Example.benchmark) = Some (true, b')
    /\ _averageMetric b'
       = div (fold_left add (take 2 (_metricOnIter b')) zero) (of_int 2)
    /\ _hasRun b' = true.
Proof.
  exact (C6_average_is_mean_of_stored Example.world Example.benchmark
           4198400 4198912 eq_refl eq_refl (le_n 2) eq_refl).
Defined.

(** The world in which the power readers answer [started] and
    [stopped]. *)
Definition with_power (w : World) (started stopped : bool) : World :=
  {| g_verbose := g_verbose w;
     determineSequentialKernel := determineSequentialKernel w;
     _start_power_threads := started;
     _stop_power_threads := stopped;
     cpu_id_in_numa_node := cpu_id_in_numa_node w;
     get_ns_per_tick := get_ns_per_tick w;
     join := join w;
     counters := counters w |}.

Definition is_output (e : event) : bool :=
  match e with
  | Cout _ | Cerr _ => true
  | _ => false
  end.

(** The actions of a run other than what it prints. *)
Definition actions (tr : list event) : list event :=
  List.filter (fun e => negb (is_output e)) tr.

Definition start_power_warning : event :=
  Cerr [Str "WARNING: Failed to start power measurement threads."; Endl].

Definition stop_power_warning : event :=
  Cerr [Str "WARNING: Failed to stop power measurement threads."; Endl].

Lemma actions_app tr1 tr2 : actions (tr1 ++ tr2) = actions tr1 ++ actions tr2.
Proof. apply List.filter_app. Qed.

Lemma start_power_actions w : actions (fst (start_power w)) = [StartPowerThreads].
Proof.
  unfold start_power, when.
  destruct (g_verbose w), (_start_power_threads w); reflexivity.
Qed.

Lemma stop_power_actions w : actions (fst (stop_power w)) = [StopPowerThreads].
Proof.
  unfold stop_power, when.
  destruct (g_verbose w), (_stop_power_threads w); reflexivity.
Qed.

Lemma start_power_warns w :
  _start_power_threads w = false -> In start_power_warning (fst (start_power w)).
Proof.
  intros H. unfold start_power, when. rewrite H.
  destruct (g_verbose w); cbn; auto.
Qed.

Lemma stop_power_warns w :
  _stop_power_threads w = false -> In stop_power_warning (fst (stop_power w)).
Proof.
  intros H. unfold stop_power, when. rewrite H.
  destruct (g_verbose w); cbn; auto.
Qed.

(** Whatever the power readers answer when started and stopped, the
    result of [_run_core] (its boolean, the metrics and the average) and
    its actions other than output are the same; a failure to start is
    reported by a warning once a kernel has been found, a failure to stop
    whenever the run completes. *)
Lemma power_answers_unused (w : World) (b : Benchmark)
    (started stopped : bool) :
  let w' := with_power w started stopped in
  snd (_run_core w' b) = snd (_run_core w b)
  /\ actions (fst (_run_core w' b)) = actions (fst (_run_core w b))
  /\ (started = false ->
      determineSequentialKernel w (_rw_mode b) (_chunk_size b) (_stride_size b)
      <> None ->
      In start_power_warning (fst (_run_core w' b)))
  /\ (stopped = false ->
      forall b', snd (_run_core w' b) = Some (true, b') ->
      In stop_power_warning (fst (_run_core w' b))).
Proof.
  intros w'.
  destruct (determineSequentialKernel w (_rw_mode b) (_chunk_size b)
              (_stride_size b)) as [[k kd]|] eqn:Hk.
  - assert (Hk' : determineSequentialKernel w' (_rw_mode b) (_chunk_size b)
                    (_stride_size b) = Some (k, kd)) by exact Hk.
    destruct (Z.eq_dec (_num_worker_threads b) 0) as [Hn|Hn].
    + rewrite (run_core_no_worker w' b k kd Hk' Hn),
        (run_core_no_worker w b k kd Hk Hn).
      cbn [fst snd]. rewrite !actions_app, !start_power_actions.
      repeat split.
      * intros Hs _. apply in_or_app. right. apply start_power_warns. exact Hs.
      * discriminate.
    + rewrite (run_core_loop w' b k kd Hk' Hn), (run_core_loop w b k kd Hk Hn).
      cbv zeta.
      change (iteration w' k kd) with (iteration w k kd).
      change (running_notice w') with (running_notice w).
      destruct (for_upto (_iterations b)
                  (iteration w k kd (_len b / _num_worker_threads b)) b)
        as [tr [b1|]]; cbn [fst snd].
      * rewrite !actions_app, !start_power_actions, !stop_power_actions.
        repeat split.
        -- intros Hs _. apply in_or_app. right. apply in_or_app. left.
           apply start_power_warns. exact Hs.
        -- intros Hs _ _. rewrite !app_assoc. apply in_or_app. right.
           apply stop_power_warns. exact Hs.
      * rewrite !actions_app, !start_power_actions.
        repeat split.
        -- intros Hs _. apply in_or_app. right. apply in_or_app. left.
           apply start_power_warns. exact Hs.
        -- discriminate.
  - assert (Hk' : determineSequentialKernel w' (_rw_mode b) (_chunk_size b)
                    (_stride_size b) = None) by exact Hk.
    rewrite (run_core_no_kernel w' b Hk'), (run_core_no_kernel w b Hk).
    repeat split.
    + intros _ Hne. contradiction.
    + discriminate.
Qed.

(** ** Where the actions of an iteration occur in a run *)

Section Membership.

Variable w : World.
Variable b : Benchmark.
Variables kernel_fptr kernel_dummy_fptr : SequentialFunction.
Variable len_per_thread : Z.
Variable i : nat.

Let n : nat := Z.to_nat (_num_worker_threads b).
Let measure : list event :=
  measure_actions w b kernel_fptr kernel_dummy_fptr len_per_thread i.

Lemma create_in_measure t e :
  (t < n)%nat ->
  In e (create_actions w b kernel_fptr kernel_dummy_fptr len_per_thread i t) ->
  In e measure.
Proof.
  intros Ht He. unfold measure, measure_actions.
  apply in_or_app. left. apply in_flat_map.
  exists t. split; [apply in_seq; fold n; lia | exact He].
Qed.

Lemma start_in_measure t : (t < n)%nat -> In (CreateAndStart i t) measure.
Proof.
  intros Ht. unfold measure, measure_actions.
  apply in_or_app. right. apply in_or_app. left.
  apply in_map, in_seq. fold n. lia.
Qed.

Lemma join_in_measure t : (t < n)%nat -> In (Join i t) measure.
Proof.
  intros Ht. unfold measure, measure_actions.
  apply in_or_app. right. apply in_or_app. right. apply in_or_app. left.
  apply in_flat_map. exists t.
  split; [apply in_seq; fold n; lia | left; reflexivity].
Qed.

End Membership.

Lemma measure_in_run (w : World) (b : Benchmark)
    (kernel_fptr kernel_dummy_fptr : SequentialFunction) (i : nat) (e : event) :
  determineSequentialKernel w (_rw_mode b) (_chunk_size b) (_stride_size b)
  = Some (kernel_fptr, kernel_dummy_fptr) ->
  0 < _num_worker_threads b ->
  (Z.to_nat (_iterations b) <= length (_metricOnIter b))%nat ->
  (i < Z.to_nat (_iterations b))%nat ->
  In e (measure_actions w b kernel_fptr kernel_dummy_fptr
          (_len b / _num_worker_threads b) i) ->
  In e (fst (_run_core w b)).
Proof.
  intros Hk Hn Hlen Hi He.
  rewrite (run_core_defined w b kernel_fptr kernel_dummy_fptr Hn Hk Hlen).
  cbn [fst].
  apply in_or_app. right. apply in_or_app. right. apply in_or_app. right.
  apply in_or_app. left. apply in_flat_map.
  exists i. split; [apply in_seq; unfold iterations; lia|].
  unfold iteration_actions. apply in_or_app. left. exact He.
Qed.

(** C9: a worker index for which the topology lookup answers a negative
    CPU id gets its warning, and the worker is built with that id, gets
    its thread and is started like any other, in every iteration; the
    run returns success. *)
Theorem C9_missing_affinity_is_a_warning (w : World) (b : Benchmark)
    (kernel_fptr kernel_dummy_fptr : SequentialFunction) (i t : nat) :
  determineSequentialKernel w (_rw_mode b) (_chunk_size b) (_stride_size b)
  = Some (kernel_fptr, kernel_dummy_fptr) ->
  0 < _num_worker_threads b ->
  (Z.to_nat (_iterations b) <= length (_metricOnIter b))%nat ->
  (i < Z.to_nat (_iterations b))%nat ->
  (t < Z.to_nat (_num_worker_threads b))%nat ->
  cpu_id_in_numa_node w (_cpu_node b) (Z.of_nat t) < 0 ->
  let tr := fst (_run_core w b) in
  let worker :=
    worker_of w b kernel_fptr kernel_dummy_fptr
      (_len b / _num_worker_threads b) t in
  (exists b', snd (_run_core w b) = Some (true, b'))
  /\ In (affinity_warning b t) tr
  /\ In (NewWorker i t worker) tr
  /\ w_cpu_id worker = cpu_id_in_numa_node w (_cpu_node b) (Z.of_nat t)
  /\ In (NewThread i t) tr
  /\ In (CreateAndStart i t) tr.
Proof.
  intros Hk Hn Hlen Hi Ht Hcpu tr worker.
  assert (Hcreate : forall e,
             In e (create_actions w b kernel_fptr kernel_dummy_fptr
                     (_len b / _num_worker_threads b) i t) -> In e tr).
  { intros e He. apply (measure_in_run w b kernel_fptr kernel_dummy_fptr i e);
      try assumption.
    apply (create_in_measure w b kernel_fptr kernel_dummy_fptr _ i t e Ht He). }
  assert (Hneg : (cpu_id_in_numa_node w (_cpu_node b) (Z.of_nat t) <? 0) = true)
    by (apply Z.ltb_lt; exact Hcpu).
  split; [|repeat split].
  - rewrite (run_core_defined w b kernel_fptr kernel_dummy_fptr Hn Hk Hlen).
    eexists. reflexivity.
  - apply Hcreate. unfold create_actions. rewrite Hneg. left. reflexivity.
  - apply Hcreate. unfold create_actions. rewrite Hneg.
    right. left. reflexivity.
  - apply Hcreate. unfold create_actions. rewrite Hneg.
    right. right. left. reflexivity.
  - apply (measure_in_run w b kernel_fptr kernel_dummy_fptr i); try assumption.
    apply start_in_measure. exact Ht.
Qed.

Lemma C9_witness :
  let tr := fst (_run_core Example.world_two_cpus Example.benchmark) in
  let worker :=
    worker_of Example.world_two_cpus Example.benchmark 4198400 4198912
      (_len Example.benchmark / _num_worker_threads Example.benchmark) 3 in
  (exists b',
      snd (_run_core Example.world_two_cpus Example.benchmark) = Some (true, b'))
  /\ In (affinity_warning Example.benchmark 3) tr
  /\ In (NewWorker 1 3 worker) tr
  /\ w_cpu_id worker = -1
  /\ In (NewThread 1 3) tr
  /\ In (CreateAndStart 1 3) tr.
Proof.
  apply (C9_missing_affinity_is_a_warning
           Example.world_two_cpus Example.benchmark 4198400 4198912 1 3).
  - reflexivity.
  - reflexivity.
  - vm_compute. lia.
  - vm_compute. lia.
  - vm_compute. lia.
  - reflexivity.
Defined.

(** ** The shape of every run *)

Definition is_thread_action (e : event) : bool :=
  match e with
  | NewWorker _ _ _ | NewThread _ _ | CreateAndStart _ _ | Join _ _
  | Get _ _ _ => true
  | _ => false
  end.

Definition no_thread_action (tr : list event) : Prop :=
  Forall (fun e => is_thread_action e = false) tr.

Lemma no_thread_action_app tr1 tr2 :
  no_thread_action tr1 -> no_thread_action tr2 -> no_thread_action (tr1 ++ tr2).
Proof. apply Forall_app_2. Qed.

Lemma header_quiet b : no_thread_action (header b).
Proof. repeat constructor. Qed.

Lemma start_power_quiet w : no_thread_action (fst (start_power w)).
Proof.
  unfold start_power, when.
  destruct (g_verbose w), (_start_power_threads w); repeat constructor.
Qed.

Lemma stop_power_quiet w : no_thread_action (fst (stop_power w)).
Proof.
  unfold stop_power, when.
  destruct (g_verbose w), (_stop_power_threads w); repeat constructor.
Qed.

Lemma running_notice_quiet w : no_thread_action (running_notice w).
Proof. unfold running_notice. destruct (g_verbose w); repeat constructor. Qed.

Lemma report_actions_output w b k kd lpt i :
  Forall (fun e => is_output e = true) (report_actions w b k kd lpt i).
Proof.
  unfold report_actions, when. destruct (g_verbose w); [|constructor].
  unfold report_iteration, warning_mark, when.
  destruct (iter_warning (totals_of w b k kd lpt i)); cbn; repeat constructor.
Qed.

(** Without a worker an iteration stops, undefined, at [workers[0]]. *)
Lemma iteration_without_worker w b k kd lpt i :
  _num_worker_threads b <= 0 -> iteration w k kd lpt i b = ([], None).
Proof.
  intros Hn. unfold iteration, create_workers, start_workers, join_workers,
    for_upto.
  replace (Z.to_nat (_num_worker_threads b)) with 0%nat by lia.
  reflexivity.
Qed.

(** Every run consists of output and power-reader calls, a number of
    complete iterations, possibly the measuring part of one more, and
    output and power-reader calls again. *)
Lemma run_core_shape (w : World) (b : Benchmark) :
  exists k kd m A M B,
    fst (_run_core w b)
    = A ++ flat_map (iteration_actions w b k kd) (seq 0 m) ++ M ++ B
    /\ no_thread_action A /\ no_thread_action B
    /\ (M = [] \/
        M = measure_actions w b k kd (_len b / _num_worker_threads b) m)
    /\ (0 < _num_worker_threads b \/ (m = 0%nat /\ M = [])).
Proof.
  destruct (determineSequentialKernel w (_rw_mode b) (_chunk_size b)
              (_stride_size b)) as [[k kd]|] eqn:Hk.
  - destruct (Z.lt_trichotomy (_num_worker_threads b) 0) as [Hn|[Hn|Hn]].
    + exists k, kd, 0%nat,
        (header b ++ fst (start_power w) ++ running_notice w), [],
        (if decide (Z.to_nat (_iterations b) = 0%nat)
         then fst (stop_power w) else []).
      rewrite (run_core_loop w b k kd Hk) by lia. cbv zeta.
      unfold for_upto.
      destruct (Z.to_nat (_iterations b)) as [|count] eqn:Hc.
      * cbn [for_ fst snd mret Run_ret run_ret seq flat_map app].
        rewrite decide_True by reflexivity.
        rewrite <- ?app_assoc.
        repeat split; auto using no_thread_action_app, header_quiet,
          start_power_quiet, running_notice_quiet, stop_power_quiet.
      * cbn [for_].
        rewrite (bind_undefined _ _ _
                   (iteration_without_worker w b k kd _ 0 ltac:(lia))).
        cbn [fst snd seq flat_map app].
        rewrite decide_False by discriminate.
        rewrite ?app_nil_r, <- ?app_assoc.
        repeat split; auto using no_thread_action_app, header_quiet,
          start_power_quiet, running_notice_quiet.
        constructor.
    + exists k, kd, 0%nat, (header b ++ fst (start_power w)), [], [].
      rewrite (run_core_no_worker w b k kd Hk Hn).
      cbn [fst seq flat_map app]. rewrite ?app_nil_r.
      repeat split; auto using no_thread_action_app, header_quiet,
        start_power_quiet.
      constructor.
    + destruct (le_lt_dec (Z.to_nat (_iterations b)) (length (_metricOnIter b)))
        as [Hlen|Hlen].
      * exists k, kd, (Z.to_nat (_iterations b)),
          (header b ++ fst (start_power w) ++ running_notice w), [],
          (fst (stop_power w)).
        rewrite (run_core_defined w b k kd Hn Hk Hlen).
        cbn [fst app]. rewrite <- ?app_assoc.
        repeat split; auto using no_thread_action_app, header_quiet,
          start_power_quiet, running_notice_quiet, stop_power_quiet.
      * exists k, kd, (length (_metricOnIter b)),
          (header b ++ fst (start_power w) ++ running_notice w),
          (measure_actions w b k kd (_len b / _num_worker_threads b)
             (length (_metricOnIter b))), [].
        rewrite (run_core_undefined w b k kd Hn Hk Hlen).
        cbn [fst]. rewrite ?app_nil_r, <- ?app_assoc.
        repeat split; auto using no_thread_action_app, header_quiet,
          start_power_quiet, running_notice_quiet.
        constructor.
  - exists 0, 0, 0%nat, (header b ++ [kernel_warning]), [], [].
    rewrite (run_core_no_kernel w b Hk).
    cbn [fst seq flat_map app]. rewrite ?app_nil_r.
    repeat split; auto. repeat constructor.
    constructor.
Qed.

(** ** Order of the actions *)

(** What must have happened, among the actions [pre], before the action
    [e] of a run with [n] workers: before a thread is started, every
    worker and thread of its iteration has been built; before a counter
    is read, every thread of its iteration has been joined. *)
Definition preceded (n : nat) (pre : list event) (e : event) : Prop :=
  match e with
  | CreateAndStart i _ =>
      forall t', (t' < n)%nat ->
        (exists worker, In (NewWorker i t' worker) pre) /\ In (NewThread i t') pre
  | Get i _ _ => forall t', (t' < n)%nat -> In (Join i t') pre
  | _ => True
  end.

(** Every action of [tr], performed after [ctx], is preceded as above. *)
Definition well_ordered (n : nat) (ctx tr : list event) : Prop :=
  forall pre e post, tr = pre ++ e :: post -> preceded n (ctx ++ pre) e.

Lemma preceded_mono n pre pre' e :
  incl pre pre' -> preceded n pre e -> preceded n pre' e.
Proof.
  intros Hincl. destruct e; cbn; try (intros; exact I).
  - intros H t' Ht'. destruct (H t' Ht') as [[worker Hw] Hth].
    split; [exists worker|]; apply Hincl; assumption.
  - intros H t' Ht'. apply Hincl, H, Ht'.
Qed.

Lemma well_ordered_each n ctx tr :
  (forall e, In e tr -> preceded n ctx e) -> well_ordered n ctx tr.
Proof.
  intros Hall pre e post ->.
  apply (preceded_mono n ctx); [apply incl_appl, incl_refl|].
  apply Hall, in_elt.
Qed.

Lemma well_ordered_quiet n ctx tr :
  no_thread_action tr -> well_ordered n ctx tr.
Proof.
  intros Hq. apply well_ordered_each. intros e He.
  unfold no_thread_action in Hq. rewrite List.Forall_forall in Hq.
  specialize (Hq e He). destruct e; cbn in *; auto; discriminate.
Qed.

Lemma well_ordered_app n ctx tr1 tr2 :
  well_ordered n ctx tr1 -> well_ordered n (ctx ++ tr1) tr2 ->
  well_ordered n ctx (tr1 ++ tr2).
Proof.
  intros H1 H2 pre e post Heq.
  apply app_eq_app in Heq. destruct Heq as [l [[-> Hl]|[-> Hl]]].
  - destruct l as [|e' l].
    + cbn in Hl. subst tr2.
      specialize (H2 [] e post eq_refl). rewrite !app_nil_r in H2. exact H2.
    + injection Hl as <- ->. apply (H1 pre e l eq_refl).
  - specialize (H2 l e post Hl). rewrite <- app_assoc in H2. exact H2.
Qed.

Lemma well_ordered_later n ctx ctx' tr :
  well_ordered n ctx tr -> well_ordered n (ctx' ++ ctx) tr.
Proof.
  intros H pre e post Heq.
  apply (preceded_mono n (ctx ++ pre)); [|exact (H pre e post Heq)].
  rewrite <- app_assoc. apply incl_appr, incl_refl.
Qed.

Lemma well_ordered_start n tr : well_ordered n [] tr -> forall ctx, well_ordered n ctx tr.
Proof.
  intros H ctx. rewrite <- (app_nil_r ctx). apply well_ordered_later, H.
Qed.

Lemma well_ordered_flat_map {A} n (f : A -> list event) (l : list A) :
  (forall x, well_ordered n [] (f x)) -> well_ordered n [] (flat_map f l).
Proof.
  intros Hf. induction l as [|x l IH]; cbn [flat_map].
  - intros pre e post Heq. destruct pre; discriminate.
  - apply well_ordered_app; [apply Hf|].
    apply well_ordered_start, IH.
Qed.

Section Order.

Variable w : World.
Variable b : Benchmark.
Variables kernel_fptr kernel_dummy_fptr : SequentialFunction.
Variable len_per_thread : Z.
Variable i : nat.

Let n : nat := Z.to_nat (_num_worker_threads b).
Let create : list event :=
  flat_map (create_actions w b kernel_fptr kernel_dummy_fptr len_per_thread i)
    (seq 0 n).

Lemma create_has_workers t :
  (t < n)%nat ->
  (exists worker, In (NewWorker i t worker) create) /\ In (NewThread i t) create.
Proof.
  intros Ht.
  assert (Hin : forall e,
             In e [NewWorker i t
                     (worker_of w b kernel_fptr kernel_dummy_fptr
                        len_per_thread t);
                   NewThread i t] -> In e create).
  { intros e He. apply in_flat_map. exists t.
    split; [apply in_seq; lia|].
    unfold create_actions. apply in_or_app. right. exact He. }
  split; [eexists|]; apply Hin; cbn; auto.
Qed.

Lemma measure_well_ordered :
  well_ordered n []
    (measure_actions w b kernel_fptr kernel_dummy_fptr len_per_thread i).
Proof.
  unfold measure_actions. fold n. fold create.
  apply well_ordered_app; [|apply well_ordered_app; [|apply well_ordered_app]].
  - apply well_ordered_each. intros e He.
    apply in_flat_map in He. destruct He as (t & _ & He).
    unfold create_actions in He. apply in_app_or in He.
    destruct He as [He|[<-|[<-|[]]]]; cbn; auto.
    destruct (_ <? 0); [destruct He as [<-|[]]; cbn; auto | destruct He].
  - apply well_ordered_each. intros e He.
    apply in_map_iff in He. destruct He as (t & <- & _).
    cbn. intros t' Ht'.
    destruct (create_has_workers t' Ht') as [[worker Hw] Hth].
    split; [exists worker|]; auto.
  - apply well_ordered_each. intros e He.
    apply in_flat_map in He. destruct He as (t & _ & He).
    unfold join_actions in He. destruct He as [<-|He]; [cbn; auto|].
    destruct (join w i t); [destruct He|].
    destruct He as [<-|[]]. cbn. auto.
  - assert (Hjoined : forall t', (t' < n)%nat ->
              In (Join i t')
                ((([] ++ create) ++ map (CreateAndStart i) (seq 0 n))
                 ++ flat_map (join_actions w i) (seq 0 n))).
    { intros t' Ht'. apply in_or_app. right.
      apply in_flat_map. exists t'.
      split; [apply in_seq; lia | left; reflexivity]. }
    apply well_ordered_each. intros e He.
    destruct He as [<-|He]; [exact Hjoined|].
    apply in_app_or in He. destruct He as [He|He].
    + apply in_flat_map in He. destruct He as (t & _ & He).
      unfold get_actions in He.
      destruct He as [<-|[<-|[<-|[<-|[]]]]]; exact Hjoined.
    + pose proof (report_actions_output w b kernel_fptr kernel_dummy_fptr
                    len_per_thread i) as Hout.
      rewrite List.Forall_forall in Hout. specialize (Hout e He).
      destruct e; cbn in *; auto; discriminate.
Qed.

Lemma iteration_well_ordered :
  well_ordered n []
    (measure_actions w b kernel_fptr kernel_dummy_fptr len_per_thread i
     ++ flat_map (delete_actions i) (seq 0 n)).
Proof.
  apply well_ordered_app; [apply measure_well_ordered|].
  apply well_ordered_each. intros e He.
  apply in_flat_map in He. destruct He as (t & _ & He).
  destruct He as [<-|[<-|[]]]; cbn; auto.
Qed.

End Order.

Lemma run_core_well_ordered (w : World) (b : Benchmark) :
  well_ordered (Z.to_nat (_num_worker_threads b)) [] (fst (_run_core w b)).
Proof.
  destruct (run_core_shape w b)
    as (k & kd & m & A & M & B & -> & HA & HB & HM & _).
  apply well_ordered_app; [apply well_ordered_quiet, HA|].
  apply well_ordered_start.
  apply well_ordered_app; [|apply well_ordered_start, well_ordered_app].
  - apply well_ordered_flat_map. intros j. apply iteration_well_ordered.
  - destruct HM as [->| ->].
    + intros pre e post Heq. destruct pre; discriminate.
    + apply measure_well_ordered.
  - apply well_ordered_quiet, HB.
Qed.

(** C7: in every run, when a thread of iteration [i] is started, all
    workers and threads of iteration [i] have already been built, and
    when a counter of a worker of iteration [i] is read, all threads of
    iteration [i] have already been joined. *)
Theorem C7_construct_start_join_aggregate (w : World) (b : Benchmark)
    (pre post : list event) (i t : nat) :
  let n := Z.to_nat (_num_worker_threads b) in
  (fst (_run_core w b) = pre ++ CreateAndStart i t :: post ->
   forall t', (t' < n)%nat ->
     (exists worker, In (NewWorker i t' worker) pre) /\ In (NewThread i t') pre)
  /\ (forall g, fst (_run_core w b) = pre ++ Get i t g :: post ->
      forall t', (t' < n)%nat -> In (Join i t') pre).
Proof.
  intros n. split.
  - intros Heq. exact (run_core_well_ordered w b pre _ post Heq).
  - intros g Heq. exact (run_core_well_ordered w b pre _ post Heq).
Qed.

Lemma C7_witness :
  let tr := fst (_run_core Example.world Example.benchmark) in
  (tr = take 13 tr ++ CreateAndStart 0 0 :: drop 14 tr
   /\ forall t', (t' < 4)%nat ->
        (exists worker, In (NewWorker 0 t' worker) (take 13 tr))
        /\ In (NewThread 0 t') (take 13 tr))
  /\ (tr = take 21 tr ++ Get 0 0 BytesPerPass :: drop 22 tr
      /\ forall t', (t' < 4)%nat -> In (Join 0 t') (take 21 tr)).
Proof.
  intros tr.
  assert (Hstart : tr = take 13 tr ++ CreateAndStart 0 0 :: drop 14 tr)
    by (vm_compute; reflexivity).
  assert (Hget : tr = take 21 tr ++ Get 0 0 BytesPerPass :: drop 22 tr)
    by (vm_compute; reflexivity).
  split; (split; [assumption|]).
  - exact (proj1 (C7_construct_start_join_aggregate
                    Example.world Example.benchmark
                    (take 13 tr) (drop 14 tr) 0 0) Hstart).
  - exact (proj2 (C7_construct_start_join_aggregate
                    Example.world Example.benchmark
                    (take 21 tr) (drop 22 tr) 0 0) BytesPerPass Hget).
Defined.

(** ** The workers a run builds *)

Lemma new_worker_in_measure w b k kd lpt j i t worker :
  In (NewWorker i t worker) (measure_actions w b k kd lpt j) ->
  j = i /\ (t < Z.to_nat (_num_worker_threads b))%nat
  /\ worker = worker_of w b k kd lpt t.
Proof.
  unfold measure_actions. intros He.
  apply in_app_or in He. destruct He as [He|He].
  - apply in_flat_map in He. destruct He as (t0 & Ht0 & He).
    apply in_seq in Ht0. unfold create_actions in He.
    apply in_app_or in He. destruct He as [He|[He|[He|[]]]].
    + destruct (_ <? 0); [destruct He as [He|[]]; discriminate | destruct He].
    + injection He as <- <- <-. repeat split. lia.
    + discriminate.
  - exfalso. apply in_app_or in He. destruct He as [He|He].
    { apply in_map_iff in He. destruct He as (t0 & He & _). discriminate. }
    apply in_app_or in He. destruct He as [He|He].
    { apply in_flat_map in He. destruct He as (t0 & _ & He).
      unfold join_actions in He. destruct He as [He|He]; [discriminate|].
      destruct (join w j t0); [destruct He | destruct He as [He|[]]].
      discriminate. }
    destruct He as [He|He]; [discriminate|].
    apply in_app_or in He. destruct He as [He|He].
    { apply in_flat_map in He. destruct He as (t0 & _ & He).
      unfold get_actions in He.
      destruct He as [He|[He|[He|[He|[]]]]]; discriminate. }
    pose proof (report_actions_output w b k kd lpt j) as Hout.
    rewrite List.Forall_forall in Hout. specialize (Hout _ He). discriminate.
Qed.

Lemma new_worker_in_iteration w b k kd j i t worker :
  In (NewWorker i t worker) (iteration_actions w b k kd j) ->
  j = i /\ (t < Z.to_nat (_num_worker_threads b))%nat
  /\ worker = worker_of w b k kd (_len b / _num_worker_threads b) t.
Proof.
  unfold iteration_actions. intros He.
  apply in_app_or in He. destruct He as [He|He].
  - apply (new_worker_in_measure _ _ _ _ _ _ _ _ _ He).
  - apply in_flat_map in He. destruct He as (t0 & _ & He).
    destruct He as [He|[He|[]]]; discriminate.
Qed.

Lemma quiet_has_no_worker tr i t worker :
  no_thread_action tr -> ~ In (NewWorker i t worker) tr.
Proof.
  intros Hq He. unfold no_thread_action in Hq.
  rewrite List.Forall_forall in Hq. specialize (Hq _ He). discriminate.
Qed.

(** A worker built in a run is the worker of its index, and the workers
    of all indices are built along with it. *)
Lemma new_worker_in_run (w : World) (b : Benchmark) i t worker :
  In (NewWorker i t worker) (fst (_run_core w b)) ->
  exists k kd,
    (t < Z.to_nat (_num_worker_threads b))%nat
    /\ worker = worker_of w b k kd (_len b / _num_worker_threads b) t
    /\ forall t', (t' < Z.to_nat (_num_worker_threads b))%nat ->
         In (NewWorker i t'
               (worker_of w b k kd (_len b / _num_worker_threads b) t'))
            (fst (_run_core w b)).
Proof.
  destruct (run_core_shape w b)
    as (k & kd & m & A & M & B & -> & HA & HB & HM & _).
  intros He. exists k, kd.
  apply in_app_or in He. destruct He as [He|He];
    [destruct (quiet_has_no_worker _ _ _ _ HA He)|].
  apply in_app_or in He. destruct He as [He|He].
  - apply in_flat_map in He. destruct He as (j & Hj & He).
    destruct (new_worker_in_iteration _ _ _ _ _ _ _ _ He) as (-> & Ht & ->).
    repeat split; [exact Ht|].
    intros t' Ht'. apply in_or_app. right. apply in_or_app. left.
    apply in_flat_map. exists i. split; [exact Hj|].
    unfold iteration_actions. apply in_or_app. left.
    apply (create_in_measure w b k kd _ i t' _ Ht').
    unfold create_actions. apply in_or_app. right. left. reflexivity.
  - apply in_app_or in He. destruct He as [He|He];
      [|destruct (quiet_has_no_worker _ _ _ _ HB He)].
    destruct HM as [->| ->]; [destruct He|].
    destruct (new_worker_in_measure _ _ _ _ _ _ _ _ _ He) as (-> & Ht & ->).
    repeat split; [exact Ht|].
    intros t' Ht'. apply in_or_app. right. apply in_or_app. right.
    apply in_or_app. left.
    apply (create_in_measure w b k kd _ i t' _ Ht').
    unfold create_actions. apply in_or_app. right. left. reflexivity.
Qed.

(** The bytes of a worker's slice. *)
Definition in_slice (a : Z) (worker : ThroughputBenchmarkWorker) : Prop :=
  w_mem_array worker <= a < w_mem_array worker + w_len worker.

Lemma offset_in_range (len n t : Z) :
  UInt.in_u64 len -> 0 < n -> 0 <= t < n -> UInt.usize (t * (len / n)) = t * (len / n).
Proof.
  intros [Hlen0 Hlen] Hn Ht. apply usize_small. unfold UInt.in_u64.
  assert (0 <= len / n) by (apply Z.div_pos; lia).
  assert (n * (len / n) <= len) by (apply Z.mul_div_le; lia).
  nia.
Qed.

(** The address line 131 computes for index [t], when the buffer lies in
    the 64-bit address space: neither the product nor the pointer
    addition wraps around. *)
Lemma address_in_range (mem len n t : Z) :
  UInt.in_u64 mem -> UInt.in_u64 len -> mem + len <= 2 ^ 64 ->
  0 < n -> 0 <= t < n ->
  UInt.usize (mem + UInt.usize (t * (len / n))) = mem + t * (len / n).
Proof.
  intros [Hmem0 Hmem] Hlen Hfit Hn Ht.
  rewrite (offset_in_range len n t Hlen Hn Ht).
  apply usize_small. unfold UInt.in_u64.
  assert (0 <= len / n) by (apply Z.div_pos; [apply Hlen | lia]).
  assert (n * (len / n) <= len) by (apply Z.mul_div_le; lia).
  revert Hmem Hfit. generalize (2 ^ 64). intros P Hmem Hfit.
  destruct (Z.eq_dec (len / n) 0) as [Hz|Hz]; [rewrite Hz; lia|].
  nia.
Qed.

(** C5: with at least one worker and a buffer that lies in the 64-bit
    address space, in every iteration that is run the worker of each
    index [t] below the worker count is built on the slice of
    [len / num_workers] bytes at byte offset [t * (len / num_workers)]
    and no other worker is built; the slices of an iteration are pairwise
    disjoint and together are exactly the first
    [num_workers * (len / num_workers)] bytes of the buffer, which do not
    exceed the buffer, so that the remaining bytes are in no slice. *)
Theorem C5_slices_partition_the_buffer (w : World) (b : Benchmark) :
  UInt.in_u64 (_mem_array b) ->
  UInt.in_u64 (_len b) ->
  _mem_array b + _len b <= 2 ^ 64 ->
  1 <= _num_worker_threads b ->
  let tr := fst (_run_core w b) in
  let num_workers := _num_worker_threads b in
  let len_per_thread := _len b / num_workers in
  (forall i,
     determineSequentialKernel w (_rw_mode b) (_chunk_size b) (_stride_size b)
     <> None ->
     (Z.to_nat (_iterations b) <= length (_metricOnIter b))%nat ->
     (i < Z.to_nat (_iterations b))%nat ->
     forall t, (t < Z.to_nat num_workers)%nat ->
       exists worker, In (NewWorker i t worker) tr)
  /\ (forall i t worker,
       In (NewWorker i t worker) tr ->
       (t < Z.to_nat num_workers)%nat
       /\ w_mem_array worker = _mem_array b + Z.of_nat t * len_per_thread
       /\ w_len worker = len_per_thread
       /\ (forall t' worker' a,
             In (NewWorker i t' worker') tr -> t' <> t ->
             ~ (in_slice a worker /\ in_slice a worker'))
       /\ (forall a,
             (exists t' worker',
                 In (NewWorker i t' worker') tr /\ in_slice a worker')
             <-> _mem_array b <= a < _mem_array b + num_workers * len_per_thread))
  /\ num_workers * len_per_thread <= _len b.
Proof.
  intros Haddr Hlen Hfit Hn tr num_workers len_per_thread.
  assert (Hlpt : 0 <= len_per_thread)
    by (apply Z.div_pos; [apply Hlen | unfold num_workers; lia]).
  assert (Hshape : forall i t worker,
             In (NewWorker i t worker) tr ->
             (t < Z.to_nat num_workers)%nat
             /\ w_mem_array worker = _mem_array b + Z.of_nat t * len_per_thread
             /\ w_len worker = len_per_thread).
  { intros i t worker He.
    destruct (new_worker_in_run w b i t worker He) as (k & kd & Ht & -> & _).
    repeat split; [exact Ht|].
    cbn [w_mem_array worker_of].
    apply address_in_range;
      [exact Haddr | exact Hlen | exact Hfit | lia | fold num_workers; lia]. }
  split; [|split].
  - intros i Hk Hmetrics Hi t Ht.
    destruct (determineSequentialKernel w (_rw_mode b) (_chunk_size b)
                (_stride_size b)) as [[k kd]|] eqn:Hk'; [|contradiction].
    exists (worker_of w b k kd len_per_thread t).
    apply (measure_in_run w b k kd i); try assumption; [lia|].
    apply (create_in_measure w b k kd _ i t _ Ht).
    unfold create_actions. apply in_or_app. right. left. reflexivity.
  - intros i t worker He.
    destruct (Hshape i t worker He) as (Ht & Hmem & Hwlen).
    split; [exact Ht|split; [exact Hmem|split; [exact Hwlen|split]]];
      [|intros a; split].
    + intros t' worker' a He' Hne [Ha Ha'].
      destruct (Hshape i t' worker' He') as (Ht' & Hmem' & Hwlen').
      unfold in_slice in Ha, Ha'.
      rewrite Hmem, Hwlen in Ha. rewrite Hmem', Hwlen' in Ha'.
      assert (Z.of_nat t < Z.of_nat t' \/ Z.of_nat t' < Z.of_nat t) as [Hlt|Hlt]
        by lia; nia.
    + intros (t' & worker' & He' & Ha).
      destruct (Hshape i t' worker' He') as (Ht' & Hmem' & Hwlen').
      unfold in_slice in Ha. rewrite Hmem', Hwlen' in Ha.
      assert (Z.of_nat t' + 1 <= num_workers) by lia.
      split; nia.
    + intros [Ha1 Ha2].
      destruct (new_worker_in_run w b i t worker He) as (k & kd & _ & _ & Hall).
      assert (Hpos : 0 < len_per_thread) by nia.
      set (q := (a - _mem_array b) / len_per_thread).
      assert (Hq : 0 <= q < num_workers).
      { unfold q. split; [apply Z.div_pos; lia|].
        apply Z.div_lt_upper_bound; lia. }
      assert (Hqa : len_per_thread * q <= a - _mem_array b
                    < len_per_thread * q + len_per_thread).
      { unfold q. split; [apply Z.mul_div_le; lia|].
        pose proof (Z.mul_succ_div_gt (a - _mem_array b) len_per_thread Hpos).
        lia. }
      exists (Z.to_nat q), (worker_of w b k kd len_per_thread (Z.to_nat q)).
      split; [apply Hall; fold num_workers; lia|].
      unfold in_slice. cbn [w_mem_array w_len worker_of].
      assert (Hoff : UInt.usize (_mem_array b
                                 + UInt.usize (Z.of_nat (Z.to_nat q)
                                               * len_per_thread))
                     = _mem_array b + Z.of_nat (Z.to_nat q) * len_per_thread)
        by (apply address_in_range;
            [exact Haddr | exact Hlen | exact Hfit | lia | fold num_workers; lia]).
      rewrite Hoff, Z2Nat.id by lia. lia.
  - apply Z.mul_div_le. unfold num_workers. lia.
Qed.

Lemma C5_witness :
  let tr := fst (_run_core Example.world Example.benchmark) in
  (exists worker, In (NewWorker 1 2 worker) tr)
  /\ (forall worker,
        In (NewWorker 1 2 worker) tr ->
        w_mem_array worker = 65536 + 2 * 262144 /\ w_len worker = 262144)
  /\ 4 * 262144 <= 1048576.
Proof.
  intros tr.
  assert (Haddr : UInt.in_u64 (_mem_array Example.benchmark))
    by (vm_compute; split; [discriminate | reflexivity]).
  assert (Hlen : UInt.in_u64 (_len Example.benchmark))
    by (vm_compute; split; [discriminate | reflexivity]).
  assert (Hfit : _mem_array Example.benchmark + _len Example.benchmark
                 <= 2 ^ 64)
    by (vm_compute; discriminate).
  assert (Hn : 1 <= _num_worker_threads Example.benchmark)
    by (vm_compute; discriminate).
  destruct (C5_slices_partition_the_buffer
              Example.world Example.benchmark Haddr Hlen Hfit Hn)
    as (Hex & Hall & Hle).
  split; [|split].
  - apply (Hex 1%nat); [discriminate | apply le_n | apply le_n |].
    vm_compute. lia.
  - intros worker He.
    destruct (Hall 1%nat 2%nat worker He) as (_ & Hmem & Hwlen & _).
    split; [exact Hmem | exact Hwlen].
  - exact Hle.
Defined.

(** C4, as the code has it: [_run_core] does not compare the buffer
    length with the worker count.  It returns failure only when no kernel
    matches, and every worker it builds gets [len / num_workers] bytes,
    which is at least one byte when the buffer is at least as long as the
    worker count and zero bytes when it is shorter. *)
Theorem C4_slice_length (w : World) (b : Benchmark) :
  (forall b',
     snd (_run_core w b) = Some (false, b') ->
     determineSequentialKernel w (_rw_mode b) (_chunk_size b) (_stride_size b)
     = None)
  /\ (forall i t worker,
       In (NewWorker i t worker) (fst (_run_core w b)) ->
       w_len worker = _len b / _num_worker_threads b
       /\ (1 <= _num_worker_threads b <= _len b -> 1 <= w_len worker)
       /\ (0 <= _len b < _num_worker_threads b -> w_len worker = 0)).
Proof.
  split; [exact (run_core_false w b)|].
  intros i t worker He.
  destruct (new_worker_in_run w b i t worker He) as (k & kd & _ & -> & _).
  cbn [w_len worker_of]. split; [reflexivity|split].
  - intros [Hn Hlen].
    apply (Z.div_le_lower_bound (_len b) (_num_worker_threads b) 1); lia.
  - intros Hlen. apply Z.div_small. exact Hlen.
Qed.

Lemma C4_witness :
  let worker :=
    {| w_mem_array := 65536 + 3 * 262144; w_len := 262144;
       w_kernel := 4198400; w_kernel_dummy := 4198912; w_cpu_id := 3 |} in
  In (NewWorker 0 3 worker) (fst (_run_core Example.world Example.benchmark))
  /\ w_len worker = 1048576 / 4
  /\ 1 <= w_len worker.
Proof.
  intros worker.
  assert (He : In (NewWorker 0 3 worker)
                 (fst (_run_core Example.world Example.benchmark)))
    by (apply (nth_error_In _ 11); vm_compute; reflexivity).
  destruct (proj2 (C4_slice_length Example.world Example.benchmark)
              0%nat 3%nat worker He)
    as (Hlen & Hpos & _).
  split; [exact He|split; [exact Hlen|]].
  apply Hpos. vm_compute. split; discriminate.
Defined.

(** A run on a buffer of 3 bytes with 4 workers is not rejected: it
    builds workers on empty slices and returns success. *)
Lemma C4_counterexample :
  _len Example.short_benchmark < _num_worker_threads Example.short_benchmark
  /\ (exists b',
        snd (_run_core Example.world Example.short_benchmark) = Some (true, b'))
  /\ In (NewWorker 0 0
           {| w_mem_array := 65536; w_len := 0; w_kernel := 4198400;
              w_kernel_dummy := 4198912; w_cpu_id := 0 |})
        (fst (_run_core Example.world Example.short_benchmark)).
Proof.
  split; [reflexivity|split].
  - eexists. vm_compute. reflexivity.
  - apply (nth_error_In _ 5). vm_compute. reflexivity.
Qed.

(** ** When the metric is finite *)

Lemma of_int_zero_or_normal (n : Z) :
  UInt.in_u64 n ->
  (n = 0 /\ of_int n = zero) \/ (1 <= n /\ normal (-52) 12 (of_int n)).
Proof.
  intros [Hn0 Hn]. destruct (Z.eq_dec n 0) as [->|Hne].
  - left. split; reflexivity.
  - right. split; [lia|]. apply of_int_normal. lia.
Qed.

Lemma MB_normal : normal (-32) (-32) (of_int MB).
Proof. exists (2 ^ 52)%positive, (-32). repeat split; vm_compute; congruence. Qed.

Lemma lit_1e9_normal : normal (-23) (-23) lit_1e9.
Proof.
  exists 8388608000000000%positive, (-23).
  repeat split; vm_compute; congruence.
Qed.

Section MetricRange.

Variable w : World.
Variables total_passes bytes_per_pass avg_adjusted_ticks : Z.

Hypothesis passes_range : UInt.in_u64 total_passes.
Hypothesis bytes_range : UInt.in_u64 bytes_per_pass.
Hypothesis ticks_range : UInt.in_u64 avg_adjusted_ticks.

(** The timer's factor is a positive normal double between 2^-848 and
    2^953. *)
Hypothesis ns_range : normal (-900) 900 (get_ns_per_tick w).

Let megabytes : double :=
  div (mul (of_int total_passes) (of_int bytes_per_pass)) (of_int MB).
Let seconds : double :=
  div (mul (of_int avg_adjusted_ticks) (get_ns_per_tick w)) lit_1e9.

Lemma megabytes_range :
  ((total_passes = 0 \/ bytes_per_pass = 0) /\ megabytes = zero)
  \/ ((1 <= total_passes /\ 1 <= bytes_per_pass) /\ normal (-73) 59 megabytes).
Proof.
  unfold megabytes.
  destruct MB_normal as (mb & eb & Hmb & _).
  destruct (of_int_zero_or_normal total_passes passes_range)
    as [[Hp Hp0]|[Hp Hpn]];
    destruct (of_int_zero_or_normal bytes_per_pass bytes_range)
      as [[Hb Hb0]|[Hb Hbn]].
  - left. split; [auto|]. rewrite Hp0, Hb0, Hmb. reflexivity.
  - left. split; [auto|]. destruct Hbn as (m & e & Hbn & _).
    rewrite Hp0, Hbn, Hmb. reflexivity.
  - left. split; [auto|]. destruct Hpn as (m & e & Hpn & _).
    rewrite Hpn, Hb0, Hmb. reflexivity.
  - right. split; [auto|].
    apply (normal_weaken (-52 - -32 - 53) (78 - -32 - 51)); [lia | lia |].
    apply div_normal; [|exact MB_normal | lia | lia].
    apply (normal_weaken (-52 + -52 + 52) (12 + 12 + 54)); [lia | lia |].
    apply mul_normal; [exact Hpn | exact Hbn | lia | lia].
Qed.

Lemma seconds_range :
  (avg_adjusted_ticks = 0 /\ seconds = zero)
  \/ (1 <= avg_adjusted_ticks /\ normal (-930) 938 seconds).
Proof.
  unfold seconds.
  destruct (of_int_zero_or_normal avg_adjusted_ticks ticks_range)
    as [[Ht Ht0]|[Ht Htn]].
  - left. split; [exact Ht|].
    destruct ns_range as (m & e & Hns & _).
    destruct lit_1e9_normal as (m9 & e9 & H9 & _).
    rewrite Ht0, Hns, H9. reflexivity.
  - right. split; [exact Ht|].
    apply (normal_weaken (-900 - -23 - 53) (966 - -23 - 51)); [lia | lia |].
    apply div_normal; [|exact lit_1e9_normal | lia | lia].
    apply (normal_weaken (-52 + -900 + 52) (12 + 900 + 54)); [lia | lia |].
    apply mul_normal; [exact Htn | exact ns_range | lia | lia].
Qed.

(** With a positive average tick count the metric is zero or a positive
    normal double; with a zero one it is a division by zero. *)
Lemma metric_range :
  (1 <= avg_adjusted_ticks ->
   is_finite (metric w total_passes bytes_per_pass avg_adjusted_ticks) = true
   /\ nonneg (metric w total_passes bytes_per_pass avg_adjusted_ticks) = true)
  /\ (avg_adjusted_ticks = 0 ->
      is_finite (metric w total_passes bytes_per_pass avg_adjusted_ticks) = false
      /\ (1 <= total_passes -> 1 <= bytes_per_pass ->
          metric w total_passes bytes_per_pass avg_adjusted_ticks
          = S754_infinity false)).
Proof.
  unfold metric. fold megabytes seconds.
  destruct megabytes_range as [[Hz Hmb]|[Hpb Hmb]];
    destruct seconds_range as [[Ht Hs]|[Ht Hs]].
  - rewrite Hmb, Hs. split; [intros; lia|].
    intros _. split; [reflexivity | intros; lia].
  - rewrite Hmb. destruct Hs as (m & e & -> & _).
    split; [|intros; lia]. intros _. split; reflexivity.
  - rewrite Hs. destruct Hmb as (m & e & -> & _).
    split; [intros; lia|]. intros _. split; reflexivity.
  - split; [|intros; lia]. intros _.
    assert (Hn : normal (-73 - 938 - 53) (59 - -930 - 51) (div megabytes seconds))
      by (apply div_normal; [exact Hmb | exact Hs | lia | lia]).
    destruct Hn as (m & e & -> & _). split; reflexivity.
Qed.

End MetricRange.

(** C2, as the code has it: the division of line 193 is not guarded.  In
    a defined run whose timer factor is a positive normal double between
    2^-848 and 2^953, the metric of an iteration is finite and not
    negative whenever the average adjusted tick count is at least 1; when
    it is 0, as when every worker reports zero adjusted ticks, the metric
    is not finite: it is +infinity if a pass of at least one byte was
    completed. *)
Theorem C2_metric_finite_unless_no_ticks (w : World) (b : Benchmark)
    (kernel_fptr kernel_dummy_fptr : SequentialFunction) (i : nat) :
  determineSequentialKernel w (_rw_mode b) (_chunk_size b) (_stride_size b)
  = Some (kernel_fptr, kernel_dummy_fptr) ->
  0 < _num_worker_threads b ->
  (Z.to_nat (_iterations b) <= length (_metricOnIter b))%nat ->
  (i < Z.to_nat (_iterations b))%nat ->
  normal (-900) 900 (get_ns_per_tick w) ->
  let num_workers := _num_worker_threads b in
  let worker t :=
    worker_of w b kernel_fptr kernel_dummy_fptr (_len b / num_workers) t in
  let total_passes :=
    UInt.u64 (sum_over (Z.to_nat num_workers)
                (fun t => getPasses (counters w i t (worker t)))) in
  let bytes_per_pass :=
    UInt.u64 (getBytesPerPass (counters w i 0 (worker 0%nat))) in
  let avg_adjusted_ticks :=
    UInt.u64 (sum_over (Z.to_nat num_workers)
                (fun t => getAdjustedTicks (counters w i t (worker t))))
    / num_workers in
  exists b' x,
    snd (_run_core w b) = Some (true, b')
    /\ _metricOnIter b' !! i = Some x
    /\ (1 <= avg_adjusted_ticks -> is_finite x = true /\ nonneg x = true)
    /\ (avg_adjusted_ticks = 0 ->
        is_finite x = false
        /\ (1 <= total_passes -> 1 <= bytes_per_pass -> x = S754_infinity false)).
Proof.
  intros Hk Hn Hlen Hi Hns num_workers worker total_passes bytes_per_pass
    avg_adjusted_ticks.
  destruct (stored_metric w b kernel_fptr kernel_dummy_fptr i Hk Hn Hlen Hi)
    as (b' & Hrun & Hslot).
  exists b', (metric w total_passes bytes_per_pass avg_adjusted_ticks).
  split; [exact Hrun|]. split; [exact Hslot|].
  apply metric_range; try exact Hns; try apply u64_range.
  unfold avg_adjusted_ticks.
  match goal with |- UInt.in_u64 (UInt.u64 ?z / _) =>
    generalize (u64_range z); generalize (UInt.u64 z) end.
  intros z [Hz0 Hz]. fold num_workers in Hn. split.
  - apply Z.div_pos; [exact Hz0 | exact Hn].
  - apply Z.div_lt_upper_bound; [exact Hn|].
    assert (Hpow : 0 < 2 ^ 64) by lia.
    revert Hz Hpow. generalize (2 ^ 64). intros P Hz Hpow. nia.
Qed.

Lemma C2_witness :
  exists b' x,
    snd (_run_core Example.world Example.benchmark) = Some (true, b')
    /\ _metricOnIter b' !! 0%nat = Some x
    /\ is_finite x = true /\ nonneg x = true.
Proof.
  assert (Hns : normal (-900) 900 (get_ns_per_tick Example.world)).
  { exists (2 ^ 52)%positive, (-52).
    split; [reflexivity|]. split; [reflexivity|]. split; discriminate. }
  destruct (C2_metric_finite_unless_no_ticks
              Example.world Example.benchmark 4198400 4198912 0%nat
              eq_refl eq_refl (le_n 2) (le_S 1 1 (le_n 1)) Hns)
    as (b' & x & Hrun & Hslot & Hfinite & _).
  exists b', x. split; [exact Hrun|]. split; [exact Hslot|].
  apply Hfinite. vm_compute. discriminate.
Defined.

(** Four workers that each complete 100 passes of 64 bytes in zero
    adjusted ticks: the stored metric is +infinity. *)
Lemma C2_counterexample :
  getPasses Example.instant_counters = 100
  /\ getAdjustedTicks Example.instant_counters = 0
  /\ exists b',
       snd (_run_core Example.world_of_instant_workers Example.benchmark)
       = Some (true, b')
       /\ _metricOnIter b' !! 0%nat = Some (S754_infinity false)
       /\ is_finite (S754_infinity false) = false.
Proof.
  split; [reflexivity|]. split; [reflexivity|].
  eexists. split; [vm_compute; reflexivity|].
  split; reflexivity.
Qed.

(** * The routine in closed form

    Which of its returns or undefined operations a run reaches is decided
    by the kernel table's answer, the worker count, the iteration count
    and the length of the metric vector. *)

Section Forms.

Variable w : World.
Variable b : Benchmark.

Definition prologue : list event :=
  header b ++ fst (start_power w) ++ running_notice w.

(** A run that goes through all its iterations. *)
Definition completed_run (k kd : SequentialFunction) : Run (bool * Benchmark) :=
  (prologue ++ flat_map (iteration_actions w b k kd) (seq 0 (iterations b))
   ++ fst (stop_power w),
   Some (true, with_results b (final_metrics w b k kd)
                 (final_average w b k kd) true)).

(** A run followed up to the store into a slot the metric vector does
    not have. *)
Definition overrun (k kd : SequentialFunction) : Run (bool * Benchmark) :=
  (prologue
   ++ flat_map (iteration_actions w b k kd) (seq 0 (length (_metricOnIter b)))
   ++ measure_actions w b k kd (_len b / _num_worker_threads b)
        (length (_metricOnIter b)),
   None).

Definition run_form : Run (bool * Benchmark) :=
  match determineSequentialKernel w (_rw_mode b) (_chunk_size b)
          (_stride_size b) with
  | None => (header b ++ [kernel_warning], Some (false, b))
  | Some (k, kd) =>
      if decide (_num_worker_threads b = 0) then
        (header b ++ fst (start_power w), None)
      else if decide (0 < _num_worker_threads b) then
        if decide (iterations b <= length (_metricOnIter b))%nat
        then completed_run k kd
        else overrun k kd
      else if decide (iterations b = 0%nat) then completed_run k kd
      else (prologue, None)
  end.

Lemma run_core_form : _run_core w b = run_form.
Proof.
  unfold run_form.
  destruct (determineSequentialKernel w (_rw_mode b) (_chunk_size b)
              (_stride_size b)) as [[k kd]|] eqn:Hk;
    [|exact (run_core_no_kernel w b Hk)].
  destruct (decide (_num_worker_threads b = 0)) as [Hz|Hz];
    [exact (run_core_no_worker w b k kd Hk Hz)|].
  destruct (decide (0 < _num_worker_threads b)) as [Hn|Hn].
  - destruct (decide (iterations b <= length (_metricOnIter b))%nat)
      as [Hlen|Hlen].
    + rewrite (run_core_defined w b k kd Hn Hk Hlen).
      unfold completed_run, prologue. rewrite <- ?app_assoc. reflexivity.
    + rewrite (run_core_undefined w b k kd Hn Hk) by lia.
      unfold overrun, prologue. rewrite <- ?app_assoc. reflexivity.
  - rewrite (run_core_loop w b k kd Hk Hz). cbv zeta.
    unfold for_upto. fold (iterations b).
    destruct (iterations b) as [|count] eqn:Hc.
    + rewrite decide_True by reflexivity.
      cbn [for_ fst snd mret Run_ret run_ret].
      unfold completed_run, prologue, final_metrics, final_average.
      rewrite Hc. cbn [seq flat_map app store_metrics sum_metrics fold_left].
      rewrite <- ?app_assoc. reflexivity.
    + rewrite decide_False by discriminate.
      cbn [for_].
      rewrite (bind_undefined _ _ _
                 (iteration_without_worker w b k kd _ 0 ltac:(lia))).
      cbn [fst snd]. unfold prologue. rewrite ?app_nil_r, <- ?app_assoc.
      reflexivity.
Qed.

End Forms.

(** * Further properties of the routine *)

(** X2: with an iteration count of zero the run builds no worker and
    thread, leaves the metric vector as it is, returns success with the
    has-run flag set, and divides the average by zero: whatever the
    average was, it is not a finite number afterwards, and it is NaN on
    an object whose average was 0. *)
Theorem X2_no_iterations (w : World) (b : Benchmark)
    (kernel_fptr kernel_dummy_fptr : SequentialFunction) :
  determineSequentialKernel w (_rw_mode b) (_chunk_size b) (_stride_size b)
  = Some (kernel_fptr, kernel_dummy_fptr) ->
  0 < _num_worker_threads b ->
  _iterations b = 0 ->
  exists b',
    snd (_run_core w b) = Some (true, b')
    /\ _metricOnIter b' = _metricOnIter b
    /\ _hasRun b' = true
    /\ is_finite (_averageMetric b') = false
    /\ (_averageMetric b = zero -> _averageMetric b' = S754_nan)
    /\ Forall (fun e => is_thread_action e = false) (fst (_run_core w b)).
Proof.
  intros Hk Hn Hit.
  assert (Hc : iterations b = 0%nat) by (unfold iterations; rewrite Hit; reflexivity).
  rewrite run_core_form. unfold run_form. rewrite Hk.
  rewrite decide_False by lia. rewrite decide_True by exact Hn.
  rewrite decide_True by (rewrite Hc; lia).
  unfold completed_run, final_metrics, final_average. rewrite Hc, Hit.
  cbn [seq flat_map store_metrics sum_metrics fold_left fst snd app].
  eexists. split; [reflexivity|].
  cbn [_metricOnIter _hasRun _averageMetric with_results].
  split; [reflexivity|]. split; [reflexivity|]. split; [|split].
  - destruct (_averageMetric b); reflexivity.
  - intros ->. reflexivity.
  - apply Forall_app_2; [|apply stop_power_quiet].
    unfold prologue.
    apply Forall_app_2; [apply header_quiet|].
    apply Forall_app_2; [apply start_power_quiet | apply running_notice_quiet].
Qed.

Module MoreExamples.

(** A benchmark that asks for no iteration. *)
Definition idle_benchmark : Benchmark :=
  {| _mem_array := 65536; _len := 1048576; _iterations := 0;
     _num_worker_threads := 4; _mem_node := 0; _cpu_node := 0;
     _pattern_mode := SEQUENTIAL; _rw_mode := READ; _chunk_size := 64;
     _stride_size := 1; _name := "Test";
     _metricOnIter := []; _averageMetric := zero; _hasRun := false |}.

(** A metric vector with a slot more than the two iterations need. *)
Definition roomy_benchmark : Benchmark :=
  {| _mem_array := 65536; _len := 1048576; _iterations := 2;
     _num_worker_threads := 4; _mem_node := 0; _cpu_node := 0;
     _pattern_mode := SEQUENTIAL; _rw_mode := READ; _chunk_size := 64;
     _stride_size := 1; _name := "Test";
     _metricOnIter := [zero; zero; of_int 7]; _averageMetric := zero;
     _hasRun := false |}.

(** A benchmark without workers. *)
Definition unmanned_benchmark : Benchmark :=
  {| _mem_array := 65536; _len := 1048576; _iterations := 2;
     _num_worker_threads := 0; _mem_node := 0; _cpu_node := 0;
     _pattern_mode := SEQUENTIAL; _rw_mode := READ; _chunk_size := 64;
     _stride_size := 1; _name := "Test";
     _metricOnIter := [zero; zero]; _averageMetric := zero;
     _hasRun := false |}.

(** A metric vector with one slot for two iterations. *)
Definition cramped_benchmark : Benchmark :=
  {| _mem_array := 65536; _len := 1048576; _iterations := 2;
     _num_worker_threads := 4; _mem_node := 0; _cpu_node := 0;
     _pattern_mode := SEQUENTIAL; _rw_mode := READ; _chunk_size := 64;
     _stride_size := 1; _name := "Test";
     _metricOnIter := [zero]; _averageMetric := zero;
     _hasRun := false |}.

End MoreExamples.

Lemma X2_witness :
  exists b',
    snd (_run_core Example.world MoreExamples.idle_benchmark) = Some (true, b')
    /\ _metricOnIter b' = _metricOnIter MoreExamples.idle_benchmark
    /\ _hasRun b' = true
    /\ is_finite (_averageMetric b') = false
    /\ (_averageMetric MoreExamples.idle_benchmark = zero ->
        _averageMetric b' = S754_nan)
    /\ Forall (fun e => is_thread_action e = false)
         (fst (_run_core Example.world MoreExamples.idle_benchmark)).
Proof.
  exact (X2_no_iterations Example.world MoreExamples.idle_benchmark
           4198400 4198912 eq_refl eq_refl eq_refl).
Defined.

Lemma store_metrics_lookup_ge w b k kd m metrics j :
  (m <= j)%nat ->
  store_metrics w b k kd (seq 0 m) metrics !! j = metrics !! j.
Proof.
  induction m as [|m IH]; intros Hj; [reflexivity|].
  rewrite store_metrics_S, list_lookup_insert_ne by lia.
  apply IH. lia.
Qed.

(** X3: a run that returns leaves every field of the object other than
    the three result fields as it was, keeps the length of the metric
    vector, and does not touch the slots from index [_iterations] on. *)
Theorem X3_only_results_change (w : World) (b b' : Benchmark) (r : bool) :
  snd (_run_core w b) = Some (r, b') ->
  b' = with_results b (_metricOnIter b') (_averageMetric b') (_hasRun b')
  /\ length (_metricOnIter b') = length (_metricOnIter b)
  /\ (forall j, (Z.to_nat (_iterations b) <= j)%nat ->
        _metricOnIter b' !! j = _metricOnIter b !! j).
Proof.
  rewrite run_core_form. unfold run_form.
  assert (Hcompleted : forall k kd,
             snd (completed_run w b k kd) = Some (r, b') ->
             b' = with_results b (_metricOnIter b') (_averageMetric b') (_hasRun b')
             /\ length (_metricOnIter b') = length (_metricOnIter b)
             /\ (forall j, (Z.to_nat (_iterations b) <= j)%nat ->
                   _metricOnIter b' !! j = _metricOnIter b !! j)).
  { intros k kd Hret. cbn [snd completed_run] in Hret.
    injection Hret as _ <-. cbn [_metricOnIter _averageMetric _hasRun with_results].
    split; [reflexivity|]. unfold final_metrics. split.
    - apply store_metrics_length.
    - intros j Hj. apply store_metrics_lookup_ge. exact Hj. }
  destruct (determineSequentialKernel w (_rw_mode b) (_chunk_size b)
              (_stride_size b)) as [[k kd]|].
  - destruct (decide (_num_worker_threads b = 0)); [discriminate|].
    destruct (decide (0 < _num_worker_threads b)).
    + destruct (decide (iterations b <= length (_metricOnIter b))%nat);
        [apply Hcompleted | discriminate].
    + destruct (decide (iterations b = 0%nat)); [apply Hcompleted | discriminate].
  - cbn [snd]. intros Hret. injection Hret as _ <-.
    split; [symmetry; apply with_results_id|]. split; reflexivity.
Qed.

Lemma X3_witness :
  let b' :=
    match snd (_run_core Example.world MoreExamples.roomy_benchmark) with
    | Some (_, b') => b'
    | None => MoreExamples.roomy_benchmark
    end in
  snd (_run_core Example.world MoreExamples.roomy_benchmark) = Some (true, b')
  /\ length (_metricOnIter b') = 3%nat
  /\ _metricOnIter b' !! 2%nat = Some (of_int 7).
Proof.
  intros b'.
  assert (Hrun : snd (_run_core Example.world MoreExamples.roomy_benchmark)
                 = Some (true, b')) by (vm_compute; reflexivity).
  destruct (X3_only_results_change Example.world MoreExamples.roomy_benchmark
              b' true Hrun) as (_ & Hlen & Hrest).
  split; [exact Hrun|]. split; [exact Hlen|].
  exact (Hrest 2%nat (le_n 2)).
Defined.

(** ** The actions of a run without its output *)

Section Skeleton.

Variable w : World.
Variable b : Benchmark.
Variables kernel_fptr kernel_dummy_fptr : SequentialFunction.

(** Lines 135-146 for index [t]. *)
Definition build_actions (i t : nat) : list event :=
  [NewWorker i t
     (worker_of w b kernel_fptr kernel_dummy_fptr
        (_len b / _num_worker_threads b) t);
   NewThread i t].

(** Lines 130-170 of iteration [i]: build all, start all, join all, read
    the counters. *)
Definition measure_steps (i : nat) : list event :=
  let n := Z.to_nat (_num_worker_threads b) in
  flat_map (build_actions i) (seq 0 n)
  ++ map (CreateAndStart i) (seq 0 n)
  ++ map (Join i) (seq 0 n)
  ++ Get i 0 BytesPerPass :: flat_map (get_actions i) (seq 0 n).

(** Iteration [i] with its clean-up, lines 198-201. *)
Definition iteration_steps (i : nat) : list event :=
  measure_steps i
  ++ flat_map (delete_actions i) (seq 0 (Z.to_nat (_num_worker_threads b))).

Lemma actions_flat_map {A} (f : A -> list event) (l : list A) :
  actions (flat_map f l) = flat_map (fun x => actions (f x)) l.
Proof.
  induction l as [|x l IH]; [reflexivity|].
  cbn [flat_map]. rewrite actions_app, IH. reflexivity.
Qed.

Lemma actions_of_outputs tr :
  Forall (fun e => is_output e = true) tr -> actions tr = [].
Proof.
  induction 1 as [|e tr He _ IH]; [reflexivity|].
  unfold actions in *. cbn [List.filter]. rewrite He. exact IH.
Qed.

Lemma actions_of_steps tr :
  Forall (fun e => is_output e = false) tr -> actions tr = tr.
Proof.
  induction 1 as [|e tr He _ IH]; [reflexivity|].
  unfold actions in *. cbn [List.filter]. rewrite He. cbn [negb].
  rewrite IH. reflexivity.
Qed.

Lemma actions_measure i :
  actions (measure_actions w b kernel_fptr kernel_dummy_fptr
             (_len b / _num_worker_threads b) i)
  = measure_steps i.
Proof.
  unfold measure_actions, measure_steps. cbv zeta.
  rewrite !actions_app. f_equal; [|f_equal; [|f_equal]].
  - rewrite actions_flat_map. apply flat_map_ext. intros t.
    unfold create_actions, build_actions. rewrite actions_app.
    destruct (_ <? 0); reflexivity.
  - apply actions_of_steps. apply List.Forall_forall. intros e He.
    apply in_map_iff in He. destruct He as (t & <- & _). reflexivity.
  - rewrite actions_flat_map.
    assert (Hjoin : forall l,
               flat_map (fun t => actions (join_actions w i t)) l
               = map (Join i) l).
    { intros l. induction l as [|t l IH]; [reflexivity|].
      cbn [flat_map map]. rewrite IH. unfold join_actions.
      destruct (join w i t); reflexivity. }
    apply Hjoin.
  - change (Get i 0 BytesPerPass
            :: flat_map (get_actions i) (seq 0 (Z.to_nat (_num_worker_threads b)))
               ++ report_actions w b kernel_fptr kernel_dummy_fptr
                    (_len b / _num_worker_threads b) i)
      with ((Get i 0 BytesPerPass
             :: flat_map (get_actions i)
                  (seq 0 (Z.to_nat (_num_worker_threads b))))
            ++ report_actions w b kernel_fptr kernel_dummy_fptr
                 (_len b / _num_worker_threads b) i).
    rewrite actions_app, (actions_of_outputs _ (report_actions_output _ _ _ _ _ _)).
    rewrite app_nil_r. apply actions_of_steps.
    constructor; [reflexivity|].
    apply List.Forall_forall. intros e He.
    apply in_flat_map in He. destruct He as (t & _ & He).
    destruct He as [<-|[<-|[<-|[<-|[]]]]]; reflexivity.
Qed.

Lemma actions_iteration i :
  actions (iteration_actions w b kernel_fptr kernel_dummy_fptr i)
  = iteration_steps i.
Proof.
  unfold iteration_actions, iteration_steps.
  rewrite actions_app, actions_measure. f_equal.
  apply actions_of_steps. apply List.Forall_forall. intros e He.
  apply in_flat_map in He. destruct He as (t & _ & He).
  destruct He as [<-|[<-|[]]]; reflexivity.
Qed.

Lemma actions_prologue :
  actions (prologue w b) = [ReportBenchmarkInfo; StartPowerThreads].
Proof.
  unfold prologue. rewrite !actions_app, start_power_actions.
  assert (Hrun : actions (running_notice w) = []).
  { unfold running_notice. destruct (g_verbose w); reflexivity. }
  rewrite Hrun. reflexivity.
Qed.

Lemma actions_completed :
  actions (fst (completed_run w b kernel_fptr kernel_dummy_fptr))
  = [ReportBenchmarkInfo; StartPowerThreads]
    ++ flat_map iteration_steps (seq 0 (iterations b))
    ++ [StopPowerThreads].
Proof.
  unfold completed_run. cbn [fst].
  rewrite !actions_app, actions_prologue, stop_power_actions, actions_flat_map.
  do 2 f_equal. apply flat_map_ext. exact actions_iteration.
Qed.

Lemma actions_overrun :
  actions (fst (overrun w b kernel_fptr kernel_dummy_fptr))
  = [ReportBenchmarkInfo; StartPowerThreads]
    ++ flat_map iteration_steps (seq 0 (length (_metricOnIter b)))
    ++ measure_steps (length (_metricOnIter b)).
Proof.
  unfold overrun. cbn [fst].
  rewrite !actions_app, actions_prologue, actions_measure, actions_flat_map.
  do 2 f_equal. apply flat_map_ext. exact actions_iteration.
Qed.

End Skeleton.

(** ** Runs in two worlds *)

Lemma store_metrics_ext w w' b k kd iters metrics :
  (forall i, metric_at w' b k kd i = metric_at w b k kd i) ->
  store_metrics w' b k kd iters metrics = store_metrics w b k kd iters metrics.
Proof.
  intros Hsame. unfold store_metrics. revert metrics.
  induction iters as [|i iters IH]; intros metrics; [reflexivity|].
  cbn [fold_left]. rewrite Hsame. apply IH.
Qed.

Lemma sum_metrics_ext w w' b k kd iters average :
  (forall i, metric_at w' b k kd i = metric_at w b k kd i) ->
  sum_metrics w' b k kd iters average = sum_metrics w b k kd iters average.
Proof.
  intros Hsame. unfold sum_metrics. revert average.
  induction iters as [|i iters IH]; intros average; [reflexivity|].
  cbn [fold_left]. rewrite Hsame. apply IH.
Qed.

Lemma filter_flat_map {A} (keep : event -> bool) (f g : A -> list event)
    (l : list A) :
  (forall x, List.filter keep (f x) = List.filter keep (g x)) ->
  List.filter keep (flat_map f l) = List.filter keep (flat_map g l).
Proof.
  intros Hfg. induction l as [|x l IH]; [reflexivity|].
  cbn [flat_map]. rewrite !List.filter_app, Hfg, IH. reflexivity.
Qed.

Section Agreement.

(** Two worlds that give the same kernels and the same metrics, and whose
    runs perform the same actions of the kind [keep] in every part. *)
Variable keep : event -> bool.
Variables w w' : World.
Variable b : Benchmark.

Hypothesis same_kernel :
  determineSequentialKernel w' (_rw_mode b) (_chunk_size b) (_stride_size b)
  = determineSequentialKernel w (_rw_mode b) (_chunk_size b) (_stride_size b).
Hypothesis same_metrics :
  forall k kd i, metric_at w' b k kd i = metric_at w b k kd i.
Hypothesis same_start :
  List.filter keep (fst (start_power w')) = List.filter keep (fst (start_power w)).
Hypothesis same_stop :
  List.filter keep (fst (stop_power w')) = List.filter keep (fst (stop_power w)).
Hypothesis same_notice :
  List.filter keep (running_notice w') = List.filter keep (running_notice w).
Hypothesis same_measure :
  forall k kd i,
    List.filter keep
      (measure_actions w' b k kd (_len b / _num_worker_threads b) i)
    = List.filter keep
        (measure_actions w b k kd (_len b / _num_worker_threads b) i).

Lemma same_iteration k kd i :
  List.filter keep (iteration_actions w' b k kd i)
  = List.filter keep (iteration_actions w b k kd i).
Proof.
  unfold iteration_actions. rewrite !List.filter_app, same_measure. reflexivity.
Qed.

Lemma same_prologue :
  List.filter keep (prologue w' b) = List.filter keep (prologue w b).
Proof.
  unfold prologue. rewrite !List.filter_app, same_start, same_notice.
  reflexivity.
Qed.

Lemma run_core_agree :
  snd (_run_core w' b) = snd (_run_core w b)
  /\ List.filter keep (fst (_run_core w' b))
     = List.filter keep (fst (_run_core w b)).
Proof.
  rewrite !run_core_form. unfold run_form. rewrite same_kernel.
  assert (Hcompleted : forall k kd,
             snd (completed_run w' b k kd) = snd (completed_run w b k kd)
             /\ List.filter keep (fst (completed_run w' b k kd))
                = List.filter keep (fst (completed_run w b k kd))).
  { intros k kd. unfold completed_run, final_metrics, final_average.
    cbn [fst snd]. split.
    - rewrite (store_metrics_ext w w') by apply same_metrics.
      rewrite (sum_metrics_ext w w') by apply same_metrics. reflexivity.
    - rewrite !List.filter_app, same_prologue, same_stop.
      rewrite (filter_flat_map keep _ _ _ (same_iteration k kd)).
      reflexivity. }
  destruct (determineSequentialKernel w (_rw_mode b) (_chunk_size b)
              (_stride_size b)) as [[k kd]|]; [|split; reflexivity].
  destruct (decide (_num_worker_threads b = 0)).
  { cbn [fst snd]. split; [reflexivity|].
    rewrite !List.filter_app, same_start. reflexivity. }
  destruct (decide (0 < _num_worker_threads b)).
  - destruct (decide (iterations b <= length (_metricOnIter b))%nat);
      [apply Hcompleted|].
    unfold overrun. cbn [fst snd]. split; [reflexivity|].
    rewrite !List.filter_app, same_prologue, same_measure.
    rewrite (filter_flat_map keep _ _ _ (same_iteration k kd)). reflexivity.
  - destruct (decide (iterations b = 0%nat)); [apply Hcompleted|].
    cbn [fst snd]. split; [reflexivity | apply same_prologue].
Qed.

End Agreement.

(** ** What the collaborators' answers can and cannot change *)

Definition is_stdout (e : event) : bool :=
  match e with
  | Cout _ => true
  | _ => false
  end.

(** A run without what it prints on standard output: its actions and
    its warnings on standard error. *)
Definition without_stdout (tr : list event) : list event :=
  List.filter (fun e => negb (is_stdout e)) tr.

Lemma report_actions_stdout w b k kd lpt i :
  Forall (fun e => is_stdout e = true) (report_actions w b k kd lpt i).
Proof.
  unfold report_actions, when. destruct (g_verbose w); [|constructor].
  unfold report_iteration, warning_mark, when.
  destruct (iter_warning (totals_of w b k kd lpt i)); cbn; repeat constructor.
Qed.

Lemma without_stdout_report w b k kd lpt i :
  without_stdout (report_actions w b k kd lpt i) = [].
Proof.
  pose proof (report_actions_stdout w b k kd lpt i) as Hout.
  unfold without_stdout. induction Hout as [|e tr He _ IH]; [reflexivity|].
  cbn [List.filter]. rewrite He. exact IH.
Qed.

(** The measuring part of an iteration, split into what the topology and
    the joins decide and what is reported. *)
Lemma measure_actions_split w b k kd lpt i :
  measure_actions w b k kd lpt i
  = (flat_map (create_actions w b k kd lpt i)
       (seq 0 (Z.to_nat (_num_worker_threads b)))
     ++ map (CreateAndStart i) (seq 0 (Z.to_nat (_num_worker_threads b)))
     ++ flat_map (join_actions w i) (seq 0 (Z.to_nat (_num_worker_threads b)))
     ++ Get i 0 BytesPerPass
        :: flat_map (get_actions i) (seq 0 (Z.to_nat (_num_worker_threads b))))
    ++ report_actions w b k kd lpt i.
Proof.
  unfold measure_actions. rewrite <- !app_assoc. reflexivity.
Qed.

(** The world in which the verbosity flag is [verbose]. *)
Definition with_verbose (w : World) (verbose : bool) : World :=
  {| g_verbose := verbose;
     determineSequentialKernel := determineSequentialKernel w;
     _start_power_threads := _start_power_threads w;
     _stop_power_threads := _stop_power_threads w;
     cpu_id_in_numa_node := cpu_id_in_numa_node w;
     get_ns_per_tick := get_ns_per_tick w;
     join := join w;
     counters := counters w |}.

(** X7: the verbosity flag changes what a run prints on standard output
    and nothing else: the result, the actions and the warnings on
    standard error are the same with and without it. *)
Theorem X7_verbosity_only_prints (w : World) (b : Benchmark) (verbose : bool) :
  snd (_run_core (with_verbose w verbose) b) = snd (_run_core w b)
  /\ without_stdout (fst (_run_core (with_verbose w verbose) b))
     = without_stdout (fst (_run_core w b)).
Proof.
  apply (run_core_agree (fun e => negb (is_stdout e)) w (with_verbose w verbose) b).
  - reflexivity.
  - reflexivity.
  - unfold start_power, when. cbn [g_verbose _start_power_threads with_verbose].
    destruct verbose, (g_verbose w), (_start_power_threads w); reflexivity.
  - unfold stop_power, when. cbn [g_verbose _stop_power_threads with_verbose].
    destruct verbose, (g_verbose w), (_stop_power_threads w); reflexivity.
  - unfold running_notice. cbn [g_verbose with_verbose].
    destruct verbose, (g_verbose w); reflexivity.
  - intros k kd i. rewrite !measure_actions_split.
    rewrite !(List.filter_app _ _ (report_actions _ _ _ _ _ _)).
    fold (without_stdout
            (report_actions (with_verbose w verbose) b k kd
               (_len b / _num_worker_threads b) i)).
    fold (without_stdout
            (report_actions w b k kd (_len b / _num_worker_threads b) i)).
    rewrite !without_stdout_report. reflexivity.
Qed.

(** The world whose workers report the counters [reported]. *)
Definition with_counters (w : World)
    (reported : nat -> nat -> ThroughputBenchmarkWorker -> Counters) : World :=
  {| g_verbose := g_verbose w;
     determineSequentialKernel := determineSequentialKernel w;
     _start_power_threads := _start_power_threads w;
     _stop_power_threads := _stop_power_threads w;
     cpu_id_in_numa_node := cpu_id_in_numa_node w;
     get_ns_per_tick := get_ns_per_tick w;
     join := join w;
     counters := reported |}.

Lemma sum_over_ext n f g :
  (forall t, f t = g t) -> sum_over n f = sum_over n g.
Proof.
  intros Hfg. induction n as [|n IH]; [reflexivity|].
  rewrite !sum_over_S, IH, Hfg. reflexivity.
Qed.

(** X8: the elapsed dummy ticks and the warning flags of the workers are
    only reported.  Two sets of counters with the same passes, adjusted
    ticks and bytes per pass give the same result, the same actions and
    the same warnings on standard error. *)
Theorem X8_dummy_ticks_and_warnings_unused (w : World) (b : Benchmark)
    (reported : nat -> nat -> ThroughputBenchmarkWorker -> Counters) :
  (forall i t worker,
      getPasses (reported i t worker) = getPasses (counters w i t worker)
      /\ getAdjustedTicks (reported i t worker)
         = getAdjustedTicks (counters w i t worker)
      /\ getBytesPerPass (reported i t worker)
         = getBytesPerPass (counters w i t worker)) ->
  snd (_run_core (with_counters w reported) b) = snd (_run_core w b)
  /\ without_stdout (fst (_run_core (with_counters w reported) b))
     = without_stdout (fst (_run_core w b)).
Proof.
  intros Hsame.
  apply (run_core_agree (fun e => negb (is_stdout e)) w
           (with_counters w reported) b);
    try reflexivity.
  - intros k kd i.
    unfold metric_at, metric_of, bytes_per_pass_of, avg_adjusted_ticks_of,
      totals_of.
    destruct (totals_sums (with_counters w reported) b k kd
                (_len b / _num_worker_threads b) i
                (Z.to_nat (_num_worker_threads b))) as (Hp' & Ht' & _).
    destruct (totals_sums w b k kd (_len b / _num_worker_threads b) i
                (Z.to_nat (_num_worker_threads b))) as (Hp & Ht & _).
    rewrite Hp', Ht', Hp, Ht.
    unfold counters_of. cbn [counters with_counters].
    change (worker_of (with_counters w reported)) with (worker_of w).
    rewrite (sum_over_ext _ _ _
               (fun t => proj1 (Hsame i t (worker_of w b k kd _ t)))).
    rewrite (sum_over_ext _ _
               (fun t => getAdjustedTicks
                           (counters w i t (worker_of w b k kd
                              (_len b / _num_worker_threads b) t)))
               (fun t => proj1 (proj2 (Hsame i t (worker_of w b k kd _ t))))).
    rewrite (proj2 (proj2 (Hsame i 0%nat (worker_of w b k kd _ 0)))).
    reflexivity.
  - intros k kd i. rewrite !measure_actions_split.
    rewrite !(List.filter_app _ _ (report_actions _ _ _ _ _ _)).
    fold (without_stdout
            (report_actions (with_counters w reported) b k kd
               (_len b / _num_worker_threads b) i)).
    fold (without_stdout
            (report_actions w b k kd (_len b / _num_worker_threads b) i)).
    rewrite !without_stdout_report. reflexivity.
Qed.

Lemma X8_witness :
  let reported :=
    fun (_ _ : nat) (_ : ThroughputBenchmarkWorker) =>
      {| getBytesPerPass := 64; getPasses := 100; getAdjustedTicks := 1000000;
         getElapsedDummyTicks := 77; hadWarning := true |} in
  snd (_run_core (with_counters Example.world_two_cpus reported)
         Example.benchmark)
  = snd (_run_core Example.world_two_cpus Example.benchmark)
  /\ without_stdout
       (fst (_run_core (with_counters Example.world_two_cpus reported)
               Example.benchmark))
     = without_stdout (fst (_run_core Example.world_two_cpus Example.benchmark)).
Proof.
  intros reported.
  apply (X8_dummy_ticks_and_warnings_unused
           Example.world_two_cpus Example.benchmark reported).
  intros i t worker. split; [reflexivity|]. split; reflexivity.
Defined.

(** The world in which the joins answer [joined]. *)
Definition with_join (w : World) (joined : nat -> nat -> bool) : World :=
  {| g_verbose := g_verbose w;
     determineSequentialKernel := determineSequentialKernel w;
     _start_power_threads := _start_power_threads w;
     _stop_power_threads := _stop_power_threads w;
     cpu_id_in_numa_node := cpu_id_in_numa_node w;
     get_ns_per_tick := get_ns_per_tick w;
     join := joined;
     counters := counters w |}.

(** A run that returns success went through all its iterations. *)
Lemma completed_inv (w : World) (b b' : Benchmark) :
  snd (_run_core w b) = Some (true, b') ->
  exists k kd,
    determineSequentialKernel w (_rw_mode b) (_chunk_size b) (_stride_size b)
    = Some (k, kd)
    /\ _run_core w b = completed_run w b k kd
    /\ ((0 < _num_worker_threads b
         /\ (iterations b <= length (_metricOnIter b))%nat)
        \/ iterations b = 0%nat).
Proof.
  rewrite run_core_form. unfold run_form.
  destruct (determineSequentialKernel w (_rw_mode b) (_chunk_size b)
              (_stride_size b)) as [[k kd]|]; [|discriminate].
  intros Hret. exists k, kd. split; [reflexivity|].
  destruct (decide (_num_worker_threads b = 0)); [discriminate|].
  destruct (decide (0 < _num_worker_threads b)).
  - destruct (decide (iterations b <= length (_metricOnIter b))%nat);
      [|discriminate].
    split; [reflexivity | left; split; assumption].
  - destruct (decide (iterations b = 0%nat)); [|discriminate].
    split; [reflexivity | right; assumption].
Qed.

(** The warnings on standard error of the measuring part of an
    iteration. *)
Lemma stderr_of_measure w b k kd lpt i l :
  In (Cerr l) (measure_actions w b k kd lpt i) ->
  (exists t, (t < Z.to_nat (_num_worker_threads b))%nat
             /\ cpu_id_in_numa_node w (_cpu_node b) (Z.of_nat t) < 0
             /\ Cerr l = affinity_warning b t)
  \/ (exists t, (t < Z.to_nat (_num_worker_threads b))%nat
                /\ join w i t = false /\ Cerr l = join_warning).
Proof.
  rewrite measure_actions_split. intros He.
  apply in_app_or in He. destruct He as [He|He].
  - apply in_app_or in He. destruct He as [He|He].
    { left. apply in_flat_map in He. destruct He as (t & Ht & He).
      apply in_seq in Ht. exists t. split; [lia|].
      unfold create_actions in He. apply in_app_or in He.
      destruct He as [He|[He|[He|[]]]]; try discriminate.
      destruct (cpu_id_in_numa_node w (_cpu_node b) (Z.of_nat t) <? 0) eqn:Hc;
        [|destruct He].
      destruct He as [He|[]]. split; [apply Z.ltb_lt; exact Hc | congruence]. }
    apply in_app_or in He. destruct He as [He|He].
    { apply in_map_iff in He. destruct He as (t & He & _). discriminate. }
    apply in_app_or in He. destruct He as [He|He].
    { right. apply in_flat_map in He. destruct He as (t & Ht & He).
      apply in_seq in Ht. exists t. split; [lia|].
      unfold join_actions in He. destruct He as [He|He]; [discriminate|].
      destruct (join w i t); [destruct He|].
      destruct He as [He|[]]. split; [reflexivity | congruence]. }
    exfalso. destruct He as [He|He]; [discriminate|].
    apply in_flat_map in He. destruct He as (t & _ & He).
    destruct He as [He|[He|[He|[He|[]]]]]; discriminate.
  - exfalso. pose proof (report_actions_stdout w b k kd lpt i) as Hout.
    rewrite List.Forall_forall in Hout. specialize (Hout _ He). discriminate.
Qed.

Lemma join_warning_in_prologue w b : ~ In join_warning (prologue w b).
Proof.
  unfold prologue, header, start_power, running_notice, when, join_warning.
  intros He.
  destruct (g_verbose w), (_start_power_threads w); cbn in He;
    repeat (destruct He as [He|He]; [discriminate|]); exact He.
Qed.

Lemma join_warning_in_stop w : ~ In join_warning (fst (stop_power w)).
Proof.
  unfold stop_power, when, join_warning. intros He.
  destruct (g_verbose w), (_stop_power_threads w); cbn in He;
    repeat (destruct He as [He|He]; [discriminate|]); exact He.
Qed.

(** X6: what the joins answer changes neither the result of a run nor
    its actions; a run that completes prints the warning about a worker
    thread on standard error exactly when some join of one of its
    iterations fails. *)
Theorem X6_join_failures_are_warnings (w : World) (b : Benchmark)
    (joined : nat -> nat -> bool) :
  snd (_run_core (with_join w joined) b) = snd (_run_core w b)
  /\ actions (fst (_run_core (with_join w joined) b))
     = actions (fst (_run_core w b))
  /\ (forall b',
        snd (_run_core w b) = Some (true, b') ->
        In join_warning (fst (_run_core w b))
        <-> exists i t,
              (i < Z.to_nat (_iterations b))%nat
              /\ (t < Z.to_nat (_num_worker_threads b))%nat
              /\ join w i t = false).
Proof.
  split; [|split].
  - apply (run_core_agree (fun e => negb (is_output e)) w (with_join w joined) b);
      try reflexivity.
    intros k kd i. fold (actions (measure_actions (with_join w joined) b k kd
                                    (_len b / _num_worker_threads b) i)).
    fold (actions (measure_actions w b k kd (_len b / _num_worker_threads b) i)).
    rewrite !actions_measure. reflexivity.
  - apply (run_core_agree (fun e => negb (is_output e)) w (with_join w joined) b);
      try reflexivity.
    intros k kd i. fold (actions (measure_actions (with_join w joined) b k kd
                                    (_len b / _num_worker_threads b) i)).
    fold (actions (measure_actions w b k kd (_len b / _num_worker_threads b) i)).
    rewrite !actions_measure. reflexivity.
  - intros b' Hret.
    destruct (completed_inv w b b' Hret) as (k & kd & Hk & -> & Hcase).
    unfold completed_run. cbn [fst]. fold (iterations b). split.
    + intros He. apply in_app_or in He.
      destruct He as [He|He]; [destruct (join_warning_in_prologue _ _ He)|].
      apply in_app_or in He.
      destruct He as [He|He]; [|destruct (join_warning_in_stop _ He)].
      apply in_flat_map in He. destruct He as (i & Hi & He).
      apply in_seq in Hi. unfold iteration_actions in He.
      apply in_app_or in He. destruct He as [He|He].
      * apply stderr_of_measure in He.
        destruct He as [(t & _ & _ & He)|(t & Ht & Hj & _)]; [discriminate|].
        exists i, t. repeat split; [lia | exact Ht | exact Hj].
      * apply in_flat_map in He. destruct He as (t & _ & He).
        destruct He as [He|[He|[]]]; discriminate.
    + intros (i & t & Hi & Ht & Hj).
      apply in_or_app. right. apply in_or_app. left.
      apply in_flat_map. exists i. split; [apply in_seq; lia|].
      unfold iteration_actions. apply in_or_app. left.
      rewrite measure_actions_split. apply in_or_app. left.
      apply in_or_app. right. apply in_or_app. right. apply in_or_app. left.
      apply in_flat_map. exists t. split; [apply in_seq; lia|].
      unfold join_actions. rewrite Hj. right. left. reflexivity.
Qed.

(** ** The steps of every run *)

Lemma in_actions (e : event) (tr : list event) :
  In e (actions tr) <-> In e tr /\ is_output e = false.
Proof.
  unfold actions. rewrite List.filter_In.
  destruct (is_output e); cbn [negb]; intuition congruence.
Qed.

Lemma in_measure_steps w b k kd i e :
  In e (measure_steps w b k kd i) ->
  (exists t, (t < Z.to_nat (_num_worker_threads b))%nat
             /\ (In e (build_actions w b k kd i t) \/ e = CreateAndStart i t
                 \/ e = Join i t \/ In e (get_actions i t)))
  \/ e = Get i 0 BytesPerPass.
Proof.
  unfold measure_steps. cbv zeta. intros He.
  apply in_app_or in He. destruct He as [He|He].
  { apply in_flat_map in He. destruct He as (t & Ht & He). apply in_seq in Ht.
    left. exists t. split; [lia | auto]. }
  apply in_app_or in He. destruct He as [He|He].
  { apply in_map_iff in He. destruct He as (t & <- & Ht). apply in_seq in Ht.
    left. exists t. split; [lia | auto]. }
  apply in_app_or in He. destruct He as [He|He].
  { apply in_map_iff in He. destruct He as (t & <- & Ht). apply in_seq in Ht.
    left. exists t. split; [lia | auto]. }
  destruct He as [<-|He]; [right; reflexivity|].
  apply in_flat_map in He. destruct He as (t & Ht & He). apply in_seq in Ht.
  left. exists t. split; [lia | auto].
Qed.

Lemma in_iteration_steps w b k kd i e :
  In e (iteration_steps w b k kd i) ->
  In e (measure_steps w b k kd i)
  \/ exists t, (t < Z.to_nat (_num_worker_threads b))%nat
               /\ In e (delete_actions i t).
Proof.
  unfold iteration_steps. intros He.
  apply in_app_or in He. destruct He as [He|He]; [left; exact He|].
  apply in_flat_map in He. destruct He as (t & Ht & He). apply in_seq in Ht.
  right. exists t. split; [lia | exact He].
Qed.

(** The actions of any run for which a kernel is found: the report and
    the start of the power readers, a number of whole iterations,
    possibly the measuring part of one more, and the stop of the power
    readers exactly when the run returns. *)
Lemma actions_run (w : World) (b : Benchmark) (k kd : SequentialFunction) :
  determineSequentialKernel w (_rw_mode b) (_chunk_size b) (_stride_size b)
  = Some (k, kd) ->
  exists m M,
    actions (fst (_run_core w b))
    = [ReportBenchmarkInfo; StartPowerThreads]
      ++ flat_map (iteration_steps w b k kd) (seq 0 m) ++ M
      ++ match snd (_run_core w b) with
         | Some _ => [StopPowerThreads]
         | None => []
         end
    /\ (M = [] \/ M = measure_steps w b k kd m)
    /\ (snd (_run_core w b) <> None -> M = [] /\ m = iterations b).
Proof.
  intros Hk. rewrite run_core_form. unfold run_form. rewrite Hk.
  assert (Hcompleted :
    exists m M,
      actions (fst (completed_run w b k kd))
      = [ReportBenchmarkInfo; StartPowerThreads]
        ++ flat_map (iteration_steps w b k kd) (seq 0 m) ++ M
        ++ match snd (completed_run w b k kd) with
           | Some _ => [StopPowerThreads]
           | None => []
           end
      /\ (M = [] \/ M = measure_steps w b k kd m)
      /\ (snd (completed_run w b k kd) <> None -> M = [] /\ m = iterations b)).
  { exists (iterations b), []. rewrite actions_completed.
    split; [reflexivity|]. split; [left; reflexivity|]. intros _. split; reflexivity. }
  destruct (decide (_num_worker_threads b = 0)).
  { exists 0%nat, []. cbn [fst snd seq flat_map app].
    rewrite actions_app, start_power_actions.
    split; [reflexivity|]. split; [left; reflexivity|]. intros H. contradiction. }
  destruct (decide (0 < _num_worker_threads b)).
  - destruct (decide (iterations b <= length (_metricOnIter b))%nat);
      [exact Hcompleted|].
    exists (length (_metricOnIter b)),
      (measure_steps w b k kd (length (_metricOnIter b))).
    rewrite actions_overrun. cbn [snd overrun]. rewrite app_nil_r.
    split; [reflexivity|]. split; [right; reflexivity|]. intros H. contradiction.
  - destruct (decide (iterations b = 0%nat)); [exact Hcompleted|].
    exists 0%nat, []. cbn [fst snd seq flat_map app].
    rewrite actions_prologue.
    split; [reflexivity|]. split; [left; reflexivity|]. intros H. contradiction.
Qed.

Lemma actions_without_kernel (w : World) (b : Benchmark) :
  determineSequentialKernel w (_rw_mode b) (_chunk_size b) (_stride_size b)
  = None ->
  actions (fst (_run_core w b)) = [ReportBenchmarkInfo].
Proof. intros Hk. rewrite (run_core_no_kernel w b Hk). reflexivity. Qed.

(** X4: a run that returns success has performed, apart from its output,
    exactly this: the report, the start of the power readers, for every
    iteration in turn the construction of each worker and its thread,
    the start of every thread, the join of every thread, the read of
    worker 0's bytes per pass and of every worker's four counters, and
    the deletion of each thread and its worker, and at last the stop of
    the power readers. *)
Theorem X4_steps_of_a_completed_run (w : World) (b b' : Benchmark) :
  snd (_run_core w b) = Some (true, b') ->
  exists k kd,
    determineSequentialKernel w (_rw_mode b) (_chunk_size b) (_stride_size b)
    = Some (k, kd)
    /\ actions (fst (_run_core w b))
       = [ReportBenchmarkInfo; StartPowerThreads]
         ++ flat_map (iteration_steps w b k kd)
              (seq 0 (Z.to_nat (_iterations b)))
         ++ [StopPowerThreads].
Proof.
  intros Hret.
  destruct (completed_inv w b b' Hret) as (k & kd & Hk & -> & _).
  exists k, kd. split; [exact Hk|]. apply actions_completed.
Qed.

Lemma X4_witness :
  exists k kd,
    determineSequentialKernel Example.world (_rw_mode Example.benchmark)
      (_chunk_size Example.benchmark) (_stride_size Example.benchmark)
    = Some (k, kd)
    /\ actions (fst (_run_core Example.world Example.benchmark))
       = [ReportBenchmarkInfo; StartPowerThreads]
         ++ flat_map (iteration_steps Example.world Example.benchmark k kd)
              (seq 0 (Z.to_nat (_iterations Example.benchmark)))
         ++ [StopPowerThreads].
Proof.
  apply (X4_steps_of_a_completed_run Example.world Example.benchmark
           (match snd (_run_core Example.world Example.benchmark) with
            | Some (_, b') => b'
            | None => Example.benchmark
            end)).
  vm_compute. reflexivity.
Defined.

(** ** What is done before an undefined operation *)

(** X1: the routine checks neither the worker count nor the size of the
    metric vector.  With a kernel, at least one worker and a slot for
    every iteration the run returns true.  With a kernel and no worker
    the power readers are started before the division by zero of line
    118.  With a kernel, at least one worker and fewer slots than
    iterations, every iteration that has a slot is performed in full, and
    the workers of the first iteration without one are built, started,
    joined and read, before the store of line 193 whose index is the size
    of the vector. *)
Theorem X1_no_check_before_the_work (w : World) (b : Benchmark)
    (kernel_fptr kernel_dummy_fptr : SequentialFunction) :
  determineSequentialKernel w (_rw_mode b) (_chunk_size b) (_stride_size b)
  = Some (kernel_fptr, kernel_dummy_fptr) ->
  (0 < _num_worker_threads b ->
   (Z.to_nat (_iterations b) <= length (_metricOnIter b))%nat ->
   exists b', snd (_run_core w b) = Some (true, b'))
  /\ (_num_worker_threads b = 0 ->
      exists rest,
        actions (fst (_run_core w b))
        = ReportBenchmarkInfo :: StartPowerThreads :: rest)
  /\ (0 < _num_worker_threads b ->
      (length (_metricOnIter b) < Z.to_nat (_iterations b))%nat ->
      exists rest,
        actions (fst (_run_core w b))
        = [ReportBenchmarkInfo; StartPowerThreads]
          ++ flat_map (iteration_steps w b kernel_fptr kernel_dummy_fptr)
               (seq 0 (length (_metricOnIter b)))
          ++ measure_steps w b kernel_fptr kernel_dummy_fptr
               (length (_metricOnIter b))
          ++ rest).
Proof.
  intros Hk. rewrite run_core_form. unfold run_form. rewrite Hk.
  fold (iterations b). split; [|split].
  - intros Hn Hlen.
    rewrite decide_False by lia. rewrite decide_True by exact Hn.
    rewrite decide_True by exact Hlen. eexists. reflexivity.
  - intros Hz. rewrite decide_True by exact Hz. cbn [fst].
    exists []. rewrite actions_app, start_power_actions. reflexivity.
  - intros Hn Hlen.
    rewrite decide_False by lia. rewrite decide_True by exact Hn.
    rewrite decide_False by lia.
    exists []. rewrite actions_overrun, app_nil_r. reflexivity.
Qed.

Lemma X1_witness :
  exists rest,
    actions (fst (_run_core Example.world MoreExamples.cramped_benchmark))
    = [ReportBenchmarkInfo; StartPowerThreads]
      ++ flat_map (iteration_steps Example.world MoreExamples.cramped_benchmark
                     4198400 4198912) (seq 0 1)
      ++ measure_steps Example.world MoreExamples.cramped_benchmark
           4198400 4198912 1
      ++ rest.
Proof.
  apply (proj2 (proj2 (X1_no_check_before_the_work
                         Example.world MoreExamples.cramped_benchmark
                         4198400 4198912 eq_refl))).
  - reflexivity.
  - vm_compute. lia.
Defined.

(** ** Failures of the power readers *)

(** C8: a failure to start or to stop the power readers is reported by a
    warning and changes nothing else.  Whatever the readers answer, the
    result of [_run_core] (its boolean, the metrics and the average) and
    its actions other than output are the same; a failure to start is
    reported by a warning once a kernel has been found, a failure to stop
    whenever the run completes.  And whatever they answer, a run with a
    kernel, at least one worker and a slot for every iteration returns
    true after it has performed every iteration in full, between the
    start and the stop of the readers: the construction of each worker
    and thread, the start and the join of every thread, the reads of the
    counters and the deletions; and slot [i] of the metric vector then
    holds the metric of line 193 for the counters of iteration [i]. *)
Theorem C8_power_failures_are_warnings (w : World) (b : Benchmark)
    (started stopped : bool) :
  let w' := with_power w started stopped in
  snd (_run_core w' b) = snd (_run_core w b)
  /\ actions (fst (_run_core w' b)) = actions (fst (_run_core w b))
  /\ (started = false ->
      determineSequentialKernel w (_rw_mode b) (_chunk_size b) (_stride_size b)
      <> None ->
      In start_power_warning (fst (_run_core w' b)))
  /\ (stopped = false ->
      forall b', snd (_run_core w' b) = Some (true, b') ->
      In stop_power_warning (fst (_run_core w' b)))
  /\ (forall kernel_fptr kernel_dummy_fptr,
        determineSequentialKernel w (_rw_mode b) (_chunk_size b)
          (_stride_size b)
        = Some (kernel_fptr, kernel_dummy_fptr) ->
        0 < _num_worker_threads b ->
        (Z.to_nat (_iterations b) <= length (_metricOnIter b))%nat ->
        exists b',
          snd (_run_core w' b) = Some (true, b')
          /\ actions (fst (_run_core w' b))
             = [ReportBenchmarkInfo; StartPowerThreads]
               ++ flat_map (iteration_steps w b kernel_fptr kernel_dummy_fptr)
                    (seq 0 (Z.to_nat (_iterations b)))
               ++ [StopPowerThreads]
          /\ forall i, (i < Z.to_nat (_iterations b))%nat ->
               let num_workers := _num_worker_threads b in
               let worker t :=
                 worker_of w b kernel_fptr kernel_dummy_fptr
                   (_len b / num_workers) t in
               let total_passes :=
                 UInt.u64 (sum_over (Z.to_nat num_workers)
                             (fun t => getPasses (counters w i t (worker t)))) in
               let bytes_per_pass :=
                 UInt.u64 (getBytesPerPass (counters w i 0 (worker 0%nat))) in
               let avg_adjusted_ticks :=
                 UInt.u64 (sum_over (Z.to_nat num_workers)
                             (fun t => getAdjustedTicks
                                         (counters w i t (worker t))))
                 / num_workers in
               _metricOnIter b' !! i
               = Some (metric w total_passes bytes_per_pass avg_adjusted_ticks)).
Proof.
  intros w'.
  destruct (power_answers_unused w b started stopped)
    as (Hres & Hact & Hstart & Hstop).
  split; [exact Hres|]. split; [exact Hact|].
  split; [exact Hstart|]. split; [exact Hstop|].
  subst w'. intros k kd Hk Hn Hlen.
  pose proof (run_core_defined w b k kd Hn Hk Hlen) as Hrun.
  apply (f_equal snd) in Hrun. cbn [snd] in Hrun.
  eexists. split; [rewrite Hres; exact Hrun|]. split.
  - rewrite Hact.
    destruct (completed_inv w b _ Hrun) as (k' & kd' & Hk' & -> & _).
    rewrite Hk in Hk'. injection Hk' as <- <-.
    apply actions_completed.
  - intros i Hi.
    destruct (stored_metric w b k kd i Hk Hn Hlen Hi) as (b'' & Hb'' & Hslot).
    rewrite Hrun in Hb''. injection Hb'' as <-. exact Hslot.
Qed.

Lemma C8_witness :
  let w' := with_power Example.world false false in
  In start_power_warning (fst (_run_core w' Example.benchmark))
  /\ In stop_power_warning (fst (_run_core w' Example.benchmark))
  /\ exists b',
       snd (_run_core w' Example.benchmark) = Some (true, b')
       /\ snd (_run_core Example.world Example.benchmark) = Some (true, b')
       /\ actions (fst (_run_core w' Example.benchmark))
          = [ReportBenchmarkInfo; StartPowerThreads]
            ++ flat_map (iteration_steps Example.world Example.benchmark
                           4198400 4198912) (seq 0 2)
            ++ [StopPowerThreads]
       /\ _metricOnIter b' !! 1%nat
          = Some (S754_finite false 6871947673600000 (-48)).
Proof.
  intros w'.
  destruct (C8_power_failures_are_warnings
              Example.world Example.benchmark false false)
    as (Hres & _ & Hstart & Hstop & Hall).
  destruct (Hall 4198400 4198912 eq_refl eq_refl (le_n 2))
    as (b' & Hrun & Hact & Hslot).
  split; [|split].
  - apply Hstart; [reflexivity | discriminate].
  - exact (Hstop eq_refl b' Hrun).
  - exists b'. split; [exact Hrun|]. split; [rewrite <- Hres; exact Hrun|].
    split; [exact Hact|]. exact (Hslot 1%nat (le_n 2)).
Defined.

(** ** The power readers *)

Definition is_power (e : event) : bool :=
  match e with
  | StartPowerThreads | StopPowerThreads => true
  | _ => false
  end.

Lemma measure_steps_without_power w b k kd i :
  Forall (fun e => is_power e = false) (measure_steps w b k kd i).
Proof.
  apply List.Forall_forall. intros e He.
  destruct (in_measure_steps _ _ _ _ _ _ He)
    as [(t & _ & [Hb|[->|[->|Hg]]])| ->]; try reflexivity.
  - destruct Hb as [<-|[<-|[]]]; reflexivity.
  - destruct Hg as [<-|[<-|[<-|[<-|[]]]]]; reflexivity.
Qed.

Lemma iteration_steps_without_power w b k kd i :
  Forall (fun e => is_power e = false) (iteration_steps w b k kd i).
Proof.
  apply List.Forall_forall. intros e He.
  destruct (in_iteration_steps _ _ _ _ _ _ He) as [Hm|(t & _ & Hd)].
  - pose proof (measure_steps_without_power w b k kd i) as Hall.
    rewrite List.Forall_forall in Hall. exact (Hall e Hm).
  - destruct Hd as [<-|[<-|[]]]; reflexivity.
Qed.

(** X5: a run for which no kernel is found does not touch the power
    readers.  Every other run starts them once, right after the report
    and before anything is done with a worker or a thread; it stops them
    at most once, and then as its last action; and a run that returns has
    stopped them. *)
Theorem X5_power_readers_bracket_the_run (w : World) (b : Benchmark) :
  (determineSequentialKernel w (_rw_mode b) (_chunk_size b) (_stride_size b)
   = None ->
   Forall (fun e => is_power e = false) (fst (_run_core w b)))
  /\ (determineSequentialKernel w (_rw_mode b) (_chunk_size b) (_stride_size b)
      <> None ->
      exists steps tail,
        actions (fst (_run_core w b))
        = ReportBenchmarkInfo :: StartPowerThreads :: steps ++ tail
        /\ Forall (fun e => is_power e = false) steps
        /\ (tail = [] \/ tail = [StopPowerThreads])
        /\ (forall r, snd (_run_core w b) = Some r ->
            tail = [StopPowerThreads])).
Proof.
  split.
  - intros Hk. rewrite (run_core_no_kernel w b Hk). repeat constructor.
  - intros Hk.
    destruct (determineSequentialKernel w (_rw_mode b) (_chunk_size b)
                (_stride_size b)) as [[k kd]|] eqn:Hk'; [|contradiction].
    destruct (actions_run w b k kd Hk') as (m & M & Heq & HM & _).
    exists (flat_map (iteration_steps w b k kd) (seq 0 m) ++ M),
      (match snd (_run_core w b) with
       | Some _ => [StopPowerThreads]
       | None => []
       end).
    split; [|split; [|split]].
    + rewrite Heq. cbn [app]. rewrite <- app_assoc. reflexivity.
    + apply Forall_app_2.
      * apply List.Forall_forall. intros e He.
        apply in_flat_map in He. destruct He as (i & _ & He).
        pose proof (iteration_steps_without_power w b k kd i) as Hall.
        rewrite List.Forall_forall in Hall. exact (Hall e He).
      * destruct HM as [->| ->];
          [constructor | apply measure_steps_without_power].
    + destruct (snd (_run_core w b)); [right | left]; reflexivity.
    + intros r ->. reflexivity.
Qed.

Lemma X5_witness :
  exists steps,
    actions (fst (_run_core Example.world Example.benchmark))
    = ReportBenchmarkInfo :: StartPowerThreads :: steps ++ [StopPowerThreads]
    /\ Forall (fun e => is_power e = false) steps.
Proof.
  destruct (proj2 (X5_power_readers_bracket_the_run
                     Example.world Example.benchmark))
    as (steps & tail & Heq & Hsteps & _ & Hret); [discriminate|].
  assert (Hrun : exists r,
             snd (_run_core Example.world Example.benchmark) = Some r)
    by (vm_compute; eexists; reflexivity).
  destruct Hrun as [r Hrun].
  exists steps. rewrite <- (Hret r Hrun). split; [exact Heq | exact Hsteps].
Defined.

(** X9: every worker a run builds is given the kernel and the dummy
    kernel that the kernel table answered for the configuration, and the
    CPU id that the topology answered for its index in the CPU node. *)
Theorem X9_workers_get_the_resolved_kernels (w : World) (b : Benchmark)
    (i t : nat) (worker : ThroughputBenchmarkWorker) :
  In (NewWorker i t worker) (fst (_run_core w b)) ->
  determineSequentialKernel w (_rw_mode b) (_chunk_size b) (_stride_size b)
  = Some (w_kernel worker, w_kernel_dummy worker)
  /\ w_cpu_id worker = cpu_id_in_numa_node w (_cpu_node b) (Z.of_nat t).
Proof.
  intros He.
  assert (Hact : In (NewWorker i t worker) (actions (fst (_run_core w b))))
    by (apply in_actions; split; [exact He | reflexivity]).
  destruct (determineSequentialKernel w (_rw_mode b) (_chunk_size b)
              (_stride_size b)) as [[k kd]|] eqn:Hk.
  - assert (Hbuilt : forall j,
               In (NewWorker i t worker) (measure_steps w b k kd j) ->
               worker = worker_of w b k kd (_len b / _num_worker_threads b) t).
    { intros j Hj.
      destruct (in_measure_steps _ _ _ _ _ _ Hj)
        as [(t' & _ & [Hb|[Hs|[Hs|Hg]]])|Hg]; try discriminate.
      - destruct Hb as [Hb|[Hb|[]]]; [|discriminate].
        injection Hb as _ <- <-. reflexivity.
      - destruct Hg as [Hg|[Hg|[Hg|[Hg|[]]]]]; discriminate. }
    assert (Hworker : worker
                      = worker_of w b k kd (_len b / _num_worker_threads b) t).
    { destruct (actions_run w b k kd Hk) as (m & M & Heq & HM & _).
      rewrite Heq in Hact. cbn [app] in Hact.
      destruct Hact as [Hact|[Hact|Hact]]; try discriminate.
      apply in_app_or in Hact. destruct Hact as [Hact|Hact].
      - apply in_flat_map in Hact. destruct Hact as (j & _ & Hj).
        destruct (in_iteration_steps _ _ _ _ _ _ Hj) as [Hm|(t' & _ & Hd)];
          [exact (Hbuilt j Hm)|].
        destruct Hd as [Hd|[Hd|[]]]; discriminate.
      - apply in_app_or in Hact. destruct Hact as [Hact|Hact].
        + destruct HM as [->| ->]; [destruct Hact | exact (Hbuilt m Hact)].
        + destruct (snd (_run_core w b)); [|destruct Hact].
          destruct Hact as [Hact|[]]. discriminate. }
    rewrite Hworker. split; reflexivity.
  - rewrite (actions_without_kernel w b Hk) in Hact.
    destruct Hact as [Hact|[]]. discriminate.
Qed.

Lemma X9_witness :
  let worker :=
    {| w_mem_array := 65536 + 3 * 262144; w_len := 262144;
       w_kernel := 4198400; w_kernel_dummy := 4198912; w_cpu_id := -1 |} in
  In (NewWorker 0 3 worker)
    (fst (_run_core Example.world_two_cpus Example.benchmark))
  /\ determineSequentialKernel Example.world_two_cpus
       (_rw_mode Example.benchmark) (_chunk_size Example.benchmark)
       (_stride_size Example.benchmark)
     = Some (w_kernel worker, w_kernel_dummy worker)
  /\ w_cpu_id worker
     = cpu_id_in_numa_node Example.world_two_cpus
         (_cpu_node Example.benchmark) (Z.of_nat 3).
Proof.
  intros worker.
  assert (He : In (NewWorker 0 3 worker)
                 (fst (_run_core Example.world_two_cpus Example.benchmark))).
  { apply (nth_error_In _ 16). vm_compute. reflexivity. }
  split; [exact He|].
  exact (X9_workers_get_the_resolved_kernels
           Example.world_two_cpus Example.benchmark 0 3 worker He).
Defined.

(** ** Order among the steps *)

Section Ordered.

(** [P pre e]: what must be among the actions [pre] performed before the
    action [e]. *)
Variable P : list event -> event -> Prop.
Hypothesis P_mono : forall pre pre' e, incl pre pre' -> P pre e -> P pre' e.

Definition ordered (ctx tr : list event) : Prop :=
  forall pre e post, tr = pre ++ e :: post -> P (ctx ++ pre) e.

Lemma ordered_nil ctx : ordered ctx [].
Proof. intros pre e post Heq. destruct pre; discriminate. Qed.

Lemma ordered_each ctx tr :
  (forall e, In e tr -> P ctx e) -> ordered ctx tr.
Proof.
  intros Hall pre e post ->.
  apply (P_mono ctx); [apply incl_appl, incl_refl|].
  apply Hall, in_elt.
Qed.

Lemma ordered_incl ctx ctx' tr :
  incl ctx ctx' -> ordered ctx tr -> ordered ctx' tr.
Proof.
  intros Hincl H pre e post Heq.
  apply (P_mono (ctx ++ pre)); [|exact (H pre e post Heq)].
  apply incl_app; [apply incl_appl, Hincl | apply incl_appr, incl_refl].
Qed.

Lemma ordered_app ctx tr1 tr2 :
  ordered ctx tr1 -> ordered (ctx ++ tr1) tr2 -> ordered ctx (tr1 ++ tr2).
Proof.
  intros H1 H2 pre e post Heq.
  apply app_eq_app in Heq. destruct Heq as [l [[-> Hl]|[-> Hl]]].
  - destruct l as [|e' l].
    + cbn in Hl. subst tr2.
      specialize (H2 [] e post eq_refl). rewrite !app_nil_r in H2. exact H2.
    + injection Hl as <- ->. apply (H1 pre e l eq_refl).
  - specialize (H2 l e post Hl). rewrite <- app_assoc in H2. exact H2.
Qed.

Lemma ordered_flat_map_each {A} ctx (f : A -> list event) (l : list A) :
  (forall x, In x l -> forall ctx', incl ctx ctx' -> ordered ctx' (f x)) ->
  ordered ctx (flat_map f l).
Proof.
  revert ctx. induction l as [|x l IH]; intros ctx Hf; [apply ordered_nil|].
  cbn [flat_map]. apply ordered_app.
  - apply (Hf x); [left; reflexivity | apply incl_refl].
  - apply IH. intros y Hy ctx' Hincl.
    apply (Hf y); [right; exact Hy|].
    intros e He. apply Hincl, in_or_app. left. exact He.
Qed.

(** Blocks performed one after the other, each in the context of the
    blocks before it. *)
Lemma ordered_blocks ctx (f : nat -> list event) (m : nat) :
  (forall i, (i < m)%nat -> ordered (ctx ++ flat_map f (seq 0 i)) (f i)) ->
  ordered ctx (flat_map f (seq 0 m)).
Proof.
  induction m as [|m IH]; intros Hf; [apply ordered_nil|].
  rewrite seq_S, flat_map_app. cbn [flat_map Nat.add]. rewrite app_nil_r.
  apply ordered_app; [apply IH; intros i Hi; apply Hf; lia | apply Hf; lia].
Qed.

Hypothesis P_output : forall pre e, is_output e = true -> P pre e.

(** Output set aside, the order of the actions is the order of the
    run. *)
Lemma ordered_of_actions tr : ordered [] (actions tr) -> ordered [] tr.
Proof.
  intros H pre e post ->. cbn [app].
  destruct (is_output e) eqn:He; [apply P_output; exact He|].
  specialize (H (actions pre) e (actions post)). cbn [app] in H.
  apply (P_mono (actions pre)).
  - intros x Hx. apply in_actions in Hx. apply Hx.
  - apply H. rewrite actions_app. unfold actions at 2. cbn [List.filter].
    rewrite He. reflexivity.
Qed.

End Ordered.

(** What a run with [n] workers has done before it builds a worker of
    iteration [i] (deleted every worker of every earlier iteration),
    joins a thread (started every thread of the iteration), deletes a
    thread (built it, and read the last counter of every worker of the
    iteration) and deletes a worker (deleted its thread). *)
Definition lifecycle (n : nat) (pre : list event) (e : event) : Prop :=
  match e with
  | NewWorker i _ _ =>
      forall j t', (j < i)%nat -> (t' < n)%nat -> In (DeleteWorker j t') pre
  | Join i _ => forall t', (t' < n)%nat -> In (CreateAndStart i t') pre
  | DeleteThread i t =>
      In (NewThread i t) pre
      /\ forall t', (t' < n)%nat -> In (Get i t' HadWarning) pre
  | DeleteWorker i t => In (DeleteThread i t) pre
  | _ => True
  end.

Lemma lifecycle_mono n pre pre' e :
  incl pre pre' -> lifecycle n pre e -> lifecycle n pre' e.
Proof.
  intros Hincl. destruct e; cbn; try (intros; exact I).
  - intros H j t' Hj Ht'. apply Hincl, H; assumption.
  - intros H t' Ht'. apply Hincl, H, Ht'.
  - intros [H1 H2]. split; [apply Hincl, H1|].
    intros t' Ht'. apply Hincl, H2, Ht'.
  - intros H. apply Hincl, H.
Qed.

Lemma lifecycle_output n pre e : is_output e = true -> lifecycle n pre e.
Proof. destruct e; cbn; intros; try discriminate; exact I. Qed.

Section Lifecycle.

Variable w : World.
Variable b : Benchmark.
Variables kernel_fptr kernel_dummy_fptr : SequentialFunction.

Let n : nat := Z.to_nat (_num_worker_threads b).
Let P := lifecycle n.
Let P_mono := lifecycle_mono n.
Let measure := measure_steps w b kernel_fptr kernel_dummy_fptr.
Let block := iteration_steps w b kernel_fptr kernel_dummy_fptr.

Lemma built_in_measure i t :
  (t < n)%nat ->
  In (NewWorker i t
        (worker_of w b kernel_fptr kernel_dummy_fptr
           (_len b / _num_worker_threads b) t)) (measure i)
  /\ In (NewThread i t) (measure i).
Proof.
  intros Ht.
  assert (Hin : forall e,
             In e (build_actions w b kernel_fptr kernel_dummy_fptr i t) ->
             In e (measure i)).
  { intros e He. unfold measure, measure_steps. cbv zeta.
    apply in_or_app. left. apply in_flat_map. exists t.
    split; [apply in_seq; fold n; lia | exact He]. }
  split; apply Hin; cbn; auto.
Qed.

Lemma started_in_measure i t : (t < n)%nat -> In (CreateAndStart i t) (measure i).
Proof.
  intros Ht. unfold measure, measure_steps. cbv zeta.
  apply in_or_app. right. apply in_or_app. left.
  apply in_map, in_seq. fold n. lia.
Qed.

Lemma joined_in_measure i t : (t < n)%nat -> In (Join i t) (measure i).
Proof.
  intros Ht. unfold measure, measure_steps. cbv zeta.
  apply in_or_app. right. apply in_or_app. right. apply in_or_app. left.
  apply in_map, in_seq. fold n. lia.
Qed.

Lemma read_in_measure i t : (t < n)%nat -> In (Get i t HadWarning) (measure i).
Proof.
  intros Ht. unfold measure, measure_steps. cbv zeta.
  apply in_or_app. right. apply in_or_app. right. apply in_or_app. right.
  right. apply in_flat_map. exists t.
  split; [apply in_seq; fold n; lia | cbn; auto].
Qed.

Lemma deleted_in_block i t :
  (t < n)%nat -> In (DeleteThread i t) (block i) /\ In (DeleteWorker i t) (block i).
Proof.
  intros Ht.
  assert (Hin : forall e, In e (delete_actions i t) -> In e (block i)).
  { intros e He. unfold block, iteration_steps.
    apply in_or_app. right. apply in_flat_map. exists t.
    split; [apply in_seq; fold n; lia | exact He]. }
  split; apply Hin; cbn; auto.
Qed.

Lemma measure_in_block i : incl (measure i) (block i).
Proof. intros e He. unfold block, iteration_steps. apply in_or_app. left. exact He. Qed.

Lemma measure_ordered ctx i :
  (forall j t', (j < i)%nat -> (t' < n)%nat -> In (DeleteWorker j t') ctx) ->
  ordered P ctx (measure i).
Proof.
  intros Hctx. unfold measure, measure_steps. cbv zeta. fold n.
  apply (ordered_app P); [|
    apply (ordered_app P); [|
      apply (ordered_app P)]].
  - apply (ordered_each P P_mono). intros e He.
    apply in_flat_map in He. destruct He as (t & _ & He).
    destruct He as [<-|[<-|[]]]; [exact Hctx | exact I].
  - apply (ordered_each P P_mono). intros e He.
    apply in_map_iff in He. destruct He as (t & <- & _). exact I.
  - apply (ordered_each P P_mono). intros e He.
    apply in_map_iff in He. destruct He as (t & <- & _).
    intros t' Ht'. apply in_or_app. right.
    apply in_map, in_seq. lia.
  - apply (ordered_each P P_mono). intros e He.
    destruct He as [<-|He]; [exact I|].
    apply in_flat_map in He. destruct He as (t & _ & He).
    destruct He as [<-|[<-|[<-|[<-|[]]]]]; exact I.
Qed.

Lemma block_ordered ctx i :
  (forall j t', (j < i)%nat -> (t' < n)%nat -> In (DeleteWorker j t') ctx) ->
  ordered P ctx (block i).
Proof.
  intros Hctx. unfold block, iteration_steps. fold n. fold (measure i).
  apply (ordered_app P); [apply measure_ordered, Hctx|].
  apply (ordered_flat_map_each P).
  intros t Ht ctx' Hincl. apply in_seq in Ht.
  change (delete_actions i t) with ([DeleteThread i t] ++ [DeleteWorker i t]).
  apply (ordered_app P).
  - apply (ordered_each P P_mono). intros e [<-|[]].
    split.
    + apply Hincl, in_or_app. right. apply built_in_measure. lia.
    + intros t' Ht'. apply Hincl, in_or_app. right.
      apply read_in_measure. exact Ht'.
  - apply (ordered_each P P_mono). intros e [<-|[]].
    apply in_or_app. right. left. reflexivity.
Qed.

Lemma earlier_blocks_deleted ctx i j t' :
  (j < i)%nat -> (t' < n)%nat ->
  In (DeleteWorker j t') (ctx ++ flat_map block (seq 0 i)).
Proof.
  intros Hj Ht'. apply in_or_app. right. apply in_flat_map. exists j.
  split; [apply in_seq; lia | apply deleted_in_block; exact Ht'].
Qed.

Hypothesis kernel_found :
  determineSequentialKernel w (_rw_mode b) (_chunk_size b) (_stride_size b)
  = Some (kernel_fptr, kernel_dummy_fptr).

Lemma run_steps_ordered : ordered P [] (actions (fst (_run_core w b))).
Proof.
  destruct (actions_run w b kernel_fptr kernel_dummy_fptr kernel_found)
    as (m & M & -> & HM & _).
  fold block.
  apply (ordered_app P); [|
    apply (ordered_app P); [|
      apply (ordered_app P)]].
  - apply (ordered_each P P_mono).
    intros e [<-|[<-|[]]]; exact I.
  - apply (ordered_blocks P). intros i _.
    apply block_ordered. intros j t'. apply earlier_blocks_deleted.
  - destruct HM as [->| ->]; [apply ordered_nil|].
    apply measure_ordered. intros j t'. apply earlier_blocks_deleted.
  - apply (ordered_each P P_mono). intros e He.
    destruct (snd (_run_core w b)); [|destruct He].
    destruct He as [<-|[]]. exact I.
Qed.

(** The measuring part of the iteration that a step of the run belongs
    to has been performed in full. *)
Lemma step_location e :
  In e (actions (fst (_run_core w b))) -> is_power e = false ->
  e <> ReportBenchmarkInfo ->
  exists i,
    incl (measure i) (actions (fst (_run_core w b)))
    /\ (In e (measure i)
        \/ ((exists t, (t < n)%nat /\ In e (delete_actions i t))
            /\ incl (block i) (actions (fst (_run_core w b))))
        \/ (In e (block i)
            /\ incl (block i) (actions (fst (_run_core w b))))).
Proof.
  destruct (actions_run w b kernel_fptr kernel_dummy_fptr kernel_found)
    as (m & M & -> & HM & _).
  fold block. cbn [app]. intros He Hpower Hreport.
  destruct He as [<-|[<-|He]]; [congruence | discriminate |].
  apply in_app_or in He. destruct He as [He|He].
  - apply in_flat_map in He. destruct He as (i & Hi & He).
    assert (Hblock : incl (block i)
                       (ReportBenchmarkInfo :: StartPowerThreads
                        :: flat_map block (seq 0 m) ++ M
                           ++ match snd (_run_core w b) with
                              | Some _ => [StopPowerThreads]
                              | None => []
                              end)).
    { intros x Hx. right. right. apply in_or_app. left.
      apply in_flat_map. exists i. split; assumption. }
    exists i. split.
    + intros x Hx. apply Hblock, measure_in_block, Hx.
    + right. right. split; assumption.
  - apply in_app_or in He. destruct He as [He|He].
    + destruct HM as [->| ->]; [destruct He|].
      exists m. split; [|left; exact He].
      intros x Hx. right. right. apply in_or_app. right.
      apply in_or_app. left. exact Hx.
    + destruct (snd (_run_core w b)); [|destruct He].
      destruct He as [<-|[]]. discriminate.
Qed.

End Lifecycle.

(** In every run the actions are in the order [lifecycle] describes. *)
Lemma run_core_lifecycle (w : World) (b : Benchmark) :
  ordered (lifecycle (Z.to_nat (_num_worker_threads b))) []
    (fst (_run_core w b)).
Proof.
  apply (ordered_of_actions _ (lifecycle_mono _) (lifecycle_output _)).
  destruct (determineSequentialKernel w (_rw_mode b) (_chunk_size b)
              (_stride_size b)) as [[k kd]|] eqn:Hk.
  - exact (run_steps_ordered w b k kd Hk).
  - rewrite (actions_without_kernel w b Hk).
    apply (ordered_each _ (lifecycle_mono _)). intros e [<-|[]]. exact I.
Qed.

Lemma started_step_inv w b k kd j i t :
  In (CreateAndStart i t) (measure_steps w b k kd j) ->
  j = i /\ (t < Z.to_nat (_num_worker_threads b))%nat.
Proof.
  intros He.
  destruct (in_measure_steps _ _ _ _ _ _ He)
    as [(t' & Ht' & [Hb|[Hs|[Hs|Hg]]])|Hg]; try discriminate.
  - destruct Hb as [Hb|[Hb|[]]]; discriminate.
  - injection Hs as -> ->. split; [reflexivity | exact Ht'].
  - destruct Hg as [Hg|[Hg|[Hg|[Hg|[]]]]]; discriminate.
Qed.

Lemma built_step_inv w b k kd j i t worker :
  In (NewWorker i t worker) (measure_steps w b k kd j) ->
  j = i /\ (t < Z.to_nat (_num_worker_threads b))%nat.
Proof.
  intros He.
  destruct (in_measure_steps _ _ _ _ _ _ He)
    as [(t' & Ht' & [Hb|[Hs|[Hs|Hg]]])|Hg]; try discriminate.
  - destruct Hb as [Hb|[Hb|[]]]; [|discriminate].
    injection Hb as -> -> _. split; [reflexivity | exact Ht'].
  - destruct Hg as [Hg|[Hg|[Hg|[Hg|[]]]]]; discriminate.
Qed.

(** X10: in every run a thread is joined only after every thread of its
    iteration has been started, and every thread that is started is
    joined, also in a run that later stops at a store outside the metric
    vector. *)
Theorem X10_started_threads_are_joined (w : World) (b : Benchmark) :
  (forall pre post i t,
      fst (_run_core w b) = pre ++ Join i t :: post ->
      forall t', (t' < Z.to_nat (_num_worker_threads b))%nat ->
        In (CreateAndStart i t') pre)
  /\ (forall i t,
        In (CreateAndStart i t) (fst (_run_core w b)) ->
        In (Join i t) (fst (_run_core w b))).
Proof.
  split.
  - intros pre post i t Heq. exact (run_core_lifecycle w b pre _ post Heq).
  - intros i t He.
    assert (Hact : In (CreateAndStart i t) (actions (fst (_run_core w b))))
      by (apply in_actions; split; [exact He | reflexivity]).
    destruct (determineSequentialKernel w (_rw_mode b) (_chunk_size b)
                (_stride_size b)) as [[k kd]|] eqn:Hk.
    + destruct (step_location w b k kd Hk _ Hact eq_refl ltac:(discriminate))
        as (j & Hincl & Hwhere).
      assert (Hm : In (CreateAndStart i t) (measure_steps w b k kd j)).
      { destruct Hwhere as [Hm|[[(t' & _ & Hd) _]|[Hb _]]]; [exact Hm| |].
        - destruct Hd as [Hd|[Hd|[]]]; discriminate.
        - destruct (in_iteration_steps _ _ _ _ _ _ Hb) as [Hm|(t' & _ & Hd)];
            [exact Hm|].
          destruct Hd as [Hd|[Hd|[]]]; discriminate. }
      destruct (started_step_inv _ _ _ _ _ _ _ Hm) as [-> Ht].
      apply (in_actions (Join i t)), Hincl, joined_in_measure. exact Ht.
    + rewrite (actions_without_kernel w b Hk) in Hact.
      destruct Hact as [Hact|[]]. discriminate.
Qed.

Lemma X10_witness :
  let tr := fst (_run_core Example.world Example.benchmark) in
  (tr = take 17 tr ++ Join 0 0 :: drop 18 tr
   /\ forall t', (t' < 4)%nat -> In (CreateAndStart 0 t') (take 17 tr))
  /\ In (Join 1 3) tr.
Proof.
  intros tr.
  assert (Hjoin : tr = take 17 tr ++ Join 0 0 :: drop 18 tr)
    by (vm_compute; reflexivity).
  assert (Hstart : In (CreateAndStart 1 3) tr)
    by (apply (nth_error_In _ 57); vm_compute; reflexivity).
  split; [split; [exact Hjoin|]|].
  - exact (proj1 (X10_started_threads_are_joined Example.world Example.benchmark)
             (take 17 tr) (drop 18 tr) 0%nat 0%nat Hjoin).
  - exact (proj2 (X10_started_threads_are_joined Example.world Example.benchmark)
             1%nat 3%nat Hstart).
Defined.

(** X11: in every run a thread is deleted only after it has been built
    and after the last counter of every worker of its iteration has been
    read, and a worker only after its thread has been deleted; a run that
    returns has deleted every worker it built, and the worker's
    thread. *)
Theorem X11_workers_and_threads_are_deleted (w : World) (b : Benchmark) :
  (forall pre post i t,
      fst (_run_core w b) = pre ++ DeleteThread i t :: post ->
      In (NewThread i t) pre
      /\ forall t', (t' < Z.to_nat (_num_worker_threads b))%nat ->
           In (Get i t' HadWarning) pre)
  /\ (forall pre post i t,
        fst (_run_core w b) = pre ++ DeleteWorker i t :: post ->
        In (DeleteThread i t) pre)
  /\ (forall r i t worker,
        snd (_run_core w b) = Some r ->
        In (NewWorker i t worker) (fst (_run_core w b)) ->
        In (DeleteThread i t) (fst (_run_core w b))
        /\ In (DeleteWorker i t) (fst (_run_core w b))).
Proof.
  split; [|split].
  - intros pre post i t Heq. exact (run_core_lifecycle w b pre _ post Heq).
  - intros pre post i t Heq. exact (run_core_lifecycle w b pre _ post Heq).
  - intros r i t worker Hret He.
    assert (Hact : In (NewWorker i t worker) (actions (fst (_run_core w b))))
      by (apply in_actions; split; [exact He | reflexivity]).
    destruct (determineSequentialKernel w (_rw_mode b) (_chunk_size b)
                (_stride_size b)) as [[k kd]|] eqn:Hk.
    + destruct (actions_run w b k kd Hk) as (m & M & Heq & _ & Hdone).
      destruct Hdone as [-> ->]; [rewrite Hret; discriminate|].
      assert (Hblock : In (NewWorker i t worker) (iteration_steps w b k kd i)
                       /\ (t < Z.to_nat (_num_worker_threads b))%nat
                       /\ (i < iterations b)%nat).
      { rewrite Heq in Hact. cbn [app] in Hact.
        destruct Hact as [Hact|[Hact|Hact]]; try discriminate.
        apply in_app_or in Hact. destruct Hact as [Hact|Hact].
        - apply in_flat_map in Hact. destruct Hact as (j & Hj & Hb).
          apply in_seq in Hj.
          destruct (in_iteration_steps _ _ _ _ _ _ Hb) as [Hm|(t' & _ & Hd)].
          + destruct (built_step_inv _ _ _ _ _ _ _ _ Hm) as [-> Ht].
            split; [exact Hb|]. split; [exact Ht | lia].
          + destruct Hd as [Hd|[Hd|[]]]; discriminate.
        - destruct (snd (_run_core w b)); [|destruct Hact].
          destruct Hact as [Hact|[]]. discriminate. }
      destruct Hblock as (_ & Ht & Hi).
      assert (Hin : forall e,
                 is_output e = false ->
                 In e (iteration_steps w b k kd i) -> In e (fst (_run_core w b))).
      { intros e Hout Hb. apply (in_actions e). rewrite Heq.
        cbn [app]. right. right. apply in_or_app. left.
        apply in_flat_map. exists i. split; [apply in_seq; lia | exact Hb]. }
      destruct (deleted_in_block w b k kd i t Ht) as [Hdt Hdw].
      split; apply Hin; try reflexivity; assumption.
    + rewrite (actions_without_kernel w b Hk) in Hact.
      destruct Hact as [Hact|[]]. discriminate.
Qed.

(** X12: iterations do not overlap: in every run, when a worker of
    iteration [i] is built, every worker of every earlier iteration has
    been deleted. *)
Theorem X12_iterations_do_not_overlap (w : World) (b : Benchmark)
    (pre post : list event) (i t : nat) (worker : ThroughputBenchmarkWorker) :
  fst (_run_core w b) = pre ++ NewWorker i t worker :: post ->
  forall j t',
    (j < i)%nat -> (t' < Z.to_nat (_num_worker_threads b))%nat ->
    In (DeleteWorker j t') pre.
Proof.
  intros Heq. exact (run_core_lifecycle w b pre _ post Heq).
Qed.

Lemma X11_witness :
  let tr := fst (_run_core Example.world Example.benchmark) in
  let worker :=
    {| w_mem_array := 65536; w_len := 262144;
       w_kernel := 4198400; w_kernel_dummy := 4198912; w_cpu_id := 0 |} in
  (tr = take 38 tr ++ DeleteThread 0 0 :: drop 39 tr
   /\ In (NewThread 0 0) (take 38 tr)
   /\ forall t', (t' < 4)%nat -> In (Get 0 t' HadWarning) (take 38 tr))
  /\ (tr = take 39 tr ++ DeleteWorker 0 0 :: drop 40 tr
      /\ In (DeleteThread 0 0) (take 39 tr))
  /\ (In (NewWorker 1 0 worker) tr
      /\ In (DeleteThread 1 0) tr /\ In (DeleteWorker 1 0) tr).
Proof.
  intros tr worker.
  pose proof (X11_workers_and_threads_are_deleted
                Example.world Example.benchmark) as (Hthread & Hworker & Hall).
  assert (Hdt : tr = take 38 tr ++ DeleteThread 0 0 :: drop 39 tr)
    by (vm_compute; reflexivity).
  assert (Hdw : tr = take 39 tr ++ DeleteWorker 0 0 :: drop 40 tr)
    by (vm_compute; reflexivity).
  assert (Hnew : In (NewWorker 1 0 worker) tr)
    by (apply (nth_error_In _ 46); vm_compute; reflexivity).
  assert (Hret : exists r,
             snd (_run_core Example.world Example.benchmark) = Some r)
    by (vm_compute; eexists; reflexivity).
  destruct Hret as [r Hret].
  split; [|split].
  - split; [exact Hdt|]. exact (Hthread (take 38 tr) (drop 39 tr) 0%nat 0%nat Hdt).
  - split; [exact Hdw|]. exact (Hworker (take 39 tr) (drop 40 tr) 0%nat 0%nat Hdw).
  - split; [exact Hnew|]. exact (Hall r 1%nat 0%nat worker Hret Hnew).
Defined.

Lemma X12_witness :
  let tr := fst (_run_core Example.world Example.benchmark) in
  let worker :=
    {| w_mem_array := 65536; w_len := 262144;
       w_kernel := 4198400; w_kernel_dummy := 4198912; w_cpu_id := 0 |} in
  tr = take 46 tr ++ NewWorker 1 0 worker :: drop 47 tr
  /\ In (DeleteWorker 0 3) (take 46 tr).
Proof.
  intros tr worker.
  assert (Hnew : tr = take 46 tr ++ NewWorker 1 0 worker :: drop 47 tr)
    by (vm_compute; reflexivity).
  split; [exact Hnew|].
  apply (X12_iterations_do_not_overlap Example.world Example.benchmark
           (take 46 tr) (drop 47 tr) 1 0 worker Hnew 0%nat 3%nat);
    [lia | vm_compute; lia].
Defined.

Lemma X6_witness :
  let joined := fun i t : nat => negb ((i =? 1)%nat && (t =? 2)%nat) in
  let w := with_join Example.world joined in
  snd (_run_core w Example.benchmark)
  = snd (_run_core Example.world Example.benchmark)
  /\ (exists b', snd (_run_core w Example.benchmark) = Some (true, b'))
  /\ In join_warning (fst (_run_core w Example.benchmark)).
Proof.
  intros joined w.
  assert (Hret : exists b',
             snd (_run_core w Example.benchmark) = Some (true, b'))
    by (vm_compute; eexists; reflexivity).
  split; [|split; [exact Hret|]].
  - exact (proj1 (X6_join_failures_are_warnings
                    Example.world Example.benchmark joined)).
  - destruct Hret as [b' Hret].
    apply (proj2 (proj2 (X6_join_failures_are_warnings
                           w Example.benchmark joined)) b' Hret).
    exists 1%nat, 2%nat. vm_compute. repeat split; lia.
Defined.
